(** * AgriMart quality analysis: [quality/services.py]

    A shallow embedding of [YOLOQualityAnalyzer] and of the properties its
    specification states about it.

    Conventions of the embedding.
    - A Python [float] is the rational number it denotes ([Q]); [==] is
      numeric equality.
    - The score aggregator [_calculate_overall_score] and the summary of
      [get_quality_insights] are computed in binary64 ([F64]): each operation
      is the exact one rounded to 53 significant bits, ties to even, and a
      decimal literal is the binary64 number nearest to it. The built-in
      [sum] adds from the left, as CPython 3.11 does; [np.mean] of a list
      adds as NumPy does, in blocks of eight and by halves; [round(x, 2)] is
      the built-in's on a float, which rounds the exact value of [x], a NumPy
      scalar being read as the Python float of the same value. Overflow,
      underflow and NaN are left out: the exponent is unbounded. The square
      roots in the image statistics are rounded in the same way.
    - The other arithmetic of the image analyzers (means over pixels, ratios,
      percentages) is kept exact; literals such as [0.3] are there the
      decimal they spell.
    - A [dict] with string keys is a [gmap string _].
    - An OpenCV / NumPy view of the pixel array that the code only reads
      (a filtered image, a variance, a contour list) is a field of [Image];
      the arithmetic the code does itself is written out.
    - A call either returns or raises ([outcome]); what lies outside the
      analyzer (the file system, the detector, library failures, the clock)
      is an [Env] or a field of the analyzer, and the properties hold for
      every one of them. *)

From Stdlib Require Import QArith Qabs Qround Qpower Lqa ZArith Lia List Sorted.
From stdpp Require Import gmap strings list.

Local Open Scope Q_scope.

(** ** Python numeric built-ins *)

Module Py.

(** [a < b] on floats. *)
Definition ltb (a b : Q) : bool := negb (Qle_bool b a).
(** [a <= b] and [a >= b]. *)
Definition leb (a b : Q) : bool := Qle_bool a b.
Definition geb (a b : Q) : bool := Qle_bool b a.

(** [max(a, b)]: the first argument unless the second is strictly larger. *)
Definition max (a b : Q) : Q := if ltb a b then b else a.
(** [min(a, b)]: the first argument unless the second is strictly smaller. *)
Definition min (a b : Q) : Q := if ltb b a then b else a.

(** [abs(x)]. *)
Definition abs (x : Q) : Q := Qabs x.

(** Round to the nearest integer, ties to even. *)
Definition round_half_even (x : Q) : Z :=
  let f := Qfloor x in
  match Qcompare (x - inject_Z f) (1 # 2) with
  | Lt => f
  | Gt => (f + 1)%Z
  | Eq => if Z.even f then f else (f + 1)%Z
  end.

(** [round(x, 2)]. *)
Definition round2 (x : Q) : Q := inject_Z (round_half_even (x * 100)) / 100.

(** The sum and the mean of a list, in exact arithmetic. *)
Definition sum (xs : list Q) : Q := fold_right Qplus 0 xs.
Definition mean (xs : list Q) : Q := sum xs / inject_Z (Z.of_nat (length xs)).

End Py.

(** ** Binary64 arithmetic *)

Module F64.

(** [floor(log2 x)] of a positive number. *)
Definition ilog2 (x : Q) : Z :=
  let k := (Z.log2 (Qnum x) - Z.log2 (Zpos (Qden x)))%Z in
  if Qle_bool (2 ^ k) x then k else (k - 1)%Z.

(** A positive number rounded to 53 significant bits: the significand
    [x / 2^e], which lies in [2^52, 2^53), is rounded to an integer. *)
Definition round_pos (x : Q) : Q :=
  let e := (ilog2 x - 52)%Z in
  inject_Z (Py.round_half_even (x / 2 ^ e)) * 2 ^ e.

(** The binary64 number nearest to [x], ties to the even significand. *)
Definition round (x : Q) : Q :=
  match Qcompare x 0 with
  | Eq => 0
  | Gt => round_pos x
  | Lt => - round_pos (- x)
  end.

(** A decimal literal of the source, such as [0.1]. *)
Definition lit (x : Q) : Q := round x.

(** [a + b], [a - b], [a * b] and [a / b] on floats. *)
Definition add (a b : Q) : Q := round (a + b).
Definition sub (a b : Q) : Q := round (a - b).
Definition mul (a b : Q) : Q := round (a * b).
Definition div (a b : Q) : Q := round (a / b).

(** [sum(xs)]: the additions are made from the left, starting at 0, each
    one rounded. *)
Definition sum (xs : list Q) : Q := fold_left add xs 0.

(** NumPy's sum of a float array ([pairwise_sum] of its inner loops).
    From 8 to 128 numbers go in turn to eight running sums: [accumulate]
    makes the turns after the first and returns the numbers left over after
    the last full eight. *)
Fixpoint accumulate (turns : nat) (r xs : list Q) : list Q * list Q :=
  match turns with
  | O => (r, xs)
  | S turns => accumulate turns (zip_with add r (take 8 xs)) (drop 8 xs)
  end.

(** The eight running sums are added in pairs. *)
Definition pair_up (r : list Q) : Q :=
  match r with
  | [r0; r1; r2; r3; r4; r5; r6; r7] =>
      add (add (add r0 r1) (add r2 r3)) (add (add r4 r5) (add r6 r7))
  | _ => 0
  end.

Definition block_sum (xs : list Q) : Q :=
  let '(r, rest) := accumulate (length xs / 8 - 1) (take 8 xs) (drop 8 xs) in
  fold_left add rest (pair_up r).

(** Fewer than eight numbers are added from the left; more than 128 are
    split in two, the first part cut down to a multiple of eight, and the
    sums of the parts are added. [depth] bounds the splits: 64 of them cover
    every array a machine can hold ([pairwise_sum_depth]); past them the
    exact sum is rounded once. *)
Fixpoint pairwise_sum (depth : nat) (xs : list Q) : Q :=
  let n := length xs in
  if (n <? 8)%nat then fold_left add xs 0
  else if (n <=? 128)%nat then block_sum xs
  else match depth with
       | O => round (Py.sum xs)
       | S depth =>
           let n2 := (n / 2 - (n / 2) mod 8)%nat in
           add (pairwise_sum depth (take n2 xs)) (pairwise_sum depth (drop n2 xs))
       end.

(** [np.mean(xs)] of a list of floats: NumPy's sum divided by the count. *)
Definition mean (xs : list Q) : Q :=
  div (pairwise_sum 64 xs) (round (inject_Z (Z.of_nat (length xs)))).

(** [round(x, 2)] of a float: the exact value of [x] is rounded to two
    decimals, ties to even, and the result is the float nearest to that. *)
Definition round2 (x : Q) : Q := round (Py.round2 x).

(** [np.sqrt(x)]: the root, truncated after at least 128 significant bits,
    rounded to binary64; 0 for an argument that is not positive. *)
Definition sqrt (x : Q) : Q :=
  if Qle_bool x 0 then 0
  else let k := (128 - ilog2 x / 2)%Z in
       round (inject_Z (Z.sqrt (Qfloor (x * 2 ^ (2 * k)))) / 2 ^ k).

End F64.

(** ** Data model *)

(** Python exceptions: the class name and [str(e)]. *)
Record exn := Exception { exn_class : string; exn_message : string }.

(** The outcome of a call: a returned value or a propagating exception. *)
Inductive outcome (A : Type) : Type :=
| Return (a : A)
| Raise (e : exn).
Arguments Return {A} a.
Arguments Raise {A} e.

(** A contour as OpenCV measures it: [cv2.contourArea], [cv2.arcLength],
    [cv2.boundingRect], [cv2.minEnclosingCircle], the area of
    [cv2.convexHull] and the spatial moments. *)
Record Contour := {
  contourArea : Q;
  arcLength : Q;
  boundingRect : Z * Z * Z * Z;
  minEnclosingCircle : Q * Q * Q;
  hullArea : Q;
  m00 : Q; m10 : Q; m01 : Q
}.

(** A pixel of a three-channel [uint8] array. *)
Definition pixel : Type := Z * Z * Z.

(** A decoded image ([cv2.imread] returned an array), seen through what the
    analyzers read from it. *)
Record Image := {
  (** [cv2.cvtColor(image, cv2.COLOR_BGR2GRAY)], row by row *)
  gray : list Z;
  (** [cv2.cvtColor(image, cv2.COLOR_BGR2HSV)] *)
  hsv : list pixel;
  (** [cv2.cvtColor(image, cv2.COLOR_BGR2LAB)] *)
  lab : list pixel;
  (** [cv2.Laplacian(gray, cv2.CV_64F).var()] *)
  laplacian_var : Q;
  (** [cv2.GaussianBlur(gray, (5, 5), 0)], a [uint8] array like [gray] *)
  gaussian_blur : list Z;
  (** [cv2.Sobel(gray, cv2.CV_64F, 1, 0, ksize=3)] and
      [cv2.Sobel(gray, cv2.CV_64F, 0, 1, ksize=3)] *)
  sobel_x : list Q;
  sobel_y : list Q;
  (** [cv2.calcHist([gray], [0], None, [256], [0, 256])] *)
  gray_hist : list Q;
  (** number of pixels where the inverted dilated Canny mask is set *)
  background_count : nat;
  (** [np.mean(np.std(lab[background_mask > 0], axis=0))] *)
  background_std_mean : Q;
  (** [cv2.findContours] on the Canny edges of [gray] *)
  edge_contours : list Contour;
  (** [cv2.contourArea] of each contour of [cv2.inRange(gray, 0, 60)] *)
  dark_contour_areas : list Q;
  (** [np.std(hsv[:,:,0])] *)
  hue_std : Q;
  (** [np.mean(gabor_response**2)] *)
  texture_energy : Q
}.

(** One entry of [self.product_standards]. *)
Record ProductStandard := {
  ideal_color_range : pixel * pixel;
  size_range : Q * Q;
  shape_circularity : Q;
  defect_tolerance : Q
}.

(** [self.product_standards], as [__init__] fills it. *)
Definition product_standards : gmap string ProductStandard :=
  list_to_map
    [ ("apple",   {| ideal_color_range := ((0, 100, 100)%Z, (10, 255, 255)%Z);
                     size_range := (5000, 50000);
                     shape_circularity := 7 # 10; defect_tolerance := 1 # 10 |});
      ("tomato",  {| ideal_color_range := ((0, 100, 100)%Z, (15, 255, 255)%Z);
                     size_range := (3000, 30000);
                     shape_circularity := 8 # 10; defect_tolerance := 5 # 100 |});
      ("banana",  {| ideal_color_range := ((20, 100, 100)%Z, (30, 255, 255)%Z);
                     size_range := (8000, 40000);
                     shape_circularity := 3 # 10; defect_tolerance := 15 # 100 |});
      ("orange",  {| ideal_color_range := ((10, 100, 100)%Z, (25, 255, 255)%Z);
                     size_range := (4000, 35000);
                     shape_circularity := 75 # 100; defect_tolerance := 1 # 10 |});
      ("cabbage", {| ideal_color_range := ((50, 50, 50)%Z, (80, 255, 255)%Z);
                     size_range := (10000, 80000);
                     shape_circularity := 6 # 10; defect_tolerance := 2 # 10 |});
      ("potato",  {| ideal_color_range := ((15, 30, 80)%Z, (25, 100, 200)%Z);
                     size_range := (2000, 25000);
                     shape_circularity := 5 # 10; defect_tolerance := 3 # 10 |}) ].

(** An entry of the list [_detect_objects] returns. *)
Record Detection := {
  det_class : string;
  confidence : Q;
  bbox : list Q;
  center : list Q
}.

(** What the detector library hands back: [box.conf[0]], [box.xyxy[0].tolist()]
    and [box.cls[0]] of a box, and [result.boxes] (which may be [None]). *)
Record Box := { box_conf : Q; box_xyxy : list Q; box_cls : Z }.
Record YoloResult := { boxes : option (list Box) }.

(** [self.model] after [load_model]: the string sentinel or a loaded detector,
    given by what calling it on an image yields and by its [names] table. *)
Inductive Model :=
| PlaceholderModel (sentinel : string)
| YoloModel (run : Image -> outcome (list YoloResult)) (names : gmap Z string).

(** A row of the [QUALITY_GRADES] table. *)
Record GradeCriteria := { min_score : Q; grade_name : string }.

(** The analyzer object together with the Django settings it reads. *)
Record Analyzer := {
  model : Model;
  confidence_threshold : Q;
  (** [settings.QUALITY_GRADES] when the setting exists, as [dict.items()] *)
  QUALITY_GRADES : option (list (string * GradeCriteria))
}.

(** A defect record: its type, severity and the measurements attached. *)
Inductive DefectType :=
  dark_spots | color_inconsistency | surface_blemishes | texture_irregularity.
Inductive Severity := low | medium | high.

Record DefectRecord := {
  defect_type : DefectType;
  severity : Severity;
  defect_data : list (string * Q)
}.

Global Instance DefectType_eq_dec : EqDecision DefectType.
Proof. solve_decision. Defined.
Global Instance Severity_eq_dec : EqDecision Severity.
Proof. solve_decision. Defined.

(** ** Image metric extractors *)

(** [np.mean] of a [uint8] channel. *)
Definition mean_Z (xs : list Z) : Q := Py.mean (map inject_Z xs).

(** [np.pi], the double nearest to the constant. *)
Definition np_pi : Q := 884279719003555 # 281474976710656.

Definition _calculate_sharpness (image : Image) : Q :=
  Py.min 100 (laplacian_var image / 10).

Definition _calculate_brightness (image : Image) : Q :=
  mean_Z (gray image).

(** [np.std] of a [uint8] channel: the root of the mean squared deviation
    from the mean. *)
Definition std_Z (xs : list Z) : Q :=
  let mean := mean_Z xs in
  F64.sqrt (Py.mean (map (fun x => (inject_Z x - mean) * (inject_Z x - mean)) xs)).

Definition _calculate_contrast (image : Image) : Q :=
  std_Z (gray image).

Definition _calculate_saturation (image : Image) : Q :=
  mean_Z (map (fun p : pixel => snd (fst p)) (hsv image)).

(** [cv2.absdiff] of two [uint8] arrays. *)
Definition absdiff (xs ys : list Z) : list Z :=
  zip_with (fun x y => Z.abs (x - y)) xs ys.

Definition _calculate_noise_level (image : Image) : Q :=
  let blurred := gaussian_blur image in
  let noise := absdiff (gray image) blurred in
  mean_Z noise.

Definition _analyze_focus_quality (image : Image) : Q :=
  let gradient_magnitude :=
    zip_with (fun grad_x grad_y => F64.sqrt (grad_x * grad_x + grad_y * grad_y))
             (sobel_x image) (sobel_y image) in
  Py.mean gradient_magnitude.

(** [np.count_nonzero]. *)
Definition count_nonzero (xs : list Q) : nat :=
  length (List.filter (fun x => negb (Qeq_bool x 0)) xs).

Definition _analyze_lighting_quality (image : Image) : Q :=
  let hist := gray_hist image in
  let non_zero_bins := count_nonzero hist in
  let distribution_score := inject_Z (Z.of_nat non_zero_bins) / 256 * 100 in
  let overexposed := Py.sum (drop 240 hist) / Py.sum hist * 100 in
  let underexposed := Py.sum (take 15 hist) / Py.sum hist * 100 in
  let exposure_penalty := Py.max overexposed underexposed in
  Py.max 0 (distribution_score - exposure_penalty).

Definition _analyze_background (image : Image) : Q :=
  if (0 <? background_count image)%nat
     && (100 <? background_count image)%nat
  then
    let uniformity := 100 - background_std_mean image in
    Py.max 0 uniformity
  else 50.

(** ** Colour, size and shape against the product standard *)

(** [cv2.inRange] on one pixel: every channel within its bounds, inclusive. *)
Definition inRange (lower upper p : pixel) : bool :=
  let '(l0, l1, l2) := lower in
  let '(u0, u1, u2) := upper in
  let '(p0, p1, p2) := p in
  ((l0 <=? p0) && (p0 <=? u0) && (l1 <=? p1) && (p1 <=? u1)
   && (l2 <=? p2) && (p2 <=? u2))%Z.

Definition _analyze_color_accuracy (image : Image) (product_type : string) : Q :=
  match product_standards !! product_type with
  | None => 75
  | Some standards =>
      let ideal_range := ideal_color_range standards in
      let mask := map (inRange (fst ideal_range) (snd ideal_range)) (hsv image) in
      let ideal_pixels := length (List.filter id mask) in
      let total_pixels := length mask in
      let color_accuracy :=
        inject_Z (Z.of_nat ideal_pixels) / inject_Z (Z.of_nat total_pixels) * 100 in
      Py.min 100 (color_accuracy * 2)
  end.

(** The dictionary [_advanced_size_analysis] returns when a contour exists. *)
Record SizeMetrics := {
  area : Q;
  perimeter : Q;
  aspect_ratio : Q;
  circularity : Q;
  solidity : Q;
  bounding_box : Z * Z * Z * Z;
  enclosing_circle : Q * Q * Q;
  centroid : Q * Q
}.

(** [max(contours, key=cv2.contourArea)] continued from a current best: a
    later contour replaces it only when strictly larger. *)
Fixpoint max_by_area (best : Contour) (contours : list Contour) : Contour :=
  match contours with
  | [] => best
  | c :: rest =>
      max_by_area (if Py.ltb (contourArea best) (contourArea c) then c else best)
                  rest
  end.

(** [inl msg] is the dictionary [{'error': msg}]. *)
Definition _advanced_size_analysis (image : Image) : string + SizeMetrics :=
  match edge_contours image with
  | [] => inl "No objects detected"%string
  | c0 :: rest =>
      let main_contour := max_by_area c0 rest in
      let area := contourArea main_contour in
      let perimeter := arcLength main_contour in
      let '(x, y, w, h) := boundingRect main_contour in
      let aspect_ratio := if (0 <? h)%Z then inject_Z w / inject_Z h else 0 in
      let hull_area := hullArea main_contour in
      let solidity := if Py.ltb 0 hull_area then area / hull_area else 0 in
      let circularity :=
        if Py.ltb 0 perimeter
        then 4 * np_pi * area / (perimeter * perimeter) else 0 in
      let centroid :=
        if Py.ltb 0 (m00 main_contour)
        then (m10 main_contour / m00 main_contour,
              m01 main_contour / m00 main_contour)
        else (0, 0) in
      inr {| area := area; perimeter := perimeter;
             aspect_ratio := aspect_ratio; circularity := circularity;
             solidity := solidity; bounding_box := (x, y, w, h);
             enclosing_circle := minEnclosingCircle main_contour;
             centroid := centroid |}
  end.

Definition _analyze_size_appropriateness (image : Image) (product_type : string) : Q :=
  match product_standards !! product_type with
  | None => 75
  | Some standards =>
      match _advanced_size_analysis image with
      | inr size_analysis =>
          let area := area size_analysis in
          let '(min_size, max_size) := size_range standards in
          if Py.leb min_size area && Py.leb area max_size then 100
          else if Py.ltb area min_size
          then Py.max 0 (100 - ((min_size - area) / min_size * 100))
          else Py.max 0 (100 - ((area - max_size) / max_size * 100))
      | inl _ => 50
      end
  end.

Definition _analyze_shape_regularity (image : Image) (product_type : string) : Q :=
  match product_standards !! product_type with
  | None => 75
  | Some standards =>
      match _advanced_size_analysis image with
      | inr size_analysis =>
          let actual_circularity := circularity size_analysis in
          let expected_circularity := shape_circularity standards in
          let deviation := Py.abs (actual_circularity - expected_circularity) in
          let shape_score := Py.max 0 (100 - (deviation * 100)) in
          shape_score
      | inl _ => 50
      end
  end.

(** [_comprehensive_quality_analysis]: the metrics dictionary. *)
Definition _comprehensive_quality_analysis
    (image : Image) (product_type : string) : gmap string Q :=
  let metrics : gmap string Q := ∅ in
  let metrics := <["sharpness" := _calculate_sharpness image]> metrics in
  let metrics := <["brightness" := _calculate_brightness image]> metrics in
  let metrics := <["contrast" := _calculate_contrast image]> metrics in
  let metrics := <["saturation" := _calculate_saturation image]> metrics in
  let metrics := <["noise_level" := _calculate_noise_level image]> metrics in
  let metrics := <["focus_quality" := _analyze_focus_quality image]> metrics in
  let metrics := <["lighting_quality" := _analyze_lighting_quality image]> metrics in
  let metrics := <["background_uniformity" := _analyze_background image]> metrics in
  match product_standards !! product_type with
  | Some _ =>
      let metrics :=
        <["color_accuracy" := _analyze_color_accuracy image product_type]> metrics in
      let metrics :=
        <["size_appropriateness" :=
            _analyze_size_appropriateness image product_type]> metrics in
      <["shape_regularity" := _analyze_shape_regularity image product_type]> metrics
  | None => metrics
  end.

(** ** Object detection *)

(** The entry the placeholder branch appends. *)
Definition simulated_detection : Detection :=
  {| det_class := "fruit"; confidence := 0.85;
     bbox := [100; 100; 200; 200]; center := [150; 150] |}.

Definition KeyError : exn := Exception "KeyError" "class id".
Definition IndexError : exn := Exception "IndexError" "list index out of range".

(** The loop over the boxes of one result. It yields the [objects] list as
    it stands when the loop ends, and the exception that stopped it, if any. *)
Fixpoint boxes_loop (names : gmap Z string) (threshold : Q)
    (bs : list Box) (objects : list Detection) : list Detection * option exn :=
  match bs with
  | [] => (objects, None)
  | box :: rest =>
      let confidence := box_conf box in
      if Py.geb confidence threshold then
        let bbox := box_xyxy box in
        match names !! box_cls box with
        | None => (objects, Some KeyError)
        | Some class_name =>
            match bbox !! 0%nat, bbox !! 2%nat, bbox !! 1%nat, bbox !! 3%nat with
            | Some b0, Some b2, Some b1, Some b3 =>
                boxes_loop names threshold rest
                  (objects ++ [ {| det_class := class_name;
                                   confidence := confidence;
                                   bbox := bbox;
                                   center := [(b0 + b2) / 2; (b1 + b3) / 2] |} ])
            | _, _, _, _ => (objects, Some IndexError)
            end
        end
      else boxes_loop names threshold rest objects
  end.

(** The loop over the results of the detector. *)
Fixpoint results_loop (names : gmap Z string) (threshold : Q)
    (results : list YoloResult) (objects : list Detection)
    : list Detection * option exn :=
  match results with
  | [] => (objects, None)
  | result :: rest =>
      match boxes result with
      | Some bs =>
          match boxes_loop names threshold bs objects with
          | (objects', None) => results_loop names threshold rest objects'
          | stopped => stopped
          end
      | None => results_loop names threshold rest objects
      end
  end.

(** [_detect_objects]: whatever was appended before an exception is kept,
    the exception itself is logged and dropped. *)
Definition _detect_objects (self : Analyzer) (image : Image) : list Detection :=
  let objects := [] in
  match model self with
  | PlaceholderModel _ => objects ++ [simulated_detection]
  | YoloModel run names =>
      match run image with
      | Return results =>
          fst (results_loop names (confidence_threshold self) results objects)
      | Raise _ => objects
      end
  end.

(** ** Defect detectors *)

(** The loop of [_detect_dark_spots] over the contour areas. *)
Fixpoint dark_spot_loop (areas : list Q) (significant_spots : nat)
    (total_dark_area : Q) : nat * Q :=
  match areas with
  | [] => (significant_spots, total_dark_area)
  | area :: rest =>
      if Py.ltb 100 area
      then dark_spot_loop rest (S significant_spots) (total_dark_area + area)
      else dark_spot_loop rest significant_spots total_dark_area
  end.

Definition of_nat (n : nat) : Q := inject_Z (Z.of_nat n).

Definition _detect_dark_spots (image : Image) : list DefectRecord :=
  let '(significant_spots, total_dark_area) :=
    dark_spot_loop (dark_contour_areas image) 0 0 in
  if (0 <? significant_spots)%nat then
    [ {| defect_type := dark_spots;
         severity := if (5 <? significant_spots)%nat then high else medium;
         defect_data := [("count"%string, of_nat significant_spots);
                         ("total_area"%string, total_dark_area)] |} ]
  else [].

Definition _detect_color_inconsistencies (image : Image) : list DefectRecord :=
  if Py.ltb 30 (hue_std image) then
    [ {| defect_type := color_inconsistency;
         severity := medium;
         defect_data := [("variance"%string, hue_std image)] |} ]
  else [].

(** [np.logical_or] of the four comparisons on the A and B channels. *)
Definition extreme (p : pixel) : bool :=
  let '(_, a, b) := p in
  (((a <? 100) || (155 <? a)) || ((b <? 100) || (155 <? b)))%Z.

Definition blemish_percentage (image : Image) : Q :=
  let extreme_areas := map extreme (lab image) in
  of_nat (length (List.filter id extreme_areas)) / of_nat (length extreme_areas) * 100.

Definition _detect_surface_blemishes (image : Image) : list DefectRecord :=
  let blemish_percentage := blemish_percentage image in
  if Py.ltb 5 blemish_percentage then
    [ {| defect_type := surface_blemishes;
         severity := if Py.ltb 15 blemish_percentage then high else medium;
         defect_data := [("percentage"%string, blemish_percentage)] |} ]
  else [].

Definition _detect_texture_issues (image : Image) : list DefectRecord :=
  if Py.ltb 1000 (texture_energy image) then
    [ {| defect_type := texture_irregularity;
         severity := low;
         defect_data := [("energy"%string, texture_energy image)] |} ]
  else [].

Definition _detect_defects (image : Image) (product_type : string)
    : list DefectRecord :=
  let defects := [] in
  let defects := defects ++ _detect_dark_spots image in
  let defects := defects ++ _detect_color_inconsistencies image in
  let defects := defects ++ _detect_surface_blemishes image in
  let defects := defects ++ _detect_texture_issues image in
  defects.

(** ** Score aggregation and grading *)

(** The list [score_components] as [_calculate_overall_score] builds it. *)
Definition score_components (metrics : gmap string Q) (objects : list Detection)
    : list (string * Q) :=
  let score_components : list (string * Q) := [] in
  let score_components :=
    match metrics !! "sharpness" with
    | Some sharpness =>
        score_components ++ [("sharpness"%string, F64.mul sharpness (F64.lit 0.1))]
    | None => score_components
    end in
  let score_components :=
    match metrics !! "brightness" with
    | Some brightness =>
        let brightness_score :=
          F64.sub 100 (F64.mul (Py.abs (F64.sub brightness 130)) 2) in
        score_components
        ++ [("brightness"%string, F64.mul (Py.max 0 brightness_score) (F64.lit 0.1))]
    | None => score_components
    end in
  let score_components :=
    match metrics !! "contrast" with
    | Some contrast =>
        let contrast_score :=
          F64.sub 100 (F64.mul (Py.abs (F64.sub contrast 65)) 1.5) in
        score_components
        ++ [("contrast"%string, F64.mul (Py.max 0 contrast_score) (F64.lit 0.1))]
    | None => score_components
    end in
  let score_components :=
    match metrics !! "lighting_quality" with
    | Some lighting =>
        score_components ++ [("lighting"%string, F64.mul lighting (F64.lit 0.1))]
    | None => score_components
    end in
  let score_components :=
    match metrics !! "color_accuracy" with
    | Some color =>
        score_components ++ [("color_accuracy"%string, F64.mul color (F64.lit 0.2))]
    | None => score_components
    end in
  let score_components :=
    match metrics !! "size_appropriateness" with
    | Some size => score_components ++ [("size"%string, F64.mul size (F64.lit 0.1))]
    | None => score_components
    end in
  let score_components :=
    match metrics !! "shape_regularity" with
    | Some shape => score_components ++ [("shape"%string, F64.mul shape (F64.lit 0.1))]
    | None => score_components
    end in
  let score_components :=
    match objects with
    | _ :: _ =>
        let avg_confidence := F64.mul (F64.mean (map confidence objects)) 100 in
        score_components ++ [("detection"%string, F64.mul avg_confidence (F64.lit 0.1))]
    | [] => score_components
    end in
  let score_components :=
    match metrics !! "background_uniformity" with
    | Some background =>
        score_components ++ [("background"%string, F64.mul background (F64.lit 0.1))]
    | None => score_components
    end in
  score_components.

(** The penalty subtracted for noise. *)
Definition noise_penalty (metrics : gmap string Q) : Q :=
  let penalty := 0 in
  match metrics !! "noise_level" with
  | Some noise_level =>
      if Py.ltb 20 noise_level
      then F64.add penalty (F64.mul (F64.sub noise_level 20) 0.5)
      else penalty
  | None => penalty
  end.

(** [sum(score for _, score in score_components)]. *)
Definition total_score (metrics : gmap string Q) (objects : list Detection) : Q :=
  F64.sum (map snd (score_components metrics objects)).

(** The score before [round]. *)
Definition final_score (metrics : gmap string Q) (objects : list Detection) : Q :=
  let total_score := total_score metrics objects in
  let penalty := noise_penalty metrics in
  Py.max 0 (Py.min 100 (F64.sub total_score penalty)).

Definition _calculate_overall_score (metrics : gmap string Q)
    (objects : list Detection) (product_type : string) : Q :=
  F64.round2 (final_score metrics objects).

(** The table used when the setting is absent. *)
Definition default_grades : list (string * GradeCriteria) :=
  [ ("A"%string, {| min_score := 85; grade_name := "Premium" |});
    ("B"%string, {| min_score := 70; grade_name := "Good" |});
    ("C"%string, {| min_score := 50; grade_name := "Fair" |});
    ("D"%string, {| min_score := 0; grade_name := "Poor" |}) ].

(** [sorted(items, key=min_score, reverse=True)]: a stable sort, so rows
    with equal keys keep the order they had. *)
Fixpoint insert_desc (x : string * GradeCriteria)
    (l : list (string * GradeCriteria)) : list (string * GradeCriteria) :=
  match l with
  | [] => [x]
  | y :: rest =>
      if Py.ltb (min_score (snd x)) (min_score (snd y))
      then y :: insert_desc x rest
      else x :: y :: rest
  end.

Definition sorted_desc (grades : list (string * GradeCriteria))
    : list (string * GradeCriteria) :=
  fold_right insert_desc [] grades.

(** The [for] loop of [_get_quality_grade] with its fall-through. *)
Fixpoint first_grade (score : Q) (rows : list (string * GradeCriteria)) : string :=
  match rows with
  | [] => "D"
  | (grade, criteria) :: rest =>
      if Py.geb score (min_score criteria) then grade else first_grade score rest
  end.

Definition grades_of (self : Analyzer) : list (string * GradeCriteria) :=
  match QUALITY_GRADES self with
  | Some grades => grades
  | None => default_grades
  end.

Definition _get_quality_grade (self : Analyzer) (score : Q) : string :=
  first_grade score (sorted_desc (grades_of self)).

(** ** Freshness and recommendations *)

Definition brown (p : pixel) : bool := inRange (10, 50, 50)%Z (20, 255, 200)%Z p.

Definition _analyze_freshness (image : Image) (product_type : string)
    : gmap string Q :=
  let color_vibrancy := mean_Z (map (fun p : pixel => snd (fst p)) (hsv image)) in
  let brightness := mean_Z (map (fun p : pixel => snd p) (hsv image)) in
  let color_uniformity := 100 - hue_std image in
  let brown_mask := map brown (hsv image) in
  let brown_percentage :=
    of_nat (length (List.filter id brown_mask)) / of_nat (length brown_mask) * 100 in
  let freshness_score :=
    (color_vibrancy * 0.3 + brightness * 0.2 + color_uniformity * 0.3
     + Py.max 0 (100 - brown_percentage * 2) * 0.2) / 100 * 100 in
  <["freshness_score" := Py.min 100 (Py.max 0 freshness_score)]>
    (<["browning_percentage" := brown_percentage]>
       (<["color_uniformity" := color_uniformity]>
          (<["brightness" := brightness]>
             (<["color_vibrancy" := color_vibrancy]> ∅)))).

(** [metrics.get(key, 0)]. *)
Definition get0 (metrics : gmap string Q) (key : string) : Q :=
  default 0 (metrics !! key).

Definition _generate_recommendations (metrics : gmap string Q)
    (product_type : string) : list string :=
  let r : list string := [] in
  let r := if Py.ltb (get0 metrics "sharpness") 50
           then r ++ ["Use a tripod or stabilize camera to reduce blur";
                      "Ensure proper focus on the main subject"]%string else r in
  let r := if Py.ltb (get0 metrics "lighting_quality") 60
           then r ++ ["Improve lighting conditions - use natural light or additional lighting";
                      "Avoid harsh shadows and direct flash"]%string else r in
  let r := if Py.ltb (get0 metrics "background_uniformity") 70
           then r ++ ["Use a plain, neutral background";
                      "Remove clutter from the background"]%string else r in
  let r := if Py.ltb (get0 metrics "color_accuracy") 70
           then r ++ ["Ensure accurate color representation";
                      "Check white balance settings"]%string else r in
  let r := if Py.ltb 20 (get0 metrics "noise_level")
           then r ++ ["Reduce ISO settings to minimize noise";
                      "Use better lighting instead of high ISO"]%string else r in
  r ++ ["Center the product in the frame";
        "Ensure the entire product is visible";
        "Take multiple angles for better representation"]%string.

(** ** The analysis call *)

(** What [_advanced_color_analysis] returns. Its k-means clustering and
    entropy are not embedded: the call is part of the environment. *)
Record ColorAnalysis := {
  hsv_analysis : gmap string Q;
  lab_analysis : gmap string Q;
  color_distribution : gmap string Q;
  dominant_colors : list (pixel * Q);
  color_complexity : Q
}.

(** The values stored in the result dictionary. *)
Inductive pyval :=
| VFloat (x : Q)
| VStr (s : string)
| VInfo (info : gmap string string)
| VObjects (objects : list Detection)
| VMetrics (metrics : gmap string Q)
| VDefects (defects : list DefectRecord)
| VColor (c : ColorAnalysis)
| VSize (s : string + SizeMetrics)
| VStrings (l : list string).

(** The world outside the analyzer. *)
Record Env := {
  (** [cv2.imread]: [None] when the file cannot be read or decoded *)
  imread : string -> option Image;
  (** [_get_image_info]: the PIL metadata, or [{}] after its own handler *)
  _get_image_info : string -> gmap string string;
  (** an exception an OpenCV or NumPy call raises while the metrics are
      computed on the array, if any *)
  cv2_error : Image -> option exn;
  (** [_advanced_color_analysis] *)
  _advanced_color_analysis : Image -> string -> outcome ColorAnalysis;
  (** [timezone.now().isoformat()] *)
  now : string
}.

(** Sequencing: an exception skips the rest. *)
Global Instance outcome_bind : MBind outcome := fun A B k m =>
  match m with
  | Return a => k a
  | Raise e => Raise e
  end.

(** [try: body / except Exception as e: handler(e)]. *)
Definition try_except {A} (body : outcome A) (handler : exn -> outcome A)
    : outcome A :=
  match body with
  | Return a => Return a
  | Raise e => handler e
  end.

(** A computation over the array, stopped by the library error when there
    is one. *)
Definition on_array {A} (env : Env) (image : Image) (value : A) : outcome A :=
  match cv2_error env image with
  | Some e => Raise e
  | None => Return value
  end.

(** The statements inside the [try] of [analyze_image]. *)
Definition analyze_image_body (env : Env) (self : Analyzer)
    (image_path product_type : string) : outcome (gmap string pyval) :=
  match imread env image_path with
  | None => Return {[ "error"%string := VStr "Could not load image" ]}
  | Some image =>
      let image_info := _get_image_info env image_path in
      let objects := _detect_objects self image in
      quality_metrics ←
        on_array env image (_comprehensive_quality_analysis image product_type);
      let overall_score :=
        _calculate_overall_score quality_metrics objects product_type in
      color_analysis ← _advanced_color_analysis env image product_type;
      Return
        (<["overall_score" := VFloat overall_score]>
        (<["grade" := VStr (_get_quality_grade self overall_score)]>
        (<["image_info" := VInfo image_info]>
        (<["objects_detected" := VObjects objects]>
        (<["quality_metrics" := VMetrics quality_metrics]>
        (<["defects" := VDefects (_detect_defects image product_type)]>
        (<["color_analysis" := VColor color_analysis]>
        (<["size_analysis" := VSize (_advanced_size_analysis image)]>
        (<["freshness_indicators" :=
             VMetrics (_analyze_freshness image product_type)]>
        (<["recommendations" :=
             VStrings (_generate_recommendations quality_metrics product_type)]>
        (<["timestamp" := VStr (now env)]> ∅)))))))))))
  end.

Definition analyze_image (env : Env) (self : Analyzer)
    (image_path product_type : string) : outcome (gmap string pyval) :=
  try_except (analyze_image_body env self image_path product_type)
             (fun e => Return {[ "error"%string := VStr (exn_message e) ]}).

(** ** Construction of the analyzer *)

(** The Django settings the module reads with [getattr(settings, ..)]: a
    missing setting is [None]. *)
Record Settings := {
  YOLO_CONFIDENCE_THRESHOLD : option Q;
  YOLO_MODEL_PATH : option string;
  GRADES_SETTING : option (list (string * GradeCriteria))
}.

(** What a detector object is made of: its call and its [names] table. *)
Definition Detector : Type :=
  (Image -> outcome (list YoloResult)) * gmap Z string.

(** The process the analyzer is constructed in. *)
Record Runtime := {
  settings : Settings;
  (** [from ultralytics import YOLO]: [None] when the import raises
      [ImportError]; otherwise the constructor [YOLO(path)] *)
  ultralytics : option (string -> outcome Detector);
  (** [os.path.exists] *)
  path_exists : string -> bool
}.

(** Truth value of a string: the empty string is false. *)
Definition truthy (s : string) : bool :=
  match s with
  | EmptyString => false
  | _ => true
  end.

(** [load_model]: the value left in [self.model]. *)
Definition load_model (rt : Runtime) : Model :=
  match ultralytics rt with
  | None => PlaceholderModel "placeholder_model"
  | Some YOLO =>
      let model_path := YOLO_MODEL_PATH (settings rt) in
      let loaded :=
        match model_path with
        | Some p => if truthy p && path_exists rt p then YOLO p else YOLO "yolov8n.pt"%string
        | None => YOLO "yolov8n.pt"%string
        end in
      match loaded with
      | Return (run, names) => YoloModel run names
      | Raise _ => PlaceholderModel "placeholder_model"
      end
  end.

(** [YOLOQualityAnalyzer()]. *)
Definition YOLOQualityAnalyzer (rt : Runtime) : Analyzer :=
  {| model := load_model rt;
     confidence_threshold := default 0.5 (YOLO_CONFIDENCE_THRESHOLD (settings rt));
     QUALITY_GRADES := GRADES_SETTING (settings rt) |}.

(** ** Service functions *)

(** The first argument of [analyze_product_image] as its callers pass it: a
    path string, or an uploaded file with a name and a content. *)
Inductive ImageFile :=
| PathString (path : string)
| UploadedFile (name : string) (content : string).

(** The [product] argument: its name, the name of its category when it has
    the attribute, and its expected grade when it has that one. *)
Record Product := {
  product_name : string;
  product_category : option string;
  expected_quality_grade : option string
}.

(** The site the service runs on: the analysis environment, the runtime, and
    the default storage. *)
Record Site := {
  site_env : Env;
  runtime : Runtime;
  (** [timezone.now().strftime("%Y%m%d_%H%M%S")] *)
  stamp : string;
  (** the name [default_storage.save] stores a file under, given the names
      taken and the name asked for *)
  available_name : gset string -> string -> string;
  (** [default_storage.path]: storages without local files raise *)
  storage_path : string -> outcome string
}.

Definition AttributeError_name : exn :=
  Exception "AttributeError" "'str' object has no attribute 'name'".

(** The statements inside the [try] of [analyze_product_image], on the
    stored files (name to content); the files as the call leaves them come
    back with the outcome. *)
Definition analyze_product_image_body (site : Site) (storage : gmap string string)
    (image_file : ImageFile) (product_type : string) (product : option Product)
    : outcome (gmap string pyval) * gmap string string :=
  match image_file with
  | PathString _ => (Raise AttributeError_name, storage)
  | UploadedFile name content =>
      let temp_path :=
        available_name site (dom storage)
          ("temp/analysis_" +:+ stamp site +:+ "_" +:+ name) in
      let storage := <[temp_path := content]> storage in
      match storage_path site temp_path with
      | Raise e => (Raise e, storage)
      | Return full_path =>
          let analyzer := YOLOQualityAnalyzer (runtime site) in
          match analyze_image (site_env site) analyzer full_path product_type with
          | Raise e => (Raise e, storage)
          | Return analysis_result =>
              let storage := delete temp_path storage in
              match product with
              | Some p =>
                  (Return
                     (<["product_context" :=
                          VInfo (<["name" := product_name p]>
                                (<["category" := default "Unknown"%string
                                                         (product_category p)]>
                                (<["expected_quality" :=
                                     default "B"%string (expected_quality_grade p)]>
                                 ∅)))]> analysis_result),
                   storage)
              | None => (Return analysis_result, storage)
              end
          end
      end
  end.

(** [analyze_product_image]: the dictionary returned and the stored files. *)
Definition analyze_product_image (site : Site) (storage : gmap string string)
    (image_file : ImageFile) (product_type : string) (product : option Product)
    : gmap string pyval * gmap string string :=
  match analyze_product_image_body site storage image_file product_type product with
  | (Return result, storage) => (result, storage)
  | (Raise e, storage) => ({[ "error"%string := VStr (exn_message e) ]}, storage)
  end.

(** One entry of the list [batch_analyze_images] returns. *)
Record BatchEntry := {
  image_path : string;
  analysis : gmap string pyval;
  batch_index : nat;
  total_images : nat
}.

Definition batch_analyze_images (site : Site) (image_paths : list string)
    (product_type : string) : list BatchEntry :=
  let analyzer := YOLOQualityAnalyzer (runtime site) in
  imap (fun i image_path =>
          match analyze_image (site_env site) analyzer image_path product_type with
          | Return result =>
              {| image_path := image_path; analysis := result;
                 batch_index := i + 1; total_images := length image_paths |}
          | Raise e =>
              {| image_path := image_path;
                 analysis := {[ "error"%string := VStr (exn_message e) ]};
                 batch_index := i + 1; total_images := length image_paths |}
          end)
       image_paths.

(** [sorted(items, key=key, reverse=True)] for any rows: stable, rows with
    equal keys keep their order. *)
Fixpoint insert_by_desc {A} (key : A -> Q) (x : A) (l : list A) : list A :=
  match l with
  | [] => [x]
  | y :: rest =>
      if Py.ltb (key x) (key y)
      then y :: insert_by_desc key x rest
      else x :: y :: rest
  end.

Definition sorted_by_desc {A} (key : A -> Q) (l : list A) : list A :=
  fold_right (insert_by_desc key) [] l.

(** [d[k] = d.get(k, 0) + 1] on a dictionary kept in insertion order. *)
Fixpoint count_up {K} `{EqDecision K} (k : K) (d : list (K * nat)) : list (K * nat) :=
  match d with
  | [] => [(k, 1%nat)]
  | (k', n) :: rest =>
      if decide (k = k') then (k', (n + 1)%nat) :: rest
      else (k', n) :: count_up k rest
  end.

(** [d.get(k, 0)] on such a dictionary. *)
Fixpoint count_of {K} `{EqDecision K} (k : K) (d : list (K * nat)) : nat :=
  match d with
  | [] => 0%nat
  | (k', n) :: rest => if decide (k = k') then n else count_of k rest
  end.

(** [min(xs)] and [max(xs)] of a list with first element [x]: a later element
    replaces the current one only when strictly smaller (larger). *)
Definition list_min (x : Q) (xs : list Q) : Q :=
  fold_left (fun m y => if Py.ltb y m then y else m) xs x.
Definition list_max (x : Q) (xs : list Q) : Q :=
  fold_left (fun m y => if Py.ltb m y then y else m) xs x.

(** The three accumulators of the loop of [get_quality_insights]. *)
Record Tally := {
  scores : list Q;
  grades : gmap string nat;
  defect_types : list (DefectType * nat)
}.

(** One turn of that loop. The embedding follows numeric scores, string
    grades and lists of defect records, which is what [analyze_image] stores;
    [None] stands for any other value under those keys. *)
Definition tally_result (t : Tally) (result : BatchEntry) : option Tally :=
  match analysis result !! "overall_score" with
  | None => Some t
  | Some (VFloat score) =>
      match
        match analysis result !! "grade" with
        | None => Some "D"%string
        | Some (VStr g) => Some g
        | Some _ => None
        end,
        match analysis result !! "defects" with
        | None => Some []
        | Some (VDefects l) => Some l
        | Some _ => None
        end
      with
      | Some grade, Some defects =>
          Some {| scores := scores t ++ [score];
                  grades := <[grade := (default 0%nat (grades t !! grade) + 1)%nat]>
                              (grades t);
                  defect_types :=
                    fold_left (fun d defect => count_up (defect_type defect) d)
                              defects (defect_types t) |}
      | _, _ => None
      end
  | Some _ => None
  end.

Fixpoint tally_loop (t : Tally) (results : list BatchEntry) : option Tally :=
  match results with
  | [] => Some t
  | result :: rest =>
      match tally_result t result with
      | Some t' => tally_loop t' rest
      | None => None
      end
  end.

(** The dictionary [get_quality_insights] builds when there are scores. *)
Record Report := {
  report_total_images : nat;
  average_score : Q;
  score_std : Q;
  report_min_score : Q;
  report_max_score : Q;
  grade_distribution : gmap string nat;
  common_defects : list (DefectType * nat);
  quality_trend : string;
  report_recommendations : list string
}.

(** What [get_quality_insights] returns: [{}], [{'error': ..}] or a report. *)
Inductive Insights :=
| NoInsights
| InsightsError (message : string)
| InsightsReport (report : Report).

(** [get_quality_insights]; [np_std] is [np.std]. The mean of the scores
    and its rounding are binary64, as is the product [len(scores) * 0.3]. *)
Definition get_quality_insights (np_std : list Q -> Q)
    (analysis_results : list BatchEntry) : option Insights :=
  match analysis_results with
  | [] => Some NoInsights
  | _ =>
      match tally_loop {| scores := []; grades := ∅; defect_types := [] |}
                       analysis_results with
      | None => None
      | Some t =>
          match scores t with
          | [] => Some (InsightsError "No valid analysis results")
          | first :: others =>
              let average_score := F64.round2 (F64.mean (scores t)) in
              let recommendations : list string := [] in
              let recommendations :=
                if Py.ltb average_score 70
                then recommendations ++ ["Overall quality needs improvement";
                                         "Focus on better photography techniques"]%string
                else recommendations in
              let recommendations :=
                if bool_decide (dark_spots ∈ map fst (defect_types t))
                   && Py.ltb (F64.mul (F64.round (of_nat (length (scores t))))
                                      (F64.lit 0.3))
                             (of_nat (count_of dark_spots (defect_types t)))
                then recommendations ++ ["Address product freshness and handling"]%string
                else recommendations in
              Some (InsightsReport
                {| report_total_images := length analysis_results;
                   average_score := average_score;
                   score_std := F64.round2 (np_std (scores t));
                   report_min_score := list_min first others;
                   report_max_score := list_max first others;
                   grade_distribution := grades t;
                   common_defects :=
                     sorted_by_desc (fun item => of_nat (snd item)) (defect_types t);
                   quality_trend :=
                     if (1 <? length (scores t))%nat
                        && Py.ltb first (List.last others first)
                     then "improving" else "stable";
                   report_recommendations := recommendations |})
          end
      end
  end.

(** [_extract_dominant_colors]: [kmeans] is [cv2.kmeans] on the pixels,
    giving the label of each pixel and the cluster centres as bytes, or the
    exception it raises. *)
Definition _extract_dominant_colors
    (kmeans : Image -> nat -> outcome (list nat * list pixel))
    (image : Image) (k : nat) : list (pixel * Q) :=
  match kmeans image k with
  | Raise _ => []
  | Return (labels, centers) =>
      let dominant_colors :=
        imap (fun i color =>
                let percentage :=
                  of_nat (length (List.filter (Nat.eqb i) labels))
                  / of_nat (length labels) * 100 in
                (color, percentage))
             centers in
      sorted_by_desc snd dominant_colors
  end.

(** ** The upload view's reading of the analysis *)

(** [len(x)] of a stored value. *)
Definition py_len (x : pyval) : outcome nat :=
  match x with
  | VFloat _ => Raise (Exception "TypeError" "object of type 'float' has no len()")
  | VStr s => Return (String.length s)
  | VInfo info => Return (size info)
  | VObjects l => Return (length l)
  | VMetrics m => Return (size m)
  | VDefects l => Return (length l)
  | VColor _ => Return 5%nat
  | VSize (inl _) => Return 1%nat
  | VSize (inr _) => Return 8%nat
  | VStrings l => Return (length l)
  end.

(** [analysis_results.get(key, default)]. *)
Definition get_or (analysis_results : gmap string pyval) (key : string)
    (default_value : pyval) : pyval :=
  default default_value (analysis_results !! key).

(** The fields [upload_product_image] passes to [QualityAnalysis.objects.create]
    besides the product and the image. [[]] is the empty list. *)
Record QualityAnalysisFields := {
  qa_status : string;
  qa_overall_score : pyval;
  qa_quality_grade : pyval;
  qa_size_score : pyval;
  qa_color_score : pyval;
  qa_shape_score : pyval;
  qa_surface_score : pyval;
  qa_freshness_score : pyval;
  qa_defects_detected : pyval;
  qa_defect_count : nat;
  qa_bounding_boxes : pyval;
  qa_class_predictions : pyval;
  qa_confidence_scores : pyval;
  qa_estimated_weight : option pyval;
  qa_ripeness_level : pyval;
  qa_processing_time : pyval
}.

Definition quality_analysis_fields (analysis_results : gmap string pyval)
    : outcome QualityAnalysisFields :=
  match py_len (get_or analysis_results "defects_detected" (VStrings [])) with
  | Raise e => Raise e
  | Return defect_count =>
      Return
        {| qa_status := "completed";
           qa_overall_score := get_or analysis_results "overall_score" (VFloat 0.0);
           qa_quality_grade := get_or analysis_results "quality_grade" (VStr "D");
           qa_size_score := get_or analysis_results "size_score" (VFloat 0.0);
           qa_color_score := get_or analysis_results "color_score" (VFloat 0.0);
           qa_shape_score := get_or analysis_results "shape_score" (VFloat 0.0);
           qa_surface_score := get_or analysis_results "surface_score" (VFloat 0.0);
           qa_freshness_score := get_or analysis_results "freshness_score" (VFloat 0.0);
           qa_defects_detected := get_or analysis_results "defects_detected" (VStrings []);
           qa_defect_count := defect_count;
           qa_bounding_boxes := get_or analysis_results "bounding_boxes" (VStrings []);
           qa_class_predictions := get_or analysis_results "class_predictions" (VStrings []);
           qa_confidence_scores := get_or analysis_results "confidence_scores" (VStrings []);
           qa_estimated_weight := analysis_results !! "estimated_weight";
           qa_ripeness_level := get_or analysis_results "ripeness_level" (VStr "");
           qa_processing_time := get_or analysis_results "processing_time" (VFloat 0.0) |}
  end.

(** The analysis step of [upload_product_image]: the service is called with
    the path of the stored image, a string. *)
Definition upload_analysis (site : Site) (storage : gmap string string)
    (image_path : string) : outcome QualityAnalysisFields :=
  let analysis_results :=
    fst (analyze_product_image site storage (PathString image_path) "generic" None) in
  quality_analysis_fields analysis_results.

(** * Vocabulary of the properties, and sample inputs *)

(** The threshold of a row. *)
Definition threshold (row : string * GradeCriteria) : Q := min_score (snd row).

(** A row is met by a score that reaches its threshold. *)
Definition met (score : Q) (row : string * GradeCriteria) : Prop :=
  threshold row <= score.

(** Rows in descending order of threshold. *)
Definition descending (rows : list (string * GradeCriteria)) : Prop :=
  StronglySorted (fun a b => threshold b <= threshold a) rows.

(** The contribution of a metric: its weighted value when the metric is
    present, nothing when it is absent. *)
Definition present (metrics : gmap string Q) (key : string) (weighted : Q -> Q) : Q :=
  match metrics !! key with
  | Some v => weighted v
  | None => 0
  end.

(** The contribution of the detections: a tenth of the mean confidence in
    percent, nothing for an empty list. *)
Definition detection_term (objects : list Detection) : Q :=
  match objects with
  | [] => 0
  | _ => F64.mul (F64.mul (F64.mean (map confidence objects)) 100) (F64.lit 0.1)
  end.

(** A value weighted by a decimal weight. *)
Definition weighted (weight v : Q) : Q := F64.mul v (F64.lit weight).

(** A metric normalised around an optimum: 100 less the distance from the
    optimum times a factor, and no less than 0. *)
Definition normalised (optimum factor v : Q) : Q :=
  Py.max 0 (F64.sub 100 (F64.mul (Py.abs (F64.sub v optimum)) factor)).

(** The weighted sum over the present components, as the specification
    lists them: the binary64 sum, in that order, of the nine contributions,
    an absent one counting 0. *)
Definition weighted_sum (metrics : gmap string Q) (objects : list Detection) : Q :=
  F64.sum
    [ present metrics "sharpness" (weighted 0.1);
      present metrics "brightness" (fun v => weighted 0.1 (normalised 130 2 v));
      present metrics "contrast" (fun v => weighted 0.1 (normalised 65 1.5 v));
      present metrics "lighting_quality" (weighted 0.1);
      present metrics "color_accuracy" (weighted 0.2);
      present metrics "size_appropriateness" (weighted 0.1);
      present metrics "shape_regularity" (weighted 0.1);
      detection_term objects;
      present metrics "background_uniformity" (weighted 0.1) ].



(** The analyzer as constructed when nothing is configured and the detector
    library is missing. *)
Definition plain_analyzer : Analyzer :=
  {| model := PlaceholderModel "placeholder_model";
     confidence_threshold := 0.5;
     QUALITY_GRADES := None |}.

(** An analyzer like [plain_analyzer] with a configured grade table. *)
Definition configured (table : list (string * GradeCriteria)) : Analyzer :=
  {| model := PlaceholderModel "placeholder_model";
     confidence_threshold := 0.5;
     QUALITY_GRADES := Some table |}.



Definition one_row_table : list (string * GradeCriteria) :=
  [ ("A"%string, {| min_score := 85; grade_name := "Premium" |}) ].

Definition three_row_table : list (string * GradeCriteria) :=
  [ ("low"%string, {| min_score := 0; grade_name := "" |});
    ("top"%string, {| min_score := 90; grade_name := "" |});
    ("mid"%string, {| min_score := 40; grade_name := "" |}) ].

(** The relative spacing of binary64 numbers, 2^-52. *)
Definition epsilon : Q := 1 # 4503599627370496.

(** The largest relative error of one rounding, 2^-53, and the factors by
    which [k] roundings in a row can raise or lower a positive number. *)
Definition unit_roundoff : Q := 1 # 9007199254740992.

Fixpoint grow (k : nat) : Q :=
  match k with O => 1 | S k => (1 + unit_roundoff) * grow k end.

Fixpoint shrink (k : nat) : Q :=
  match k with O => 1 | S k => (1 - unit_roundoff) * shrink k end.

(** A bound on the relative error of a NumPy mean, 2^-45. *)
Definition slack : Q := 1 # 35184372088832.

(** Metrics with three components of the score and a noise level, and the
    float next above 28. *)
Definition sharp_metrics (noise_level : Q) : gmap string Q :=
  <["sharpness" := 41.25]> (<["lighting_quality" := F64.lit 76.7]>
  (<["color_accuracy" := 100]> (<["noise_level" := noise_level]> ∅))).

Definition above_28 : Q := 28 + (1 # 281474976710656).

(** The metrics of a dark, noisy photograph. *)
Definition noisy_metrics (noise_level : Q) : gmap string Q :=
  <["sharpness" := 0]> (<["brightness" := 0]> (<["contrast" := 0]>
  (<["saturation" := 0]> (<["noise_level" := noise_level]>
  (<["focus_quality" := 0]> (<["lighting_quality" := 0]>
  (<["background_uniformity" := 0]> ∅))))))).

(** What the specification asks of the grade of a score under a table: the
    table, put in descending order of minimum score, reads
    [before ++ (grade, criteria) :: after] where the score meets the
    minimum of [criteria] and of no row of [before]. *)
Definition first_met_descending (rows : list (string * GradeCriteria))
    (score : Q) (grade : string) : Prop :=
  exists ordered before criteria after,
    ordered ≡ₚ rows /\ descending ordered
    /\ ordered = before ++ (grade, criteria) :: after
    /\ Forall (fun row => ~ met score row) before
    /\ met score (grade, criteria).

(** A white 16 x 16 image: no edges, no dark region, a single histogram
    bucket. *)
Definition white_image : Image :=
  {| gray := replicate 256 255%Z;
     hsv := replicate 256 (0, 0, 255)%Z;
     lab := replicate 256 (255, 128, 128)%Z;
     laplacian_var := 0;
     gaussian_blur := replicate 256 255%Z;
     sobel_x := replicate 256 0;
     sobel_y := replicate 256 0;
     gray_hist := replicate 255 0 ++ [256];
     background_count := 256;
     background_std_mean := 0;
     edge_contours := [];
     dark_contour_areas := [];
     hue_std := 0;
     texture_energy := 1 |}.

(** A contour of 6000 square pixels. *)
Definition round_contour : Contour :=
  {| contourArea := 6000;
     arcLength := 290;
     boundingRect := (20, 20, 90, 88)%Z;
     minEnclosingCircle := (65, 64, 46);
     hullArea := 6100;
     m00 := 6000; m10 := 390000; m01 := 384000 |}.

(** An image in which edge detection finds the given contours. *)
Definition with_contours (image : Image) (contours : list Contour) : Image :=
  {| gray := gray image; hsv := hsv image; lab := lab image;
     laplacian_var := laplacian_var image;
     gaussian_blur := gaussian_blur image;
     sobel_x := sobel_x image; sobel_y := sobel_y image;
     gray_hist := gray_hist image;
     background_count := background_count image;
     background_std_mean := background_std_mean image;
     edge_contours := contours;
     dark_contour_areas := dark_contour_areas image;
     hue_std := hue_std image;
     texture_energy := texture_energy image |}.

(** The number of dark contours the detector counts. *)
Definition significant_spots (image : Image) : nat :=
  length (List.filter (Py.ltb 100) (dark_contour_areas image)).

(** The severity each detector assigns. *)
Definition expected_severity (image : Image) (t : DefectType) : Severity :=
  match t with
  | dark_spots => if (5 <? significant_spots image)%nat then high else medium
  | color_inconsistency => medium
  | surface_blemishes =>
      if Py.ltb 15 (blemish_percentage image) then high else medium
  | texture_irregularity => low
  end.

(** What OpenCV and NumPy guarantee of the views of a decoded image: the
    channels, also of the blurred image, are bytes, the array is not empty,
    variances and deviations are not negative, and the histogram has 256
    non-negative buckets. *)
Record wf_image (image : Image) : Prop := {
  wf_gray : gray image <> [] /\ Forall (fun x => (0 <= x <= 255)%Z) (gray image);
  wf_hsv : hsv image <> []
           /\ Forall (fun p : pixel => (0 <= snd (fst p) <= 255)%Z) (hsv image);
  wf_laplacian : 0 <= laplacian_var image;
  wf_blurred : Forall (fun x => (0 <= x <= 255)%Z) (gaussian_blur image);
  wf_hist : length (gray_hist image) = 256%nat
            /\ Forall (fun x => 0 <= x) (gray_hist image);
  wf_background : 0 <= background_std_mean image
}.

(** The metrics that are scores out of 100, and those kept on the byte scale. *)
Definition percent_metrics : list string :=
  ["sharpness"; "lighting_quality"; "background_uniformity";
   "color_accuracy"; "size_appropriateness"; "shape_regularity"]%string.
Definition byte_metrics : list string :=
  ["brightness"; "contrast"; "saturation"; "noise_level"]%string.

(** The range the code keeps a metric in. *)
Definition in_metric_range (key : string) (v : Q) : Prop :=
  (key ∈ percent_metrics /\ 0 <= v <= 100)
  \/ (key ∈ byte_metrics /\ 0 <= v <= 255)
  \/ (key = "focus_quality"%string /\ 0 <= v).

(** An environment in which every file decodes to the given image (or none
    does) and the libraries do not fail. *)
Definition plain_colors : ColorAnalysis :=
  {| hsv_analysis := ∅; lab_analysis := ∅; color_distribution := ∅;
     dominant_colors := [((255, 255, 255)%Z, 100)];
     color_complexity := 0 |}.

Definition plain_env (decoded : option Image) : Env :=
  {| imread := fun _ => decoded;
     _get_image_info := fun _ => ∅;
     cv2_error := fun _ => None;
     _advanced_color_analysis := fun _ _ => Return plain_colors;
     now := "2024-01-01T00:00:00" |}.

(** A detection at or above the threshold. *)
Definition confident (threshold : Q) (d : Detection) : Prop :=
  threshold <= confidence d.

(** A loaded detector that reports two boxes, one of them weak. *)
Definition two_box_model : Model :=
  YoloModel
    (fun _ => Return [ {| boxes := Some [ {| box_conf := 0.9;
                                             box_xyxy := [10; 20; 110; 220];
                                             box_cls := 47 |};
                                          {| box_conf := 0.3;
                                             box_xyxy := [0; 0; 50; 50];
                                             box_cls := 47 |} ] |} ])
    {[ 47%Z := "apple"%string ]}.

Definition loaded_analyzer : Analyzer :=
  {| model := two_box_model; confidence_threshold := 0.5; QUALITY_GRADES := None |}.

(** The placeholder analyzer with a threshold above the simulated confidence. *)
Definition strict_analyzer : Analyzer :=
  {| model := PlaceholderModel "placeholder_model";
     confidence_threshold := 0.9;
     QUALITY_GRADES := None |}.

(** The result fields of a successful analysis. *)
Definition result_fields : list string :=
  ["overall_score"; "grade"; "quality_metrics"; "defects"]%string.

(** A dictionary with an error entry and none of the result fields. *)
Definition error_only (result : gmap string pyval) : Prop :=
  is_Some (result !! "error")
  /\ Forall (fun key => result !! key = None) result_fields.

(** An environment in which the image decodes and a library call then fails. *)
Definition failing_env : Env :=
  {| imread := fun _ => Some white_image;
     _get_image_info := fun _ => ∅;
     cv2_error := fun _ => Some (Exception "cv2.error" "Assertion failed");
     _advanced_color_analysis := fun _ _ => Return plain_colors;
     now := "2024-01-01T00:00:00" |}.

(** The metrics that enter the weighted sum with a fixed positive weight. *)
Definition linear_metrics : list string :=
  ["sharpness"; "lighting_quality"; "color_accuracy"; "size_appropriateness";
   "shape_regularity"; "background_uniformity"]%string.

(** The two lowest grades of the built-in table. *)
Definition low_letters : list string := ["C"; "D"]%string.

(** The number of pixels inside the ideal colour range of a standard. *)
Definition ideal_count (image : Image) (standards : ProductStandard) : nat :=
  length (List.filter (inRange (fst (ideal_color_range standards))
                               (snd (ideal_color_range standards)))
                      (hsv image)).

(** The three tips every recommendation list ends with. *)
Definition generic_tips : list string :=
  ["Center the product in the frame";
   "Ensure the entire product is visible";
   "Take multiple angles for better representation"]%string.

(** A white image in which one contour was found. *)
Definition apple_image : Image := with_contours white_image [round_contour].

(** The boxes of all results, in order. *)
Definition all_boxes (results : list YoloResult) : list Box :=
  concat (map (fun r => default [] (boxes r)) results).

(** The detection the loop builds from a box, when the class is known and
    the box has its four coordinates. *)
Definition detection_of (names : gmap Z string) (box : Box) : option Detection :=
  match names !! box_cls box,
        box_xyxy box !! 0%nat, box_xyxy box !! 2%nat,
        box_xyxy box !! 1%nat, box_xyxy box !! 3%nat with
  | Some class_name, Some b0, Some b2, Some b1, Some b3 =>
      Some {| det_class := class_name; confidence := box_conf box;
              bbox := box_xyxy box;
              center := [(b0 + b2) / 2; (b1 + b3) / 2] |}
  | _, _, _, _, _ => None
  end.

(** The detections of the boxes that pass the threshold, skipping the boxes
    no detection can be built from. *)
Definition kept (names : gmap Z string) (threshold : Q) (bs : list Box)
    : list Detection :=
  omap (detection_of names)
       (List.filter (fun box => Py.geb (box_conf box) threshold) bs).

(** A white image with three dark contours, one of them below the noise
    filter. *)
Definition spotted_image : Image :=
  {| gray := gray white_image; hsv := hsv white_image; lab := lab white_image;
     laplacian_var := 0; gaussian_blur := gaussian_blur white_image;
     sobel_x := sobel_x white_image; sobel_y := sobel_y white_image;
     gray_hist := gray_hist white_image;
     background_count := 256; background_std_mean := 0;
     edge_contours := [];
     dark_contour_areas := [400; 12; 150.5];
     hue_std := 0; texture_energy := 1 |}.

(** A box from which the loop can build its detection if it passes the
    threshold: its class id has a name and it has four coordinates. *)
Definition buildable (names : gmap Z string) (threshold : Q) (box : Box) : Prop :=
  Py.geb (box_conf box) threshold = true -> is_Some (detection_of names box).

(** A site without configuration and without the detector library, on which
    every file decodes to the given image (or none does); the storage keeps
    files under the name asked for. *)
Definition plain_site (decoded : option Image) : Site :=
  {| site_env := plain_env decoded;
     runtime := {| settings := {| YOLO_CONFIDENCE_THRESHOLD := None;
                                  YOLO_MODEL_PATH := None;
                                  GRADES_SETTING := None |};
                   ultralytics := None;
                   path_exists := fun _ => false |};
     stamp := "20240101_000000";
     available_name := fun _ name => name;
     storage_path := fun name => Return ("/media/" +:+ name) |}.

(** The record every field of which is the default of its [get]. *)
Definition default_fields : QualityAnalysisFields :=
  {| qa_status := "completed";
     qa_overall_score := VFloat 0.0;
     qa_quality_grade := VStr "D";
     qa_size_score := VFloat 0.0;
     qa_color_score := VFloat 0.0;
     qa_shape_score := VFloat 0.0;
     qa_surface_score := VFloat 0.0;
     qa_freshness_score := VFloat 0.0;
     qa_defects_detected := VStrings [];
     qa_defect_count := 0;
     qa_bounding_boxes := VStrings [];
     qa_class_predictions := VStrings [];
     qa_confidence_scores := VStrings [];
     qa_estimated_weight := None;
     qa_ripeness_level := VStr "";
     qa_processing_time := VFloat 0.0 |}.

(** The fields of a record with the overall score replaced. *)
Definition with_overall_score (fields : QualityAnalysisFields) (score : pyval)
    : QualityAnalysisFields :=
  {| qa_status := qa_status fields;
     qa_overall_score := score;
     qa_quality_grade := qa_quality_grade fields;
     qa_size_score := qa_size_score fields;
     qa_color_score := qa_color_score fields;
     qa_shape_score := qa_shape_score fields;
     qa_surface_score := qa_surface_score fields;
     qa_freshness_score := qa_freshness_score fields;
     qa_defects_detected := qa_defects_detected fields;
     qa_defect_count := qa_defect_count fields;
     qa_bounding_boxes := qa_bounding_boxes fields;
     qa_class_predictions := qa_class_predictions fields;
     qa_confidence_scores := qa_confidence_scores fields;
     qa_estimated_weight := qa_estimated_weight fields;
     qa_ripeness_level := qa_ripeness_level fields;
     qa_processing_time := qa_processing_time fields |}.

(** The context dictionary attached for a product. *)
Definition product_context (p : Product) : pyval :=
  VInfo (<["name" := product_name p]>
        (<["category" := default "Unknown"%string (product_category p)]>
        (<["expected_quality" := default "B"%string (expected_quality_grade p)]>
         ∅))).

(** A product without category attribute and expected grade. *)
Definition bare_product : Product :=
  {| product_name := "Gala"; product_category := None;
     expected_quality_grade := None |}.

(** Whether an entry counts for the insights: its analysis has a score. *)
Definition scored (entry : BatchEntry) : bool :=
  bool_decide (is_Some (analysis entry !! "overall_score")).

(** The sum of the counts of a grade distribution. *)
Definition total_count (distribution : gmap string nat) : nat :=
  map_fold (fun _ n acc => (n + acc)%nat) 0%nat distribution.

(** Rows in descending order of a key. *)
Definition descending_by {A} (key : A -> Q) (rows : list A) : Prop :=
  StronglySorted (fun a b => key b <= key a) rows.

(** An entry as [batch_analyze_images] makes them: its analysis has no score,
    or it has a score in [0,100], a grade and a list of defects with at most
    one record per type. *)
Definition entry_ok (entry : BatchEntry) : Prop :=
  analysis entry !! "overall_score" = None
  \/ exists (score : Q) (grade : string) (defects : list DefectRecord),
       analysis entry !! "overall_score" = Some (VFloat score)
       /\ 0 <= score <= 100
       /\ analysis entry !! "grade" = Some (VStr grade)
       /\ analysis entry !! "defects" = Some (VDefects defects)
       /\ NoDup (map defect_type defects).

(** An entry the insights can read: its analysis has no score, or it has a
    numeric score in [0,100] and, where it has a grade or defects, the grade
    is a string and the defects are a list of records. *)
Definition readable_entry (entry : BatchEntry) : Prop :=
  analysis entry !! "overall_score" = None
  \/ (exists score : Q,
        analysis entry !! "overall_score" = Some (VFloat score)
        /\ 0 <= score <= 100)
     /\ (analysis entry !! "grade" = None
         \/ exists grade : string, analysis entry !! "grade" = Some (VStr grade))
     /\ (analysis entry !! "defects" = None
         \/ exists defects : list DefectRecord,
              analysis entry !! "defects" = Some (VDefects defects)).

(** What the accumulators of [get_quality_insights] satisfy after [n] scored
    entries. *)
Definition tally_inv (t : Tally) (n : nat) : Prop :=
  Forall (fun s => 0 <= s <= 100) (scores t)
  /\ length (scores t) = n
  /\ total_count (grades t) = n
  /\ NoDup (map fst (defect_types t)).

(** Two entries: a failed analysis and a scored one. *)
Definition failed_entry : BatchEntry :=
  {| image_path := "a.jpg";
     analysis := {[ "error"%string := VStr "Could not load image" ]};
     batch_index := 1; total_images := 2 |}.

(** An entry with a score and neither grade nor defects. *)
Definition bare_entry : BatchEntry :=
  {| image_path := "c.jpg";
     analysis := {[ "overall_score"%string := VFloat 41.25 ]};
     batch_index := 3; total_images := 3 |}.

Definition scored_entry : BatchEntry :=
  {| image_path := "b.jpg";
     analysis := <["overall_score" := VFloat 72.5]>
                 (<["grade" := VStr "B"]>
                 (<["defects" := VDefects (_detect_dark_spots spotted_image)]> ∅));
     batch_index := 2; total_images := 2 |}.

(** A clustering of four pixels into two colours. *)
Definition two_clusters : Image -> nat -> outcome (list nat * list pixel) :=
  fun _ _ => Return ([0; 1; 1; 1]%nat, [(250, 250, 250)%Z; (20, 30, 200)%Z]).

(** * Properties *)

(** ** Facts about the numeric built-ins *)

Module PyFacts.

Import Py.

Lemma ltb_lt a b : ltb a b = true <-> a < b.
Proof.
  unfold ltb. rewrite negb_true_iff, <- not_true_iff_false, Qle_bool_iff.
  split; [apply Qnot_le_lt | apply Qlt_not_le].
Qed.

Lemma ltb_ge a b : ltb a b = false <-> b <= a.
Proof.
  unfold ltb. rewrite negb_false_iff. apply Qle_bool_iff.
Qed.

Lemma leb_le a b : leb a b = true <-> a <= b.
Proof. apply Qle_bool_iff. Qed.

Lemma geb_ge a b : geb a b = true <-> b <= a.
Proof. apply Qle_bool_iff. Qed.

Lemma max_spec a b : (a < b /\ max a b = b) \/ (b <= a /\ max a b = a).
Proof.
  unfold max. destruct (ltb a b) eqn:E.
  - left. split; [by apply ltb_lt | done].
  - right. split; [by apply ltb_ge | done].
Qed.

Lemma min_spec a b : (b < a /\ min a b = b) \/ (a <= b /\ min a b = a).
Proof.
  unfold min. destruct (ltb b a) eqn:E.
  - left. split; [by apply ltb_lt | done].
  - right. split; [by apply ltb_ge | done].
Qed.

Lemma max_lower a b : a <= max a b.
Proof. destruct (max_spec a b) as [[? ->]|[? ->]]; lra. Qed.

Lemma max_upper a b c : a <= c -> b <= c -> max a b <= c.
Proof. destruct (max_spec a b) as [[? ->]|[? ->]]; lra. Qed.

Lemma min_upper a b : min a b <= a.
Proof. destruct (min_spec a b) as [[? ->]|[? ->]]; lra. Qed.

Lemma min_lower a b c : c <= a -> c <= b -> c <= min a b.
Proof. destruct (min_spec a b) as [[? ->]|[? ->]]; lra. Qed.

Lemma clamp_range lo hi x : lo <= hi -> lo <= max lo (min hi x) <= hi.
Proof.
  intros H. split; [apply max_lower|].
  apply max_upper; [done | apply min_upper].
Qed.

(** Division by a literal is multiplication by its inverse, which is what
    the linear-arithmetic prover understands. *)
Ltac div_const :=
  unfold Qdiv in *;
  repeat match goal with
  | |- context [Qinv (Qmake ?n ?d)] =>
      let v := eval vm_compute in (Qinv (Qmake n d)) in
      change (Qinv (Qmake n d)) with v
  | H : context [Qinv (Qmake ?n ?d)] |- _ =>
      let v := eval vm_compute in (Qinv (Qmake n d)) in
      change (Qinv (Qmake n d)) with v in H
  end.

Ltac qsolve := div_const; lra.

(** *** Rounding *)

Lemma round_half_even_cases x :
  let f := Qfloor x in
  (x - inject_Z f < 1 # 2 /\ round_half_even x = f) \/
  (1 # 2 < x - inject_Z f /\ round_half_even x = (f + 1)%Z) \/
  (x - inject_Z f == 1 # 2 /\
   (round_half_even x = f \/ round_half_even x = (f + 1)%Z)).
Proof.
  intros f. unfold round_half_even. fold f.
  destruct (Qcompare (x - inject_Z f) (1 # 2)) eqn:E.
  - right; right. apply (proj2 (Qeq_alt _ _)) in E. split; [done|].
    destruct (Z.even f); auto.
  - left. by apply (proj2 (Qlt_alt _ _)) in E.
  - right; left. by apply (proj2 (Qgt_alt _ _)) in E.
Qed.

Lemma floor_bounds x :
  inject_Z (Qfloor x) <= x /\ x < inject_Z (Qfloor x) + 1.
Proof.
  split; [apply Qfloor_le|].
  pose proof (Qlt_floor x) as H.
  rewrite inject_Z_plus in H. exact H.
Qed.

Lemma round_half_even_int n : round_half_even (inject_Z n) = n.
Proof.
  unfold round_half_even. rewrite Qfloor_Z.
  assert (E : Qcompare (inject_Z n - inject_Z n) (1 # 2) = Lt).
  { apply (proj1 (Qlt_alt _ _)). lra. }
  by rewrite E.
Qed.

Lemma round_half_even_mono x y :
  x <= y -> (round_half_even x <= round_half_even y)%Z.
Proof.
  intros Hxy.
  pose proof (Qfloor_resp_le _ _ Hxy) as Hfg.
  pose proof (floor_bounds x) as [Hx1 Hx2].
  pose proof (floor_bounds y) as [Hy1 Hy2].
  destruct (Z.eq_dec (Qfloor x) (Qfloor y)) as [Heq|Hne].
  - pose proof (round_half_even_cases x) as Cx.
    pose proof (round_half_even_cases y) as Cy.
    cbv zeta in Cx, Cy. rewrite <- Heq in Cy, Hy1, Hy2.
    destruct Cx as [[Hx Rx]|[[Hx Rx]|[Hx Rx]]];
      destruct Cy as [[Hy Ry]|[[Hy Ry]|[Hy Ry]]].
    + lia.
    + lia.
    + destruct Ry; lia.
    + lra.
    + lia.
    + lra.
    + lra.
    + destruct Rx; lia.
    + unfold round_half_even. rewrite <- Heq.
      assert (E1 : Qcompare (x - inject_Z (Qfloor x)) (1 # 2) = Eq)
        by (apply (proj1 (Qeq_alt _ _)); lra).
      assert (E2 : Qcompare (y - inject_Z (Qfloor x)) (1 # 2) = Eq)
        by (apply (proj1 (Qeq_alt _ _)); lra).
      rewrite E1, E2. lia.
  - assert (Hlt : (Qfloor x + 1 <= Qfloor y)%Z) by lia.
    assert (Hrx : (round_half_even x <= Qfloor x + 1)%Z).
    { destruct (round_half_even_cases x) as [[_ ->]|[[_ ->]|[_ [-> | ->]]]]; lia. }
    assert (Hry : (Qfloor y <= round_half_even y)%Z).
    { destruct (round_half_even_cases y) as [[_ ->]|[[_ ->]|[_ [-> | ->]]]]; lia. }
    lia.
Qed.

Lemma round2_mono x y : x <= y -> round2 x <= round2 y.
Proof.
  intros H. unfold round2.
  assert (Hm : (round_half_even (x * 100) <= round_half_even (y * 100))%Z).
  { apply round_half_even_mono. lra. }
  rewrite Zle_Qle in Hm. qsolve.
Qed.

Lemma round2_int_hundredths n : round2 (inject_Z n / 100) == inject_Z n / 100.
Proof.
  unfold round2.
  assert (E : inject_Z n / 100 * 100 == inject_Z n) by (field; done).
  assert (R : round_half_even (inject_Z n / 100 * 100) = n).
  { rewrite <- (round_half_even_int n) at 2.
    clear - E. unfold round_half_even.
    rewrite (Qfloor_comp _ _ E).
    assert (C : Qcompare (inject_Z n / 100 * 100 - inject_Z (Qfloor (inject_Z n)))
                         (1 # 2)
              = Qcompare (inject_Z n - inject_Z (Qfloor (inject_Z n))) (1 # 2)).
    { apply Qcompare_comp; [by rewrite E | done]. }
    by rewrite C. }
  by rewrite R.
Qed.

(** Rounding moves a value by at most half a hundredth. *)
Lemma round_half_even_error x :
  x - (1 # 2) <= inject_Z (round_half_even x) <= x + (1 # 2).
Proof.
  pose proof (floor_bounds x) as [H1 H2].
  destruct (round_half_even_cases x) as [[Hx ->]|[[Hx ->]|[Hx [-> | ->]]]];
    rewrite ?inject_Z_plus; change (inject_Z 1) with 1; lra.
Qed.

Lemma round2_error x : x - 0.005 <= round2 x <= x + 0.005.
Proof.
  unfold round2.
  pose proof (round_half_even_error (x * 100)) as [H1 H2]. qsolve.
Qed.

(** Rounding a rounded value changes nothing. *)
Lemma round2_idempotent x : round2 (round2 x) == round2 x.
Proof. unfold round2 at 2 3. apply round2_int_hundredths. Qed.

Lemma round2_range x : 0 <= x <= 100 -> 0 <= round2 x <= 100.
Proof.
  intros [H0 H1]. split.
  - pose proof (round2_mono 0 x H0) as H.
    assert (E : round2 0 == 0) by reflexivity.
    by rewrite E in H.
  - pose proof (round2_mono x 100 H1) as H.
    assert (E : round2 100 == 100) by reflexivity.
    by rewrite E in H.
Qed.

End PyFacts.

(** ** Facts about binary64 arithmetic *)

Module F64Facts.

Import F64.

Lemma pow2_pos (e : Z) : 0 < 2 ^ e.
Proof. apply Qpower_0_lt. lra. Qed.

Lemma pow2_ne (e : Z) : ~ 2 ^ e == 0.
Proof. pose proof (pow2_pos e). lra. Qed.

Lemma pow2_succ (e : Z) : 2 ^ (e + 1) == 2 * 2 ^ e.
Proof. rewrite Qpower_plus by lra. change (2 ^ 1) with 2. lra. Qed.

Lemma pow2_Z (n : Z) : (0 <= n)%Z -> 2 ^ n == inject_Z (2 ^ n).
Proof. intros H. by rewrite Zpower_Qpower. Qed.

Lemma pow2_le (n m : Z) : (n <= m)%Z -> 2 ^ n <= 2 ^ m.
Proof. intros H. apply Qpower_le_compat_l; [done | lra]. Qed.

Lemma pow2_lt (n m : Z) : (n < m)%Z -> 2 ^ n < 2 ^ m.
Proof. intros H. apply Qpower_lt_compat_l; [done | lra]. Qed.

Lemma Qmake_div (n : Z) (d : positive) : n # d == inject_Z n / inject_Z (Zpos d).
Proof. apply Qmake_Qdiv. Qed.

(** The defining bounds of [ilog2]. *)
Lemma ilog2_spec (x : Q) : 0 < x -> 2 ^ ilog2 x <= x < 2 ^ (ilog2 x + 1).
Proof.
  intros Hx. destruct x as [n d]. unfold ilog2. cbn [Qnum Qden].
  assert (Hn : (0 < n)%Z) by (unfold Qlt in Hx; simpl in Hx; lia).
  set (a := Z.log2 n). set (b := Z.log2 (Zpos d)).
  destruct (Z.log2_spec n Hn) as [Ha1 Ha2]. fold a in Ha1, Ha2.
  destruct (Z.log2_spec (Zpos d) eq_refl) as [Hb1 Hb2]. fold b in Hb1, Hb2.
  assert (Ha0 : (0 <= a)%Z) by apply Z.log2_nonneg.
  assert (Hb0 : (0 <= b)%Z) by apply Z.log2_nonneg.
  rewrite <- Z.add_1_r in Ha2, Hb2.
  rewrite Zle_Qle, <- pow2_Z in Ha1, Hb1 by done.
  rewrite Zlt_Qlt, <- pow2_Z in Ha2, Hb2 by lia.
  rewrite pow2_succ in Ha2, Hb2.
  assert (E : n # d == inject_Z n / inject_Z (Zpos d)) by apply Qmake_div.
  set (N := inject_Z n) in *. set (D := inject_Z (Zpos d)) in *.
  pose proof (pow2_pos a) as Pa. pose proof (pow2_pos b) as Pb.
  assert (HD : 0 < D) by lra.
  assert (Ek : 2 ^ (a - b) == 2 ^ a / 2 ^ b) by (apply Qpower_minus; lra).
  assert (Lo : 2 ^ (a - b - 1) < n # d).
  { rewrite E. apply Qlt_shift_div_l; [done|].
    replace (a - b - 1)%Z with (a - (b + 1))%Z by lia.
    rewrite Qpower_minus, pow2_succ by lra.
    assert (H : 2 ^ a / (2 * 2 ^ b) * D < 2 ^ a).
    { assert (Hq' : D / (2 * 2 ^ b) < 1) by (apply Qlt_shift_div_r; lra).
      assert (Eq : 2 ^ a / (2 * 2 ^ b) * D == 2 ^ a * (D / (2 * 2 ^ b)))
        by (field; lra).
      rewrite Eq. nra. }
    lra. }
  assert (Hi : n # d < 2 ^ (a - b + 1)).
  { rewrite E. apply Qlt_shift_div_r; [done|].
    rewrite pow2_succ, Ek.
    assert (H : 1 <= D / 2 ^ b) by (apply Qle_shift_div_l; lra).
    assert (Eq : 2 * (2 ^ a / 2 ^ b) * D == 2 * 2 ^ a * (D / 2 ^ b))
      by (field; lra).
    rewrite Eq. nra. }
  destruct (Qle_bool (2 ^ (a - b)) (n # d)) eqn:T.
  - apply Qle_bool_iff in T. split; done.
  - assert (T' : n # d < 2 ^ (a - b)).
    { apply Qnot_le_lt. intros H. apply Qle_bool_iff in H. congruence. }
    replace (a - b - 1 + 1)%Z with (a - b)%Z by lia. split; [lra | done].
Qed.

Lemma ilog2_unique (x : Q) (k : Z) :
  2 ^ k <= x < 2 ^ (k + 1) -> ilog2 x = k.
Proof.
  intros [H1 H2].
  assert (Hx : 0 < x) by (pose proof (pow2_pos k); lra).
  destruct (ilog2_spec x Hx) as [S1 S2].
  assert (L1 : (k < ilog2 x + 1)%Z).
  { apply Qpower_lt_compat_l_inv with (q := 2); lra. }
  assert (L2 : (ilog2 x < k + 1)%Z).
  { apply Qpower_lt_compat_l_inv with (q := 2); lra. }
  lia.
Qed.

Lemma ilog2_comp (x y : Q) : 0 < x -> x == y -> ilog2 x = ilog2 y.
Proof.
  intros Hx E. symmetry. apply ilog2_unique. rewrite <- E. by apply ilog2_spec.
Qed.

Lemma ilog2_mono (x y : Q) : 0 < x -> x <= y -> (ilog2 x <= ilog2 y)%Z.
Proof.
  intros Hx Hxy.
  destruct (ilog2_spec x Hx) as [S1 S2].
  destruct (ilog2_spec y) as [T1 T2]; [lra|].
  assert (L : (ilog2 x < ilog2 y + 1)%Z).
  { apply Qpower_lt_compat_l_inv with (q := 2); lra. }
  lia.
Qed.

(** The scaled significand lies in [2^52, 2^53). *)
Lemma scaled_bounds (x : Q) :
  0 < x -> 2 ^ 52 <= x / 2 ^ (ilog2 x - 52) < 2 ^ 53.
Proof.
  intros Hx. destruct (ilog2_spec x Hx) as [S1 S2].
  pose proof (pow2_pos (ilog2 x - 52)) as P.
  assert (E1 : 2 ^ ilog2 x == 2 ^ 52 * 2 ^ (ilog2 x - 52)).
  { rewrite <- Qpower_plus by lra. by replace (52 + (ilog2 x - 52))%Z with (ilog2 x) by lia. }
  assert (E2 : 2 ^ (ilog2 x + 1) == 2 ^ 53 * 2 ^ (ilog2 x - 52)).
  { rewrite <- Qpower_plus by lra. by replace (53 + (ilog2 x - 52))%Z with (ilog2 x + 1)%Z by lia. }
  split.
  - apply Qle_shift_div_l; [done | lra].
  - apply Qlt_shift_div_r; [done | lra].
Qed.

Lemma rhe_comp (x y : Q) : x == y -> Py.round_half_even x = Py.round_half_even y.
Proof.
  intros E. apply Z.le_antisymm; apply PyFacts.round_half_even_mono; lra.
Qed.

Lemma significand_bounds (x : Q) :
  0 < x ->
  (2 ^ 52 <= Py.round_half_even (x / 2 ^ (ilog2 x - 52)) <= 2 ^ 53)%Z.
Proof.
  intros Hx. destruct (scaled_bounds x Hx) as [H1 H2].
  rewrite (pow2_Z 52) in H1 by lia. rewrite (pow2_Z 53) in H2 by lia.
  split.
  - rewrite <- (PyFacts.round_half_even_int (2 ^ 52)).
    by apply PyFacts.round_half_even_mono.
  - rewrite <- (PyFacts.round_half_even_int (2 ^ 53)).
    apply PyFacts.round_half_even_mono. lra.
Qed.

Lemma round_pos_bounds (x : Q) :
  0 < x -> 2 ^ ilog2 x <= round_pos x <= 2 ^ (ilog2 x + 1).
Proof.
  intros Hx. unfold round_pos. cbv zeta.
  destruct (significand_bounds x Hx) as [H1 H2].
  rewrite Zle_Qle, <- (pow2_Z 52) in H1 by lia.
  rewrite Zle_Qle, <- (pow2_Z 53) in H2 by lia.
  pose proof (pow2_pos (ilog2 x - 52)) as P.
  assert (E1 : 2 ^ ilog2 x == 2 ^ 52 * 2 ^ (ilog2 x - 52)).
  { rewrite <- Qpower_plus by lra. by replace (52 + (ilog2 x - 52))%Z with (ilog2 x) by lia. }
  assert (E2 : 2 ^ (ilog2 x + 1) == 2 ^ 53 * 2 ^ (ilog2 x - 52)).
  { rewrite <- Qpower_plus by lra. by replace (53 + (ilog2 x - 52))%Z with (ilog2 x + 1)%Z by lia. }
  rewrite E1, E2. split; apply Qmult_le_compat_r; lra.
Qed.

Lemma round_pos_pos (x : Q) : 0 < x -> 0 < round_pos x.
Proof.
  intros Hx. destruct (round_pos_bounds x Hx) as [H _].
  pose proof (pow2_pos (ilog2 x)). lra.
Qed.

Lemma round_pos_comp (x y : Q) : 0 < x -> x == y -> round_pos x == round_pos y.
Proof.
  intros Hx E. unfold round_pos. cbv zeta.
  rewrite <- (ilog2_comp x y Hx E).
  rewrite (rhe_comp (x / _) (y / 2 ^ (ilog2 x - 52))); [done|].
  unfold Qdiv. by apply Qmult_comp.
Qed.

Lemma round_pos_mono (x y : Q) : 0 < x -> x <= y -> round_pos x <= round_pos y.
Proof.
  intros Hx Hxy. assert (Hy : 0 < y) by lra.
  pose proof (ilog2_mono x y Hx Hxy) as Hl.
  destruct (Z.eq_dec (ilog2 x) (ilog2 y)) as [E|N].
  - unfold round_pos. cbv zeta. rewrite <- E.
    pose proof (pow2_pos (ilog2 x - 52)) as P.
    apply Qmult_le_compat_r; [|lra].
    rewrite <- Zle_Qle. apply PyFacts.round_half_even_mono.
    apply Qmult_le_compat_r; [done|]. apply Qlt_le_weak, Qinv_lt_0_compat, P.
  - destruct (round_pos_bounds x Hx) as [_ Hx2].
    destruct (round_pos_bounds y Hy) as [Hy1 _].
    assert (2 ^ (ilog2 x + 1) <= 2 ^ ilog2 y) by (apply pow2_le; lia).
    lra.
Qed.

(** *** The rounding function *)

Lemma round_pos_eq (x : Q) : 0 < x -> round x = round_pos x.
Proof.
  intros H. unfold round. apply (proj1 (Qgt_alt _ _)) in H. by rewrite H.
Qed.

Lemma round_neg_eq (x : Q) : x < 0 -> round x = - round_pos (- x).
Proof.
  intros H. unfold round. apply (proj1 (Qlt_alt _ _)) in H. by rewrite H.
Qed.

Lemma round_zero_eq (x : Q) : x == 0 -> round x = 0.
Proof.
  intros H. unfold round. apply (proj1 (Qeq_alt _ _)) in H. by rewrite H.
Qed.

Lemma round_comp : Proper (Qeq ==> Qeq) round.
Proof.
  intros x y E.
  destruct (Q_dec x 0) as [[Hx|Hx]|Hx].
  - rewrite (round_neg_eq x), (round_neg_eq y) by lra.
    apply Qopp_comp, round_pos_comp; lra.
  - rewrite (round_pos_eq x), (round_pos_eq y) by lra.
    by apply round_pos_comp.
  - rewrite (round_zero_eq x), (round_zero_eq y) by lra. done.
Qed.

#[global] Existing Instance round_comp.

Lemma round_opp (x : Q) : round (- x) == - round x.
Proof.
  destruct (Q_dec x 0) as [[Hx|Hx]|Hx].
  - rewrite (round_pos_eq (- x)), (round_neg_eq x) by lra. lra.
  - rewrite (round_neg_eq (- x)), (round_pos_eq x) by lra.
    assert (E : - - x == x) by lra.
    rewrite (round_pos_comp (- - x) x); lra.
  - rewrite (round_zero_eq x), (round_zero_eq (- x)) by lra. lra.
Qed.

Lemma round_sign (x : Q) :
  (0 < x -> 0 < round x) /\ (x < 0 -> round x < 0) /\ (x == 0 -> round x == 0).
Proof.
  split_and!; intros H.
  - rewrite round_pos_eq by done. by apply round_pos_pos.
  - rewrite round_neg_eq by done.
    pose proof (round_pos_pos (- x)). lra.
  - by rewrite round_zero_eq.
Qed.

Lemma round_nonneg (x : Q) : 0 <= x -> 0 <= round x.
Proof.
  intros H. destruct (round_sign x) as (H1 & _ & H3).
  destruct (Qlt_le_dec 0 x) as [L|L]; [specialize (H1 L); lra|].
  rewrite H3; lra.
Qed.

Lemma round_nonpos (x : Q) : x <= 0 -> round x <= 0.
Proof.
  intros H. destruct (round_sign x) as (_ & H2 & H3).
  destruct (Qlt_le_dec x 0) as [L|L]; [specialize (H2 L); lra|].
  rewrite H3; lra.
Qed.

(** Rounding is monotone. *)
Lemma round_mono (x y : Q) : x <= y -> round x <= round y.
Proof.
  intros Hxy.
  destruct (Qlt_le_dec 0 x) as [Hx|Hx].
  - rewrite (round_pos_eq x), (round_pos_eq y) by lra. by apply round_pos_mono.
  - destruct (Qlt_le_dec y 0) as [Hy|Hy].
    + rewrite (round_neg_eq x), (round_neg_eq y) by lra.
      apply Qopp_le_compat. apply round_pos_mono; lra.
    + pose proof (round_nonpos x Hx). pose proof (round_nonneg y Hy). lra.
Qed.

(** A number with an integral scaled significand is its own rounding. *)
Lemma round_pos_exact (x : Q) (m : Z) :
  0 < x -> x / 2 ^ (ilog2 x - 52) == inject_Z m -> round_pos x == x.
Proof.
  intros Hx E. unfold round_pos. cbv zeta.
  rewrite (rhe_comp _ _ E), PyFacts.round_half_even_int, <- E.
  field. apply pow2_ne.
Qed.

Lemma round_idempotent (x : Q) : round (round x) == round x.
Proof.
  assert (P : forall y, 0 < y -> round_pos (round_pos y) == round_pos y).
  { intros y Hy.
    destruct (significand_bounds y Hy) as [M1 M2].
    set (m := Py.round_half_even (y / 2 ^ (ilog2 y - 52))) in *.
    pose proof (pow2_pos (ilog2 y - 52)) as Pe.
    assert (R : round_pos y == inject_Z m * 2 ^ (ilog2 y - 52)) by reflexivity.
    assert (Hr : 0 < round_pos y) by by apply round_pos_pos.
    destruct (Z.eq_dec m (2 ^ 53)%Z) as [Em|Nm].
    - assert (L : ilog2 (round_pos y) = (ilog2 y + 1)%Z).
      { apply ilog2_unique. rewrite R, Em, <- pow2_Z by lia.
        rewrite <- Qpower_plus by lra.
        replace (53 + (ilog2 y - 52))%Z with (ilog2 y + 1)%Z by lia.
        split; [lra|]. apply pow2_lt. lia. }
      apply (round_pos_exact _ (2 ^ 52)%Z); [done|].
      rewrite L, R, Em, <- !pow2_Z by lia.
      replace (ilog2 y + 1 - 52)%Z with ((ilog2 y - 52) + 1)%Z by lia.
      rewrite pow2_succ. change (2 ^ 53) with (2 * 2 ^ 52).
      field. apply pow2_ne.
    - assert (L : ilog2 (round_pos y) = ilog2 y).
      { apply ilog2_unique. rewrite R.
        assert (E1 : 2 ^ ilog2 y == 2 ^ 52 * 2 ^ (ilog2 y - 52)).
        { rewrite <- Qpower_plus by lra.
          by replace (52 + (ilog2 y - 52))%Z with (ilog2 y) by lia. }
        assert (E2 : 2 ^ (ilog2 y + 1) == 2 ^ 53 * 2 ^ (ilog2 y - 52)).
        { rewrite <- Qpower_plus by lra.
          by replace (53 + (ilog2 y - 52))%Z with (ilog2 y + 1)%Z by lia. }
        rewrite E1, E2.
        assert (M1' : 2 ^ 52 <= inject_Z m) by (rewrite pow2_Z by lia; by rewrite <- Zle_Qle).
        assert (M2' : inject_Z m < 2 ^ 53).
        { rewrite pow2_Z by lia. rewrite <- Zlt_Qlt. lia. }
        split; [apply Qmult_le_compat_r; lra | apply Qmult_lt_compat_r; lra]. }
      apply (round_pos_exact _ m); [done|].
      rewrite L, R. field. apply pow2_ne. }
  destruct (Q_dec x 0) as [[Hx|Hx]|Hx].
  - rewrite (round_neg_eq x) by done.
    rewrite round_opp. rewrite (round_pos_eq (round_pos (- x))).
    + rewrite P; lra.
    + apply round_pos_pos. lra.
  - rewrite (round_pos_eq x) by done.
    rewrite (round_pos_eq (round_pos x)) by by apply round_pos_pos.
    by apply P.
  - rewrite (round_zero_eq x) by done. reflexivity.
Qed.

(** Integers up to 2^53 are binary64 numbers. *)
Lemma round_int (n : Z) : (Z.abs n <= 2 ^ 53)%Z -> round (inject_Z n) == inject_Z n.
Proof.
  assert (P : forall k, (0 < k <= 2 ^ 53)%Z -> round_pos (inject_Z k) == inject_Z k).
  { intros k [K1 K2].
    assert (Hk : 0 < inject_Z k) by (change 0 with (inject_Z 0); by rewrite <- Zlt_Qlt).
    destruct (Z.eq_dec k (2 ^ 53)%Z) as [E|N].
    - subst k. assert (L : ilog2 (inject_Z (2 ^ 53)%Z) = 53%Z).
      { apply ilog2_unique. rewrite <- pow2_Z by lia. split; [lra | by apply pow2_lt]. }
      apply (round_pos_exact _ (2 ^ 52)%Z); [done|]. rewrite L. reflexivity.
    - destruct (ilog2_spec _ Hk) as [S1 S2].
      assert (L : (ilog2 (inject_Z k) < 53)%Z).
      { apply Qpower_lt_compat_l_inv with (q := 2); [|lra].
        assert (inject_Z k < 2 ^ 53).
        { rewrite pow2_Z by lia. rewrite <- Zlt_Qlt. lia. }
        lra. }
      apply (round_pos_exact _ (k * 2 ^ (52 - ilog2 (inject_Z k)))%Z); [done|].
      rewrite inject_Z_mult, <- pow2_Z by lia.
      replace (ilog2 (inject_Z k) - 52)%Z with (- (52 - ilog2 (inject_Z k)))%Z by lia.
      rewrite Qpower_opp. field. apply pow2_ne. }
  intros Hn. destruct (Z.lt_trichotomy n 0) as [H|[H|H]].
  - assert (E : inject_Z n == - inject_Z (- n)) by (rewrite inject_Z_opp; lra).
    rewrite E, round_opp. rewrite round_pos_eq.
    + rewrite P; [lra | lia].
    + change 0 with (inject_Z 0). rewrite <- Zlt_Qlt. lia.
  - subst n. reflexivity.
  - rewrite round_pos_eq; [apply P; lia|].
    change 0 with (inject_Z 0). by rewrite <- Zlt_Qlt.
Qed.

(** The relative error of a rounding is at most 2^-53. *)
Lemma round_error (x : Q) : Qabs (round x - x) <= Qabs x * (1 # 9007199254740992).
Proof.
  assert (P : forall y, 0 < y -> Qabs (round_pos y - y) <= y * (1 # 9007199254740992)).
  { intros y Hy.
    destruct (scaled_bounds y Hy) as [B1 _].
    pose proof (pow2_pos (ilog2 y - 52)) as Pe.
    set (e := (ilog2 y - 52)%Z) in *.
    pose proof (PyFacts.round_half_even_error (y / 2 ^ e)) as [E1 E2].
    unfold round_pos. cbv zeta. fold e.
    set (m := inject_Z (Py.round_half_even (y / 2 ^ e))) in *.
    assert (Ey : y == y / 2 ^ e * 2 ^ e) by (field; lra).
    set (a := y / 2 ^ e) in *.
    assert (B : 4503599627370496 <= a) by (change (2 ^ 52) with 4503599627370496 in B1; done).
    apply Qabs_Qle_condition. rewrite Ey at 2 3 4. split; nra. }
  destruct (Q_dec x 0) as [[Hx|Hx]|Hx].
  - rewrite (round_neg_eq x) by done.
    specialize (P (- x)). rewrite (Qabs_neg x) by lra.
    assert (E : - round_pos (- x) - x == - (round_pos (- x) - - x)) by lra.
    rewrite E, Qabs_opp. apply P. lra.
  - rewrite (round_pos_eq x) by done. rewrite (Qabs_pos x) by lra. by apply P.
  - rewrite (round_zero_eq x) by done. rewrite Hx. by vm_compute.
Qed.


Lemma round_fixed (x : Q) : round (round x) == round x.
Proof. apply round_idempotent. Qed.

(** The two-sided form of the error bound. *)
Lemma round_within (x : Q) :
  x - Qabs x * (1 # 9007199254740992) <= round x
  <= x + Qabs x * (1 # 9007199254740992).
Proof.
  pose proof (round_error x) as H. apply Qabs_Qle_condition in H. lra.
Qed.

(** *** The operations *)

Lemma add_mono (a a' b b' : Q) : a <= a' -> b <= b' -> add a b <= add a' b'.
Proof. intros. apply round_mono. lra. Qed.

Lemma sub_mono (a a' b b' : Q) : a <= a' -> b' <= b -> sub a b <= sub a' b'.
Proof. intros. apply round_mono. lra. Qed.

Lemma mul_mono (a a' c : Q) : 0 <= c -> a <= a' -> mul a c <= mul a' c.
Proof. intros. apply round_mono. nra. Qed.

Lemma add_comp : Proper (Qeq ==> Qeq ==> Qeq) add.
Proof. intros a a' Ha b b' Hb. unfold add. by rewrite Ha, Hb. Qed.

Lemma sub_comp : Proper (Qeq ==> Qeq ==> Qeq) sub.
Proof. intros a a' Ha b b' Hb. unfold sub. by rewrite Ha, Hb. Qed.

Lemma mul_comp : Proper (Qeq ==> Qeq ==> Qeq) mul.
Proof. intros a a' Ha b b' Hb. unfold mul. by rewrite Ha, Hb. Qed.

#[global] Existing Instances add_comp sub_comp mul_comp.

Lemma lit_nonneg (x : Q) : 0 <= x -> 0 <= lit x.
Proof. apply round_nonneg. Qed.

(** Adding or subtracting 0 leaves a binary64 number as it is. *)
Lemma add_0_r (a : Q) : round a == a -> add a 0 == a.
Proof.
  intros H. unfold add. transitivity (round a); [|done]. apply round_comp. lra.
Qed.

Lemma add_0_l (a : Q) : round a == a -> add 0 a == a.
Proof.
  intros H. unfold add. transitivity (round a); [|done]. apply round_comp. lra.
Qed.

(** *** Sums *)

Lemma sum_last (xs : list Q) (x : Q) : sum (xs ++ [x]) = add (sum xs) x.
Proof. unfold sum. by rewrite fold_left_app. Qed.

Lemma fold_add_fixed (xs : list Q) (acc : Q) :
  round acc == acc -> round (fold_left add xs acc) == fold_left add xs acc.
Proof.
  revert acc. induction xs as [|x xs IH]; intros acc H; simpl; [done|].
  apply IH, round_fixed.
Qed.

Lemma sum_fixed (xs : list Q) : round (sum xs) == sum xs.
Proof. apply fold_add_fixed. reflexivity. Qed.

Lemma fold_add_mono (xs ys : list Q) (a b : Q) :
  Forall2 Qle xs ys -> a <= b -> fold_left add xs a <= fold_left add ys b.
Proof.
  intros H. revert a b. induction H as [|x y xs ys Hxy _ IH]; intros a b Hab; simpl.
  - done.
  - apply IH. by apply add_mono.
Qed.

Lemma sum_mono (xs ys : list Q) : Forall2 Qle xs ys -> sum xs <= sum ys.
Proof. intros H. apply fold_add_mono; [done | lra]. Qed.

(** *** NumPy's sum and mean *)

(** The factors [grow] and [shrink] are positive and monotone. *)
Lemma grow_pos (k : nat) : 0 < grow k.
Proof. induction k as [|k IH]; simpl; [lra|]. unfold unit_roundoff. nra. Qed.

Lemma grow_succ (k : nat) : grow k <= grow (S k).
Proof. pose proof (grow_pos k). simpl. unfold unit_roundoff. nra. Qed.

Lemma grow_mono (j k : nat) : (j <= k)%nat -> grow j <= grow k.
Proof.
  induction 1 as [|k _ IH]; [lra|]. pose proof (grow_succ k). lra.
Qed.

Lemma grow_ge_1 (k : nat) : 1 <= grow k.
Proof. apply (grow_mono 0 k). lia. Qed.

Lemma shrink_pos (k : nat) : 0 < shrink k.
Proof. induction k as [|k IH]; simpl; [lra|]. unfold unit_roundoff. nra. Qed.

Lemma shrink_succ (k : nat) : shrink (S k) <= shrink k.
Proof. pose proof (shrink_pos k). simpl. unfold unit_roundoff. nra. Qed.

Lemma shrink_anti (j k : nat) : (j <= k)%nat -> shrink k <= shrink j.
Proof.
  induction 1 as [|k _ IH]; [lra|]. pose proof (shrink_succ k). lra.
Qed.

Lemma shrink_le_1 (k : nat) : shrink k <= 1.
Proof. apply (shrink_anti 0 k). lia. Qed.

(** Rounding a number that is not negative moves it by at most the unit
    roundoff, relatively. *)
Lemma round_upper (x : Q) : 0 <= x -> round x <= x * (1 + unit_roundoff).
Proof.
  intros Hx. pose proof (round_within x) as H.
  rewrite (Qabs_pos x Hx) in H. unfold unit_roundoff. lra.
Qed.

Lemma round_lower (x : Q) : 0 <= x -> x * (1 - unit_roundoff) <= round x.
Proof.
  intros Hx. pose proof (round_within x) as H.
  rewrite (Qabs_pos x Hx) in H. unfold unit_roundoff. lra.
Qed.

(** A bound after [j] roundings is one after more roundings. *)
Lemma lift_upper (x X : Q) (j k : nat) :
  0 <= X -> (j <= k)%nat -> x <= X * grow j -> x <= X * grow k.
Proof. intros HX Hjk H. pose proof (grow_mono j k Hjk). nra. Qed.

Lemma lift_lower (x X : Q) (j k : nat) :
  0 <= X -> (j <= k)%nat -> X * shrink j <= x -> X * shrink k <= x.
Proof. intros HX Hjk H. pose proof (shrink_anti j k Hjk). nra. Qed.

(** One more rounding, and one more addition. *)
Lemma round_grow (x X : Q) (k : nat) :
  0 <= X -> x <= X * grow k -> round x <= X * grow (S k).
Proof.
  intros HX H. pose proof (grow_pos k) as G.
  apply Qle_trans with (round (X * grow k)); [by apply round_mono|].
  apply Qle_trans with (X * grow k * (1 + unit_roundoff)); [apply round_upper; nra|].
  simpl. lra.
Qed.

Lemma round_shrink (x X : Q) (k : nat) :
  0 <= X -> X * shrink k <= x -> X * shrink (S k) <= round x.
Proof.
  intros HX H. pose proof (shrink_pos k) as G.
  apply Qle_trans with (round (X * shrink k)); [|by apply round_mono].
  apply Qle_trans with (X * shrink k * (1 - unit_roundoff)); [simpl; lra|].
  apply round_lower. nra.
Qed.

Lemma add_upper (a b A B : Q) (k : nat) :
  0 <= A -> 0 <= B -> a <= A * grow k -> b <= B * grow k ->
  add a b <= (A + B) * grow (S k).
Proof.
  intros HA HB Ha Hb. apply round_grow; [lra|]. lra.
Qed.

Lemma add_lower (a b A B : Q) (k : nat) :
  0 <= A -> 0 <= B -> A * shrink k <= a -> B * shrink k <= b ->
  (A + B) * shrink (S k) <= add a b.
Proof.
  intros HA HB Ha Hb. apply round_shrink; [lra|]. lra.
Qed.

(** Counts as rationals. *)
Lemma count_succ (n : nat) : of_nat (S n) == of_nat n + 1.
Proof. unfold of_nat. rewrite Nat2Z.inj_succ, <- Z.add_1_r, inject_Z_plus. reflexivity. Qed.

Lemma count_nonneg (n : nat) : 0 <= of_nat n.
Proof. unfold of_nat. change 0 with (inject_Z 0). rewrite <- Zle_Qle. lia. Qed.

Lemma count_plus (n m : nat) : of_nat (n + m) == of_nat n + of_nat m.
Proof. unfold of_nat. by rewrite Nat2Z.inj_add, inject_Z_plus. Qed.

Lemma count_mult (n m : nat) : of_nat (n * m) == of_nat n * of_nat m.
Proof. unfold of_nat. by rewrite Nat2Z.inj_mul, inject_Z_mult. Qed.

Lemma count_le (n m : nat) : (n <= m)%nat -> of_nat n <= of_nat m.
Proof. intros H. unfold of_nat. rewrite <- Zle_Qle. lia. Qed.

(** Sums of numbers that are all at most, or all at least, a bound [c]
    that is not negative: each sum is within the roundings made of [c] times
    the count. *)
Section Bounds.

Variable c : Q.
Hypothesis c_nonneg : 0 <= c.

Lemma fold_upper (xs : list Q) (acc A : Q) (k : nat) :
  Forall (fun x => x <= c) xs -> 0 <= A -> acc <= A * grow k ->
  fold_left add xs acc <= (A + c * of_nat (length xs)) * grow (k + length xs).
Proof.
  intros Hall. revert acc A k.
  induction Hall as [|x xs Hx _ IH]; intros acc A k HA Hacc.
  - simpl. rewrite Nat.add_0_r. change (of_nat 0) with 0. lra.
  - cbn [fold_left length]. simpl in Hx.
    assert (H1 : add acc x <= (A + c) * grow (S k)).
    { apply add_upper; try done. pose proof (grow_ge_1 k). nra. }
    pose proof (IH _ (A + c) (S k) ltac:(lra) H1) as H2.
    replace (k + S (length xs))%nat with (S k + length xs)%nat by lia.
    rewrite count_succ. lra.
Qed.

Lemma fold_lower (xs : list Q) (acc A : Q) (k : nat) :
  Forall (fun x => c <= x) xs -> 0 <= A -> A * shrink k <= acc ->
  (A + c * of_nat (length xs)) * shrink (k + length xs) <= fold_left add xs acc.
Proof.
  intros Hall. revert acc A k.
  induction Hall as [|x xs Hx _ IH]; intros acc A k HA Hacc.
  - simpl. rewrite Nat.add_0_r. change (of_nat 0) with 0. lra.
  - cbn [fold_left length]. simpl in Hx.
    assert (H1 : (A + c) * shrink (S k) <= add acc x).
    { apply add_lower; try done. pose proof (shrink_le_1 k). nra. }
    pose proof (IH _ (A + c) (S k) ltac:(lra) H1) as H2.
    replace (k + S (length xs))%nat with (S k + length xs)%nat by lia.
    rewrite count_succ. lra.
Qed.

Lemma Forall_zip_with_2 {A B C} (f : A -> B -> C) (P : A -> Prop) (Q : B -> Prop)
    (R : C -> Prop) (l : list A) (k : list B) :
  (forall a b, P a -> Q b -> R (f a b)) ->
  Forall P l -> Forall Q k -> Forall R (zip_with f l k).
Proof.
  intros Hf Hl. revert k. induction Hl as [|a l Ha _ IH]; intros k Hk; [constructor|].
  destruct Hk as [|b k Hb Hk]; simpl; [constructor|].
  constructor; [by apply Hf | by apply IH].
Qed.

(** The eight running sums of a block. *)
Lemma accumulate_rest (turns : nat) (r xs : list Q) :
  (accumulate turns r xs).2 = drop (8 * turns) xs.
Proof.
  revert r xs. induction turns as [|t IH]; intros r xs; [done|].
  cbn [accumulate]. rewrite IH, drop_drop. f_equal. lia.
Qed.

Lemma accumulate_length (turns : nat) (r xs : list Q) :
  length r = 8%nat -> (8 * turns <= length xs)%nat ->
  length (accumulate turns r xs).1 = 8%nat.
Proof.
  revert r xs. induction turns as [|t IH]; intros r xs Hr Hx; [done|].
  cbn [accumulate]. apply IH.
  - rewrite length_zip_with, length_take. lia.
  - rewrite length_drop. lia.
Qed.

Lemma accumulate_upper (turns : nat) (r xs : list Q) (B : Q) (k : nat) :
  0 <= B ->
  Forall (fun x => x <= B * grow k) r -> Forall (fun x => x <= c) xs ->
  Forall (fun x => x <= (B + c * of_nat turns) * grow (k + turns)) (accumulate turns r xs).1.
Proof.
  revert r xs B k. induction turns as [|t IH]; intros r xs B k HB Hr Hx.
  - simpl. rewrite Nat.add_0_r. change (of_nat 0) with 0.
    eapply Forall_impl; [exact Hr|]. simpl. intros x H. lra.
  - cbn [accumulate].
    replace (k + S t)%nat with (S k + t)%nat by lia.
    assert (E : B + c * of_nat (S t) == (B + c) + c * of_nat t) by (rewrite count_succ; lra).
    eapply Forall_impl;
      [apply (IH _ (drop 8 xs) (B + c) (S k) ltac:(lra)) |].
    + eapply Forall_zip_with_2; [| exact Hr | by apply Forall_take].
      intros a b Ha Hb. simpl in Ha, Hb. apply add_upper; try done.
      pose proof (grow_ge_1 k). nra.
    + by apply Forall_drop.
    + simpl. intros x H. rewrite E. exact H.
Qed.

Lemma accumulate_lower (turns : nat) (r xs : list Q) (B : Q) (k : nat) :
  0 <= B ->
  Forall (fun x => B * shrink k <= x) r -> Forall (fun x => c <= x) xs ->
  Forall (fun x => (B + c * of_nat turns) * shrink (k + turns) <= x) (accumulate turns r xs).1.
Proof.
  revert r xs B k. induction turns as [|t IH]; intros r xs B k HB Hr Hx.
  - simpl. rewrite Nat.add_0_r. change (of_nat 0) with 0.
    eapply Forall_impl; [exact Hr|]. simpl. intros x H. lra.
  - cbn [accumulate].
    replace (k + S t)%nat with (S k + t)%nat by lia.
    assert (E : B + c * of_nat (S t) == (B + c) + c * of_nat t) by (rewrite count_succ; lra).
    eapply Forall_impl;
      [apply (IH _ (drop 8 xs) (B + c) (S k) ltac:(lra)) |].
    + eapply Forall_zip_with_2; [| exact Hr | by apply Forall_take].
      intros a b Ha Hb. simpl in Ha, Hb. apply add_lower; try done.
      pose proof (shrink_le_1 k). nra.
    + by apply Forall_drop.
    + simpl. intros x H. rewrite E. exact H.
Qed.

Lemma pair_up_upper (r : list Q) (R : Q) (k : nat) :
  0 <= R -> Forall (fun x => x <= R * grow k) r ->
  pair_up r <= 8 * R * grow (k + 3).
Proof.
  intros HR Hr. pose proof (grow_pos (k + 3)) as G.
  assert (Z0 : 0 <= 8 * R * grow (k + 3)) by nra.
  do 8 (destruct r as [|? r]; [exact Z0|]).
  destruct r; [|exact Z0].
  repeat match goal with H : Forall _ (_ :: _) |- _ => apply Forall_cons in H as [? H] end.
  unfold pair_up.
  replace (k + 3)%nat with (S (S (S k))) by lia.
  assert (E : 8 * R == ((R + R) + (R + R)) + ((R + R) + (R + R))) by lra.
  rewrite E.
  repeat (apply add_upper; try lra).
Qed.

Lemma pair_up_lower (r : list Q) (R : Q) (k : nat) :
  0 <= R -> length r = 8%nat -> Forall (fun x => R * shrink k <= x) r ->
  8 * R * shrink (k + 3) <= pair_up r.
Proof.
  intros HR Hlen Hr.
  do 8 (destruct r as [|? r]; [done|]).
  destruct r; [|done].
  repeat match goal with H : Forall _ (_ :: _) |- _ => apply Forall_cons in H as [? H] end.
  unfold pair_up.
  replace (k + 3)%nat with (S (S (S k))) by lia.
  assert (E : 8 * R == ((R + R) + (R + R)) + ((R + R) + (R + R))) by lra.
  rewrite E.
  repeat (apply add_lower; try lra).
Qed.

Lemma block_upper (xs : list Q) :
  (8 <= length xs <= 128)%nat -> Forall (fun x => x <= c) xs ->
  block_sum xs <= c * of_nat (length xs) * grow 25.
Proof.
  intros Hn Hall. unfold block_sum.
  set (t := (length xs / 8 - 1)%nat).
  pose proof (accumulate_rest t (take 8 xs) (drop 8 xs)) as Hrest.
  pose proof (accumulate_upper t (take 8 xs) (drop 8 xs) c 0 c_nonneg) as Hr.
  destruct (accumulate t (take 8 xs) (drop 8 xs)) as [r rest].
  cbn [fst snd] in Hrest, Hr.
  assert (Hdiv : (length xs = 8 * (length xs / 8) + length xs mod 8)%nat)
    by apply Nat.div_mod_eq.
  assert (Hmod : (length xs mod 8 < 8)%nat) by (apply Nat.mod_upper_bound; lia).
  assert (Hq : (1 <= length xs / 8 <= 16)%nat).
  { split; [apply Nat.div_le_lower_bound; lia | apply Nat.Div0.div_le_upper_bound; lia]. }
  assert (Hlen : length rest = (length xs mod 8)%nat).
  { rewrite Hrest, !length_drop. unfold t. lia. }
  assert (Hrest_c : Forall (fun x => x <= c) rest).
  { rewrite Hrest. by apply Forall_drop, Forall_drop. }
  assert (Hr' : Forall (fun x => x <= (c + c * of_nat t) * grow (0 + t)) r).
  { apply Hr; [|by apply Forall_drop].
    eapply Forall_impl; [by apply Forall_take|]. simpl. intros x H. lra. }
  pose proof (count_nonneg t) as Ht.
  pose proof (pair_up_upper r (c + c * of_nat t) (0 + t) ltac:(nra) Hr') as Hp.
  pose proof (fold_upper rest _ (8 * (c + c * of_nat t)) _ Hrest_c ltac:(nra) Hp) as Hf.
  rewrite Hlen in Hf.
  assert (E : 8 * (c + c * of_nat t) + c * of_nat (length xs mod 8) == c * of_nat (length xs)).
  { rewrite Hdiv at 2. rewrite count_plus.
    replace (8 * (length xs / 8))%nat with (8 + 8 * t)%nat by (unfold t; lia).
    rewrite count_plus, count_mult.
    change (of_nat 8) with 8. lra. }
  rewrite E in Hf.
  eapply lift_upper; [| |exact Hf].
  - pose proof (count_nonneg (length xs)). nra.
  - unfold t. lia.
Qed.

Lemma block_lower (xs : list Q) :
  (8 <= length xs <= 128)%nat -> Forall (fun x => c <= x) xs ->
  c * of_nat (length xs) * shrink 25 <= block_sum xs.
Proof.
  intros Hn Hall. unfold block_sum.
  set (t := (length xs / 8 - 1)%nat).
  assert (Hdiv : (length xs = 8 * (length xs / 8) + length xs mod 8)%nat)
    by apply Nat.div_mod_eq.
  assert (Hmod : (length xs mod 8 < 8)%nat) by (apply Nat.mod_upper_bound; lia).
  assert (Hq : (1 <= length xs / 8 <= 16)%nat).
  { split; [apply Nat.div_le_lower_bound; lia | apply Nat.Div0.div_le_upper_bound; lia]. }
  pose proof (accumulate_rest t (take 8 xs) (drop 8 xs)) as Hrest.
  pose proof (accumulate_lower t (take 8 xs) (drop 8 xs) c 0 c_nonneg) as Hr.
  pose proof (accumulate_length t (take 8 xs) (drop 8 xs)) as Hl.
  destruct (accumulate t (take 8 xs) (drop 8 xs)) as [r rest].
  cbn [fst snd] in Hrest, Hr, Hl.
  assert (Hlen : length rest = (length xs mod 8)%nat).
  { rewrite Hrest, !length_drop. unfold t. lia. }
  assert (Hrest_c : Forall (fun x => c <= x) rest).
  { rewrite Hrest. by apply Forall_drop, Forall_drop. }
  assert (Hr' : Forall (fun x => (c + c * of_nat t) * shrink (0 + t) <= x) r).
  { apply Hr; [|by apply Forall_drop].
    eapply Forall_impl; [by apply Forall_take|]. simpl. intros x H. lra. }
  assert (Hl' : length r = 8%nat).
  { apply Hl; [rewrite length_take; lia | rewrite length_drop; unfold t; lia]. }
  pose proof (count_nonneg t) as Ht.
  pose proof (pair_up_lower r (c + c * of_nat t) (0 + t) ltac:(nra) Hl' Hr') as Hp.
  pose proof (fold_lower rest _ (8 * (c + c * of_nat t)) _ Hrest_c ltac:(nra) Hp) as Hf.
  rewrite Hlen in Hf.
  assert (E : 8 * (c + c * of_nat t) + c * of_nat (length xs mod 8) == c * of_nat (length xs)).
  { rewrite Hdiv at 2. rewrite count_plus.
    replace (8 * (length xs / 8))%nat with (8 + 8 * t)%nat by (unfold t; lia).
    rewrite count_plus, count_mult.
    change (of_nat 8) with 8. lra. }
  rewrite E in Hf.
  eapply lift_lower; [| |exact Hf].
  - pose proof (count_nonneg (length xs)). nra.
  - unfold t. lia.
Qed.

(** The three cases of [pairwise_sum]. *)
Lemma pairwise_sum_eq (depth : nat) (xs : list Q) :
  pairwise_sum depth xs
  = if (length xs <? 8)%nat then fold_left add xs 0
    else if (length xs <=? 128)%nat then block_sum xs
    else match depth with
         | O => round (Py.sum xs)
         | S depth =>
             let n2 := (length xs / 2 - (length xs / 2) mod 8)%nat in
             add (pairwise_sum depth (take n2 xs)) (pairwise_sum depth (drop n2 xs))
         end.
Proof. by destruct depth. Qed.

Lemma exact_sum_upper (xs : list Q) :
  Forall (fun x => x <= c) xs -> Py.sum xs <= c * of_nat (length xs).
Proof.
  induction 1 as [|x xs Hx _ IH];
    [cbn [Py.sum fold_right length]; change (of_nat 0) with 0; lra|].
  cbn [Py.sum fold_right length]. rewrite count_succ. unfold Py.sum in IH.
  simpl in Hx. lra.
Qed.

Lemma exact_sum_lower (xs : list Q) :
  Forall (fun x => c <= x) xs -> c * of_nat (length xs) <= Py.sum xs.
Proof.
  induction 1 as [|x xs Hx _ IH];
    [cbn [Py.sum fold_right length]; change (of_nat 0) with 0; lra|].
  cbn [Py.sum fold_right length]. rewrite count_succ. unfold Py.sum in IH.
  simpl in Hx. lra.
Qed.

Lemma pairwise_upper (depth : nat) (xs : list Q) :
  Forall (fun x => x <= c) xs ->
  pairwise_sum depth xs <= c * of_nat (length xs) * grow (25 + depth).
Proof.
  revert xs. induction depth as [|d IH]; intros xs Hall;
    rewrite pairwise_sum_eq;
    pose proof (count_nonneg (length xs)) as Hn;
    (destruct (Nat.ltb_spec (length xs) 8) as [L8|L8];
     [ pose proof (fold_upper xs 0 0 0%nat Hall ltac:(lra) ltac:(simpl; lra)) as H;
       eapply lift_upper; [nra | | rewrite Qplus_0_l in H; exact H]; lia
     | destruct (Nat.leb_spec (length xs) 128) as [L128|L128];
       [ eapply lift_upper; [nra | | apply block_upper; [lia | done]]; lia |] ]).
  - eapply lift_upper; [nra | | apply round_grow; [nra|]].
    2:{ instantiate (1 := 0%nat). simpl. pose proof (exact_sum_upper xs Hall). lra. }
    lia.
  - cbv zeta. set (n2 := (length xs / 2 - (length xs / 2) mod 8)%nat).
    assert (Hn2 : (n2 <= length xs)%nat).
    { unfold n2. pose proof (Nat.Div0.div_le_upper_bound (length xs) 2 (length xs)). lia. }
    pose proof (IH (take n2 xs) ltac:(by apply Forall_take)) as H1.
    pose proof (IH (drop n2 xs) ltac:(by apply Forall_drop)) as H2.
    rewrite length_take in H1. rewrite length_drop in H2.
    replace (n2 `min` length xs)%nat with n2 in H1 by lia.
    assert (E : c * of_nat (length xs) == c * of_nat n2 + c * of_nat (length xs - n2)).
    { rewrite <- Qmult_plus_distr_r, <- count_plus.
      by replace (n2 + (length xs - n2))%nat with (length xs) by lia. }
    rewrite E. replace (25 + S d)%nat with (S (25 + d)) by lia.
    pose proof (count_nonneg n2). pose proof (count_nonneg (length xs - n2)).
    apply add_upper; try done; nra.
Qed.

Lemma pairwise_lower (depth : nat) (xs : list Q) :
  Forall (fun x => c <= x) xs ->
  c * of_nat (length xs) * shrink (25 + depth) <= pairwise_sum depth xs.
Proof.
  revert xs. induction depth as [|d IH]; intros xs Hall;
    rewrite pairwise_sum_eq;
    pose proof (count_nonneg (length xs)) as Hn;
    (destruct (Nat.ltb_spec (length xs) 8) as [L8|L8];
     [ pose proof (fold_lower xs 0 0 0%nat Hall ltac:(lra) ltac:(simpl; lra)) as H;
       eapply lift_lower; [nra | | rewrite Qplus_0_l in H; exact H]; lia
     | destruct (Nat.leb_spec (length xs) 128) as [L128|L128];
       [ eapply lift_lower; [nra | | apply block_lower; [lia | done]]; lia |] ]).
  - eapply lift_lower; [nra | | apply round_shrink; [nra|]].
    2:{ instantiate (1 := 0%nat). simpl. pose proof (exact_sum_lower xs Hall). lra. }
    lia.
  - cbv zeta. set (n2 := (length xs / 2 - (length xs / 2) mod 8)%nat).
    assert (Hn2 : (n2 <= length xs)%nat).
    { unfold n2. pose proof (Nat.Div0.div_le_upper_bound (length xs) 2 (length xs)). lia. }
    pose proof (IH (take n2 xs) ltac:(by apply Forall_take)) as H1.
    pose proof (IH (drop n2 xs) ltac:(by apply Forall_drop)) as H2.
    rewrite length_take in H1. rewrite length_drop in H2.
    replace (n2 `min` length xs)%nat with n2 in H1 by lia.
    assert (E : c * of_nat (length xs) == c * of_nat n2 + c * of_nat (length xs - n2)).
    { rewrite <- Qmult_plus_distr_r, <- count_plus.
      by replace (n2 + (length xs - n2))%nat with (length xs) by lia. }
    rewrite E. replace (25 + S d)%nat with (S (25 + d)) by lia.
    pose proof (count_nonneg n2). pose proof (count_nonneg (length xs - n2)).
    apply add_lower; try done; nra.
Qed.

(** The mean of numbers up to [c] is at most [c], and the mean of numbers
    from [c] on at least [c], up to a relative error of 2^-45. *)
Lemma mean_upper (xs : list Q) :
  Forall (fun x => x <= c) xs -> mean xs <= c * (1 + slack).
Proof.
  intros Hall. unfold mean, div. fold (of_nat (length xs)).
  assert (Hcase : xs = [] \/ xs <> []) by (destruct xs; [by left | by right]).
  destruct Hcase as [-> | Hne].
  { assert (E : round (pairwise_sum 64 [] / round (of_nat (length (@nil Q)))) == 0)
      by (vm_compute; reflexivity).
    rewrite E. unfold slack. nra. }
  set (n := length xs) in *.
  assert (Hn : 1 <= of_nat n).
  { unfold of_nat. change 1 with (inject_Z 1). rewrite <- Zle_Qle. unfold n.
    destruct xs; [done | cbn [length]; lia]. }
  pose proof (pairwise_upper 64 xs Hall) as HT. fold n in HT.
  pose proof (round_lower (of_nat n) ltac:(lra)) as Hr.
  pose proof (grow_pos (25 + 64)) as G.
  set (g := grow (25 + 64)) in *.
  set (w := / (1 - unit_roundoff)).
  assert (Hw : w * (1 - unit_roundoff) == 1) by (unfold w, unit_roundoff; field; lra).
  assert (Hw0 : 0 < w) by (apply Qinv_lt_0_compat; unfold unit_roundoff; lra).
  assert (Hr0 : 0 < round (of_nat n)) by (unfold unit_roundoff in Hr; lra).
  assert (HY : 0 <= c * g * w)
    by (apply Qmult_le_0_compat; [apply Qmult_le_0_compat |]; lra).
  apply Qle_trans with (round (c * g * w)).
  - apply round_mono. apply Qle_shift_div_r; [done|].
    apply Qle_trans with (c * g * w * (of_nat n * (1 - unit_roundoff))); [|nra].
    assert (E : c * g * w * (of_nat n * (1 - unit_roundoff))
                == c * of_nat n * g * (w * (1 - unit_roundoff))) by ring.
    rewrite E, Hw. lra.
  - apply Qle_trans with (c * g * w * (1 + unit_roundoff)); [by apply round_upper|].
    assert (K : g * w * (1 + unit_roundoff) <= 1 + slack).
    { unfold g, w. vm_compute. discriminate. }
    nra.
Qed.

Lemma mean_lower (xs : list Q) :
  xs <> [] -> Forall (fun x => c <= x) xs -> c * (1 - slack) <= mean xs.
Proof.
  intros Hne Hall. unfold mean, div. fold (of_nat (length xs)).
  set (n := length xs) in *.
  assert (Hn : 1 <= of_nat n).
  { unfold of_nat. change 1 with (inject_Z 1). rewrite <- Zle_Qle. unfold n.
    destruct xs; [done | cbn [length]; lia]. }
  pose proof (pairwise_lower 64 xs Hall) as HT. fold n in HT.
  pose proof (round_upper (of_nat n) ltac:(lra)) as Hr.
  pose proof (round_lower (of_nat n) ltac:(lra)) as Hr'.
  pose proof (shrink_pos (25 + 64)) as G.
  set (g := shrink (25 + 64)) in *.
  set (w := / (1 + unit_roundoff)).
  assert (Hw : w * (1 + unit_roundoff) == 1) by (unfold w, unit_roundoff; field; lra).
  assert (Hw0 : 0 < w) by (apply Qinv_lt_0_compat; unfold unit_roundoff; lra).
  assert (Hr0 : 0 < round (of_nat n)) by (unfold unit_roundoff in Hr'; lra).
  assert (HY : 0 <= c * g * w)
    by (apply Qmult_le_0_compat; [apply Qmult_le_0_compat |]; lra).
  apply Qle_trans with (round (c * g * w)).
  - apply Qle_trans with (c * g * w * (1 - unit_roundoff)); [|by apply round_lower].
    assert (K : 1 - slack <= g * w * (1 - unit_roundoff)).
    { unfold g, w. vm_compute. discriminate. }
    nra.
  - apply round_mono. apply Qle_shift_div_l; [done|].
    apply Qle_trans with (c * g * w * (of_nat n * (1 + unit_roundoff))); [nra|].
    assert (E : c * g * w * (of_nat n * (1 + unit_roundoff))
                == c * of_nat n * g * (w * (1 + unit_roundoff))) by ring.
    rewrite E, Hw. lra.
Qed.

End Bounds.

(** The halvings stop within [depth] for a list of up to [112 * 2^depth + 16]
    numbers: more depth changes nothing. *)
Lemma pairwise_sum_depth (depth extra : nat) (xs : list Q) :
  (Z.of_nat (length xs) <= 112 * 2 ^ Z.of_nat depth + 16)%Z ->
  pairwise_sum (depth + extra) xs = pairwise_sum depth xs.
Proof.
  revert xs. induction depth as [|d IH]; intros xs Hlen; rewrite !pairwise_sum_eq.
  - destruct (length xs <? 8)%nat; [done|].
    destruct (Nat.leb_spec (length xs) 128) as [L|L]; [done|].
    change (2 ^ Z.of_nat 0)%Z with 1%Z in Hlen. lia.
  - destruct (length xs <? 8)%nat; [done|].
    destruct (Nat.leb_spec (length xs) 128) as [L|L]; [done|].
    cbn [Nat.add]. cbv zeta.
    set (h := (length xs / 2)%nat).
    assert (Hh : (length xs = 2 * h + length xs mod 2)%nat) by apply Nat.div_mod_eq.
    assert (Hh2 : (length xs mod 2 < 2)%nat) by (apply Nat.mod_upper_bound; lia).
    assert (Hm : (h = 8 * (h / 8) + h mod 8)%nat) by apply Nat.div_mod_eq.
    assert (Hm2 : (h mod 8 < 8)%nat) by (apply Nat.mod_upper_bound; lia).
    rewrite Nat2Z.inj_succ, Z.pow_succ_r in Hlen by lia.
    set (P := (2 ^ Z.of_nat d)%Z) in *.
    rewrite !IH; [done | |].
    + rewrite length_drop. fold P. lia.
    + rewrite length_take. fold P. lia.
Qed.

(** *** Rounding to two decimals *)

Lemma round2_le (x y : Q) : x <= y -> round2 x <= round2 y.
Proof. intros H. apply round_mono. by apply PyFacts.round2_mono. Qed.

Lemma round2_comp : Proper (Qeq ==> Qeq) round2.
Proof. intros x y E. apply Qle_antisym; apply round2_le; lra. Qed.

#[global] Existing Instance round2_comp.

Lemma round2_bounds (x : Q) : 0 <= x <= 100 -> 0 <= round2 x <= 100.
Proof.
  intros [H0 H1]. split.
  - apply round_nonneg. by apply PyFacts.round2_range.
  - assert (E : round 100 == 100) by (vm_compute; reflexivity).
    apply Qle_trans with (round 100); [|lra].
    apply round_mono. by apply PyFacts.round2_range.
Qed.

(** A rounded score is the float of a whole number of hundredths. *)
(** Rounding to two decimals moves a number of moderate size by half a
    hundredth and one binary rounding at most. *)
Lemma round2_near (x : Q) :
  -1 <= x <= 101 -> x - 0.00500001 <= round2 x <= x + 0.00500001.
Proof.
  intros Hx. unfold round2.
  pose proof (PyFacts.round2_error x) as He.
  pose proof (round_within (Py.round2 x)) as Hr.
  assert (Ha : Qabs (Py.round2 x) <= 102) by (apply Qabs_Qle_condition; lra).
  lra.
Qed.


(** Values that lie more than a hundredth apart round to different scores. *)
Lemma round2_strict (x y : Q) :
  0 <= x -> y <= 100 -> x + (1 # 100) < y -> round2 x < round2 y.
Proof.
  intros Hx Hy Hxy. unfold round2, Py.round2.
  pose proof (PyFacts.round_half_even_error (x * 100)) as [_ E1].
  pose proof (PyFacts.round_half_even_error (y * 100)) as [E2 _].
  set (k1 := Py.round_half_even (x * 100)) in *.
  set (k2 := Py.round_half_even (y * 100)) in *.
  assert (Hk : (k1 + 1 <= k2)%Z).
  { assert (H : inject_Z k1 < inject_Z k2) by lra.
    rewrite <- Zlt_Qlt in H. lia. }
  assert (Hk1 : (0 <= k1)%Z).
  { unfold k1. rewrite <- (PyFacts.round_half_even_int 0).
    apply PyFacts.round_half_even_mono. change (inject_Z 0) with 0. lra. }
  assert (Hk2 : (k2 <= 10000)%Z).
  { unfold k2. rewrite <- (PyFacts.round_half_even_int 10000).
    apply PyFacts.round_half_even_mono. change (inject_Z 10000) with 10000. lra. }
  rewrite Zle_Qle, inject_Z_plus in Hk. change (inject_Z 1) with 1 in Hk.
  rewrite Zle_Qle in Hk1, Hk2.
  change (inject_Z 0) with 0 in Hk1. change (inject_Z 10000) with 10000 in Hk2.
  set (a := inject_Z k1) in *. set (b := inject_Z k2) in *.
  pose proof (round_within (a / 100)) as [_ U].
  pose proof (round_within (b / 100)) as [L _].
  rewrite Qabs_pos in U by PyFacts.qsolve.
  rewrite Qabs_pos in L by PyFacts.qsolve.
  revert U L. PyFacts.div_const. intros U L. lra.
Qed.

(** *** Square roots *)

Lemma sqrt_nonneg (x : Q) : 0 <= sqrt x.
Proof.
  unfold sqrt. destruct (Qle_bool x 0); [lra|]. cbv zeta.
  apply round_nonneg. apply Qle_shift_div_l; [apply pow2_pos|].
  rewrite Qmult_0_l. change 0 with (inject_Z 0). rewrite <- Zle_Qle.
  apply Z.sqrt_nonneg.
Qed.

Lemma sqrt_upper (x bound : Q) :
  0 <= bound -> round bound == bound -> x <= bound * bound -> sqrt x <= bound.
Proof.
  intros Hb Hr Hx. unfold sqrt. destruct (Qle_bool x 0) eqn:E; [done|].
  assert (Hpos : 0 < x).
  { apply Qnot_le_lt. intros H. apply Qle_bool_iff in H. congruence. }
  cbv zeta. set (k := (128 - ilog2 x / 2)%Z).
  apply Qle_trans with (round bound); [|lra]. apply round_mono.
  pose proof (pow2_pos k) as Pk.
  assert (E2 : 2 ^ (2 * k) == 2 ^ k * 2 ^ k).
  { replace (2 * k)%Z with (k + k)%Z by lia. apply Qpower_plus. lra. }
  set (N := Qfloor (x * 2 ^ (2 * k))).
  assert (HN : (0 <= N)%Z).
  { unfold N. change 0%Z with (Qfloor 0). apply Qfloor_resp_le.
    rewrite E2. nra. }
  pose proof (Z.sqrt_spec N HN) as [S1 _].
  pose proof (Z.sqrt_nonneg N) as S0.
  set (s := Z.sqrt N) in *.
  assert (Hs : inject_Z s * inject_Z s <= x * (2 ^ k * 2 ^ k)).
  { rewrite <- E2. rewrite <- inject_Z_mult.
    apply Qle_trans with (inject_Z N); [by rewrite <- Zle_Qle | apply Qfloor_le]. }
  assert (Hs0 : 0 <= inject_Z s) by (change 0 with (inject_Z 0); by rewrite <- Zle_Qle).
  apply Qle_shift_div_r; [done|].
  set (S := inject_Z s) in *. set (P := 2 ^ k) in *.
  destruct (Qlt_le_dec (bound * P) S) as [L|L]; [|done]. exfalso.
  assert (HB : 0 <= bound * P) by nra.
  set (B := bound * P) in *.
  assert (H1 : B * B <= B * S) by nra.
  assert (H2 : B * S < S * S) by nra.
  assert (H3 : x * (P * P) <= bound * bound * (P * P)) by nra.
  assert (H4 : bound * bound * (P * P) == B * B) by (unfold B; ring).
  lra.
Qed.

End F64Facts.

(** ** Grading *)

Section Grading.

Implicit Types (row : string * GradeCriteria) (rows : list (string * GradeCriteria)).

Lemma insert_desc_perm x rows : insert_desc x rows ≡ₚ x :: rows.
Proof.
  induction rows as [|y rows IH]; simpl; [done|].
  destruct (Py.ltb _ _); [|done].
  rewrite IH. apply Permutation_swap.
Qed.

Lemma sorted_desc_perm rows : sorted_desc rows ≡ₚ rows.
Proof.
  induction rows as [|x rows IH]; simpl; [done|].
  rewrite insert_desc_perm. by rewrite IH.
Qed.

Lemma insert_desc_descending x rows :
  descending rows -> descending (insert_desc x rows).
Proof.
  unfold descending. induction 1 as [|y rows Hs IH Hy]; simpl.
  - repeat constructor.
  - destruct (Py.ltb _ _) eqn:E.
    + apply PyFacts.ltb_lt in E. constructor; [done|].
      rewrite insert_desc_perm. constructor; [unfold threshold; lra | done].
    + apply PyFacts.ltb_ge in E. constructor; [by constructor|].
      constructor; [done|].
      eapply Forall_impl; [exact Hy|]. unfold threshold in *.
      intros z Hz. simpl in Hz. lra.
Qed.

Lemma sorted_desc_descending rows : descending (sorted_desc rows).
Proof.
  induction rows as [|x rows IH]; simpl; [constructor|].
  by apply insert_desc_descending.
Qed.


(** Nothing met: the fall-through. *)
Lemma first_grade_none score rows :
  Forall (fun row => ~ met score row) rows -> first_grade score rows = "D"%string.
Proof.
  induction 1 as [|[g c] rows Hn _ IH]; simpl; [done|].
  destruct (Py.geb _ _) eqn:E; [|done].
  apply PyFacts.geb_ge in E. by destruct Hn.
Qed.

(** On a descending table the loop stops at a row of greatest met
    threshold. *)
Lemma first_grade_descending score rows :
  descending rows ->
  Exists (met score) rows ->
  exists c, (first_grade score rows, c) ∈ rows /\ min_score c <= score /\
            Forall (fun row => met score row -> threshold row <= min_score c) rows.
Proof.
  unfold descending. induction 1 as [|[g c] rows Hs IH Hy]; intros Hex.
  - by apply Exists_nil in Hex.
  - simpl. destruct (Py.geb _ _) eqn:E.
    + apply PyFacts.geb_ge in E. exists c. split; [apply list_elem_of_here|].
      split; [done|]. constructor; [intros _; apply Qle_refl|].
      eapply Forall_impl; [exact Hy|]. by intros z Hz _.
    + assert (Hc : ~ min_score c <= score).
      { intros Hc. apply PyFacts.geb_ge in Hc. congruence. }
      apply Exists_cons in Hex as [Hex|Hex]; [done|].
      destruct (IH Hex) as (c' & Hin & Hle & Hall).
      exists c'. split; [by apply list_elem_of_further|]. split; [done|].
      constructor; [|done]. intros Hm. by destruct Hc.
Qed.

End Grading.

(** ** The weighted sum *)

Section Aggregation.

Implicit Types (metrics : gmap string Q) (objects : list Detection).

Lemma sum_app xs ys : Py.sum (xs ++ ys) == Py.sum xs + Py.sum ys.
Proof.
  induction xs as [|x xs IH]; simpl; [lra|]. rewrite IH. lra.
Qed.

Lemma sum_snoc xs x : Py.sum (xs ++ [x]) == Py.sum xs + x.
Proof. rewrite sum_app. simpl. lra. Qed.

(** One conditional append adds one contribution; an absent one adds 0. *)
Lemma sum_append_if (o : option Q) (points : Q -> Q) (key : string)
    (components : list (string * Q)) :
  F64.sum (map snd (match o with
                    | Some v => components ++ [(key, points v)]
                    | None => components
                    end))
  == F64.add (F64.sum (map snd components))
             (match o with Some v => points v | None => 0 end).
Proof.
  destruct o.
  - rewrite map_app. simpl. by rewrite F64Facts.sum_last.
  - symmetry. apply F64Facts.add_0_r, F64Facts.sum_fixed.
Qed.

(** The total of the list the code builds is that weighted sum. *)
Lemma total_score_weighted_sum metrics objects :
  total_score metrics objects == weighted_sum metrics objects.
Proof.
  unfold total_score, score_components, weighted_sum, present, weighted, normalised.
  cbn [F64.sum fold_left].
  rewrite (sum_append_if _ (fun v => F64.mul v (F64.lit 0.1))).
  apply F64Facts.add_comp; [|reflexivity].
  assert (D : forall components : list (string * Q),
    F64.sum (map snd (match objects with
                      | [] => components
                      | _ :: _ =>
                          components ++
                          [("detection"%string,
                            F64.mul (F64.mul (F64.mean (map confidence objects)) 100)
                                    (F64.lit 0.1))]
                      end))
    == F64.add (F64.sum (map snd components)) (detection_term objects)).
  { intros components. unfold detection_term. destruct objects.
    - symmetry. apply F64Facts.add_0_r, F64Facts.sum_fixed.
    - rewrite map_app. simpl. by rewrite F64Facts.sum_last. }
  rewrite D. apply F64Facts.add_comp; [|reflexivity].
  rewrite (sum_append_if _ (fun v => F64.mul v (F64.lit 0.1))).
  apply F64Facts.add_comp; [|reflexivity].
  rewrite (sum_append_if _ (fun v => F64.mul v (F64.lit 0.1))).
  apply F64Facts.add_comp; [|reflexivity].
  rewrite (sum_append_if _ (fun v => F64.mul v (F64.lit 0.2))).
  apply F64Facts.add_comp; [|reflexivity].
  rewrite (sum_append_if _ (fun v => F64.mul v (F64.lit 0.1))).
  apply F64Facts.add_comp; [|reflexivity].
  rewrite (sum_append_if _
    (fun v => F64.mul (Py.max 0 (F64.sub 100 (F64.mul (Py.abs (F64.sub v 65)) 1.5)))
                      (F64.lit 0.1))).
  apply F64Facts.add_comp; [|reflexivity].
  rewrite (sum_append_if _
    (fun v => F64.mul (Py.max 0 (F64.sub 100 (F64.mul (Py.abs (F64.sub v 130)) 2)))
                      (F64.lit 0.1))).
  apply F64Facts.add_comp; [|reflexivity].
  rewrite (sum_append_if _ (fun v => F64.mul v (F64.lit 0.1))).
  apply F64Facts.add_comp; reflexivity.
Qed.

Lemma max_proper : Proper (Qeq ==> Qeq ==> Qeq) Py.max.
Proof.
  intros a a' Ha b b' Hb.
  destruct (PyFacts.max_spec a b) as [[? ->]|[? ->]],
           (PyFacts.max_spec a' b') as [[? ->]|[? ->]]; lra.
Qed.

Lemma min_proper : Proper (Qeq ==> Qeq ==> Qeq) Py.min.
Proof.
  intros a a' Ha b b' Hb.
  destruct (PyFacts.min_spec a b) as [[? ->]|[? ->]],
           (PyFacts.min_spec a' b') as [[? ->]|[? ->]]; lra.
Qed.

Lemma round2_proper : Proper (Qeq ==> Qeq) Py.round2.
Proof.
  intros x y E. apply Qle_antisym; apply PyFacts.round2_mono; lra.
Qed.

#[global] Existing Instances max_proper min_proper round2_proper.

Lemma final_score_range metrics objects :
  0 <= final_score metrics objects <= 100.
Proof. unfold final_score. apply PyFacts.clamp_range. lra. Qed.

Lemma overall_score_range metrics objects product_type :
  0 <= _calculate_overall_score metrics objects product_type <= 100.
Proof. apply F64Facts.round2_bounds, final_score_range. Qed.


End Aggregation.

(** ** Claims on the score and the grade *)







(** The grade returned is the first row met of a list: the rows before it
    are not met. *)
Lemma first_grade_split (score : Q) (rows : list (string * GradeCriteria)) :
  Exists (met score) rows ->
  exists before criteria after,
    rows = before ++ (first_grade score rows, criteria) :: after
    /\ Forall (fun row => ~ met score row) before
    /\ met score (first_grade score rows, criteria).
Proof.
  induction rows as [|[g c] rows IH]; intros Hex.
  - by apply Exists_nil in Hex.
  - simpl. destruct (Py.geb _ _) eqn:E.
    + apply PyFacts.geb_ge in E. by exists [], c, rows.
    + assert (Hc : ~ met score (g, c)).
      { unfold met, threshold. simpl. intros Hc.
        apply PyFacts.geb_ge in Hc. congruence. }
      apply Exists_cons in Hex as [Hex|Hex]; [done|].
      destruct (IH Hex) as (before & c' & after & Heq & Hbefore & Hmet).
      exists ((g, c) :: before), c', after. split; [by rewrite Heq at 1|].
      split; [by constructor | done].
Qed.

(** The grade under the built-in table, by the thresholds of the
    specification. *)
Lemma default_grade (self : Analyzer) (score : Q) :
  QUALITY_GRADES self = None ->
  (85 <= score -> _get_quality_grade self score = "A"%string)
  /\ (70 <= score < 85 -> _get_quality_grade self score = "B"%string)
  /\ (50 <= score < 70 -> _get_quality_grade self score = "C"%string)
  /\ (score < 50 -> _get_quality_grade self score = "D"%string).
Proof.
  intros Hnone. unfold _get_quality_grade, grades_of. rewrite Hnone.
  change (sorted_desc default_grades) with default_grades.
  unfold default_grades. cbn [first_grade min_score].
  destruct (Py.geb score 85) eqn:E1, (Py.geb score 70) eqn:E2,
           (Py.geb score 50) eqn:E3, (Py.geb score 0) eqn:E4;
    rewrite ?PyFacts.geb_ge in *;
    repeat match goal with
           | H : Py.geb _ _ = false |- _ =>
               apply not_true_iff_false in H; rewrite PyFacts.geb_ge in H
           end;
    split_and!; intros; try done; exfalso; lra.
Qed.

(** C5, as the code has it. For every configured grade table and every score
    that meets some row of it, the grade returned is the first one, in
    descending order of minimum score, whose minimum the score meets or
    exceeds: no row with a greater minimum is met. When the score meets no
    row of the configured table the grade is D, whether or not the table has
    such a grade. Without a configured table the grade is A from 85, B from
    70, C from 50 and D below; 85.0 gives A and 84.99 gives B. *)
Theorem grade_is_first_threshold_met :
  (forall (self : Analyzer) (table : list (string * GradeCriteria)) (score : Q),
      QUALITY_GRADES self = Some table ->
      Exists (met score) table ->
      first_met_descending table score (_get_quality_grade self score)
      /\ exists criteria,
           (_get_quality_grade self score, criteria) ∈ table
           /\ min_score criteria <= score
           /\ Forall (fun row => met score row -> threshold row <= min_score criteria)
                     table)
  /\ (forall (self : Analyzer) (table : list (string * GradeCriteria)) (score : Q),
        QUALITY_GRADES self = Some table ->
        Forall (fun row => ~ met score row) table ->
        _get_quality_grade self score = "D"%string)
  /\ (forall (self : Analyzer) (score : Q),
        QUALITY_GRADES self = None ->
        (85 <= score -> _get_quality_grade self score = "A"%string)
        /\ (70 <= score < 85 -> _get_quality_grade self score = "B"%string)
        /\ (50 <= score < 70 -> _get_quality_grade self score = "C"%string)
        /\ (score < 50 -> _get_quality_grade self score = "D"%string))
  /\ (forall self : Analyzer,
        QUALITY_GRADES self = None ->
        _get_quality_grade self 85.0 = "A"%string
        /\ _get_quality_grade self 84.99 = "B"%string
        /\ _get_quality_grade self (F64.lit 84.99) = "B"%string).
Proof.
  split_and!.
  - intros self table score Htable Hex. unfold _get_quality_grade, grades_of.
    rewrite Htable.
    assert (Hex' : Exists (met score) (sorted_desc table)).
    { by rewrite sorted_desc_perm. }
    split.
    + destruct (first_grade_split _ _ Hex') as (before & c & after & Heq & Hb & Hm).
      exists (sorted_desc table), before, c, after.
      split; [apply sorted_desc_perm|].
      split; [apply sorted_desc_descending | done].
    + destruct (first_grade_descending score _ (sorted_desc_descending _) Hex')
        as (c & Hin & Hle & Hall).
      exists c. set (g := first_grade _ _) in *. clearbody g.
      rewrite sorted_desc_perm in Hin, Hall. done.
  - intros self table score Htable Hnone. unfold _get_quality_grade, grades_of.
    rewrite Htable. apply first_grade_none. by rewrite sorted_desc_perm.
  - apply default_grade.
  - intros self Hnone. unfold _get_quality_grade, grades_of. rewrite Hnone.
    split_and!; by vm_compute.
Qed.

Lemma grade_is_first_threshold_met_witness :
  first_met_descending three_row_table 55
    (_get_quality_grade (configured three_row_table) 55)
  /\ exists criteria,
       (_get_quality_grade (configured three_row_table) 55, criteria) ∈ three_row_table
       /\ min_score criteria <= 55
       /\ Forall (fun row => met 55 row -> threshold row <= min_score criteria)
                 three_row_table.
Proof.
  apply (proj1 grade_is_first_threshold_met (configured three_row_table)
               three_row_table 55 eq_refl).
  apply Exists_cons_hd. unfold met, threshold. simpl. lra.
Defined.

(** The claim as written fails: a score of 50 meets no row of a table whose
    only grade is A from 85, and the grade returned is D, which that table
    does not have. *)
Lemma unmet_table_gives_D :
  QUALITY_GRADES (configured one_row_table) = Some one_row_table
  /\ Forall (fun row => ~ met 50 row) one_row_table
  /\ _get_quality_grade (configured one_row_table) 50 = "D"%string
  /\ "D"%string ∉ map fst one_row_table.
Proof.
  split; [reflexivity|]. split.
  - repeat constructor. unfold met, threshold. simpl. lra.
  - split; [reflexivity|]. simpl. apply (bool_decide_unpack _). reflexivity.
Qed.

(** ** Noise and the score *)

Section Noise.

Implicit Types (metrics : gmap string Q) (objects : list Detection).

(** The noise level is no component of the weighted sum. *)
Lemma score_components_noise metrics objects (n : Q) :
  score_components (<["noise_level" := n]> metrics) objects
  = score_components metrics objects.
Proof.
  unfold score_components. by rewrite !lookup_insert_ne.
Qed.

Lemma total_score_noise metrics objects (n : Q) :
  total_score (<["noise_level" := n]> metrics) objects
  = total_score metrics objects.
Proof. unfold total_score. by rewrite score_components_noise. Qed.

Lemma noise_penalty_at metrics (n : Q) :
  20 <= n ->
  noise_penalty (<["noise_level" := n]> metrics) == F64.mul (F64.sub n 20) 0.5.
Proof.
  intros Hn. unfold noise_penalty. rewrite lookup_insert_eq.
  destruct (Py.ltb 20 n) eqn:E.
  - apply F64Facts.add_0_l, F64Facts.round_fixed.
  - apply PyFacts.ltb_ge in E. assert (En : n - 20 == 0) by lra.
    unfold F64.mul, F64.sub. rewrite En. reflexivity.
Qed.

(** The penalty in binary64 is half of what exceeds 20, up to the relative
    spacing of the floats. *)
Lemma penalty_close (n : Q) :
  20 <= n ->
  Qabs (F64.mul (F64.sub n 20) 0.5 - (n - 20) * 0.5) <= (n - 20) * epsilon.
Proof.
  intros Hn. unfold F64.mul, F64.sub.
  pose proof (F64Facts.round_within (n - 20)) as [L1 U1].
  rewrite Qabs_pos in L1, U1 by lra.
  set (r := F64.round (n - 20)) in *.
  assert (Hr : 0 <= r) by (apply F64Facts.round_nonneg; lra).
  pose proof (F64Facts.round_within (r * 0.5)) as [L2 U2].
  rewrite Qabs_pos in L2, U2 by lra.
  apply Qabs_Qle_condition. unfold epsilon. split; lra.
Qed.

Lemma max_mono (a b b' : Q) : b <= b' -> Py.max a b <= Py.max a b'.
Proof.
  intros H.
  destruct (PyFacts.max_spec a b) as [[? ->]|[? ->]],
           (PyFacts.max_spec a b') as [[? ->]|[? ->]]; lra.
Qed.

Lemma min_mono (a b b' : Q) : b <= b' -> Py.min a b <= Py.min a b'.
Proof.
  intros H.
  destruct (PyFacts.min_spec a b) as [[? ->]|[? ->]],
           (PyFacts.min_spec a b') as [[? ->]|[? ->]]; lra.
Qed.

Lemma final_score_mono_in_raw (raw raw' : Q) :
  raw' <= raw ->
  Py.max 0 (Py.min 100 raw') <= Py.max 0 (Py.min 100 raw).
Proof. intros H. by apply max_mono, min_mono. Qed.

(** A value the clamp leaves strictly inside (0,100) is the value before
    the clamp. *)
Lemma clamp_inside (x : Q) :
  (0 < Py.max 0 (Py.min 100 x) -> 0 < x)
  /\ (Py.max 0 (Py.min 100 x) < 100 -> x < 100)
  /\ (0 <= x <= 100 -> Py.max 0 (Py.min 100 x) == x).
Proof.
  destruct (PyFacts.min_spec 100 x) as [[? E1]|[? E1]]; rewrite E1;
    [destruct (PyFacts.max_spec 0 x) as [[? E2]|[? E2]]
    |destruct (PyFacts.max_spec 0 100) as [[? E2]|[? E2]]];
    rewrite E2; split_and!; intros; lra.
Qed.

(** Two penalties that differ by more than a hundredth, subtracted in
    binary64 from the same total with both results inside (0,100), give
    results more than a hundredth apart. *)
Lemma sub_apart (total p1 p2 : Q) :
  0 < F64.sub total p2 -> F64.sub total p1 < 100 ->
  p1 + (10049 # 1000000) <= p2 ->
  F64.sub total p2 + (1 # 100) < F64.sub total p1.
Proof.
  unfold F64.sub. intros Hpos Hlt Hp.
  assert (Z2 : 0 < total - p2).
  { destruct (Qlt_le_dec 0 (total - p2)) as [L|L]; [done|].
    pose proof (F64Facts.round_nonpos _ L). lra. }
  pose proof (F64Facts.round_within (total - p1)) as [L1 U1].
  pose proof (F64Facts.round_within (total - p2)) as [L2 U2].
  rewrite Qabs_pos in L1, U1 by lra.
  rewrite Qabs_pos in L2, U2 by lra.
  lra.
Qed.

End Noise.

(** C7, as the code has it. With the detections, the product type and every
    other metric fixed, raising the noise level from a value at or above 20
    raises the penalty, which is (noise_level - 20) * 0.5 computed in
    binary64, and the overall score never rises. It drops strictly whenever
    the noise level, a byte-scale value of at most 255, rises by 0.0201 or
    more and neither score is clamped: the score before rounding is above 0
    after the rise and below 100 before it. *)
Theorem noise_never_raises_score
    (metrics : gmap string Q) (objects : list Detection) (product_type : string)
    (n1 n2 : Q) :
  20 <= n1 -> n1 < n2 ->
  let m1 := <["noise_level" := n1]> metrics in
  let m2 := <["noise_level" := n2]> metrics in
  noise_penalty m1 == F64.mul (F64.sub n1 20) 0.5
  /\ noise_penalty m2 == F64.mul (F64.sub n2 20) 0.5
  /\ Qabs (noise_penalty m1 - (n1 - 20) * 0.5) <= (n1 - 20) * epsilon
  /\ Qabs (noise_penalty m2 - (n2 - 20) * 0.5) <= (n2 - 20) * epsilon
  /\ total_score m2 objects = total_score m1 objects
  /\ noise_penalty m1 <= noise_penalty m2
  /\ _calculate_overall_score m2 objects product_type
     <= _calculate_overall_score m1 objects product_type
  /\ (n1 + 0.0201 <= n2 -> n2 <= 255 ->
      0 < final_score m2 objects -> final_score m1 objects < 100 ->
      _calculate_overall_score m2 objects product_type
      < _calculate_overall_score m1 objects product_type).
Proof.
  intros H1 H2 m1 m2.
  assert (P1 : noise_penalty m1 == F64.mul (F64.sub n1 20) 0.5)
    by by apply noise_penalty_at.
  assert (P2 : noise_penalty m2 == F64.mul (F64.sub n2 20) 0.5)
    by (apply noise_penalty_at; lra).
  assert (C1 : Qabs (noise_penalty m1 - (n1 - 20) * 0.5) <= (n1 - 20) * epsilon).
  { rewrite P1. by apply penalty_close. }
  assert (C2 : Qabs (noise_penalty m2 - (n2 - 20) * 0.5) <= (n2 - 20) * epsilon).
  { rewrite P2. apply penalty_close. lra. }
  assert (T : total_score m2 objects = total_score m1 objects).
  { unfold m1, m2. by rewrite !total_score_noise. }
  assert (M : noise_penalty m1 <= noise_penalty m2).
  { rewrite P1, P2. apply F64Facts.mul_mono; [lra|].
    apply F64Facts.sub_mono; lra. }
  do 6 (split; [done|]). split.
  - unfold _calculate_overall_score, final_score. cbv zeta.
    apply F64Facts.round2_le, final_score_mono_in_raw.
    rewrite T. apply F64Facts.sub_mono; lra.
  - intros Hrise Hbyte Hpos Hlt.
    unfold _calculate_overall_score. revert Hpos Hlt.
    unfold final_score. cbv zeta. rewrite T.
    set (total := total_score m1 objects).
    set (p1 := noise_penalty m1) in *. set (p2 := noise_penalty m2) in *.
    intros Hpos Hlt.
    apply clamp_inside in Hpos. apply clamp_inside in Hlt.
    assert (Hle : F64.sub total p2 <= F64.sub total p1)
      by (apply F64Facts.sub_mono; lra).
    assert (Hp : p1 + (10049 # 1000000) <= p2).
    { apply Qabs_Qle_condition in C1, C2. unfold epsilon in C1, C2. lra. }
    pose proof (sub_apart total p1 p2 Hpos Hlt Hp) as Hapart.
    destruct (clamp_inside (F64.sub total p1)) as (_ & _ & E1).
    destruct (clamp_inside (F64.sub total p2)) as (_ & _ & E2).
    rewrite E1, E2 by lra.
    apply F64Facts.round2_strict; lra.
Qed.

Lemma noise_never_raises_score_witness :
  let m1 := <["noise_level" := 24]> (noisy_metrics 0) in
  let m2 := <["noise_level" := 30]> (noisy_metrics 0) in
  noise_penalty m1 == F64.mul (F64.sub 24 20) 0.5
  /\ noise_penalty m1 <= noise_penalty m2
  /\ _calculate_overall_score m2 [simulated_detection] "apple"
     < _calculate_overall_score m1 [simulated_detection] "apple".
Proof.
  destruct (noise_never_raises_score (noisy_metrics 0) [simulated_detection] "apple"
              24 30 ltac:(lra) ltac:(lra))
    as (P1 & _ & _ & _ & _ & M & _ & S).
  split; [exact P1|]. split; [exact M|].
  apply S; [lra | lra | by vm_compute | by vm_compute].
Defined.

(** The claim as written fails. Between noise levels 60 and 80, both above
    20, the score of a dark photograph does not drop: it is clamped to 0 both
    times. Between 20 and 20.001 the score, not clamped, stays 8.75: rounding
    to two decimals absorbs the penalty. And between the floats 27.98 and
    28.000000000000004, which are more than 0.02 apart, the score, not
    clamped, stays 27.8: the subtraction in binary64 loses what exceeds
    0.02. *)
Lemma noise_strict_decrease_fails :
  20 <= 60 /\ 60 < 80
  /\ _calculate_overall_score (<["noise_level" := 60]> (noisy_metrics 0)) [] "apple" == 0
  /\ _calculate_overall_score (<["noise_level" := 80]> (noisy_metrics 0)) [] "apple" == 0
  /\ ~ (_calculate_overall_score (<["noise_level" := 80]> (noisy_metrics 0)) [] "apple"
        < _calculate_overall_score (<["noise_level" := 60]> (noisy_metrics 0)) [] "apple")
  /\ _calculate_overall_score (<["noise_level" := 20]> (noisy_metrics 0))
       [simulated_detection] "apple" == 8.75
  /\ _calculate_overall_score (<["noise_level" := 20.001]> (noisy_metrics 0))
       [simulated_detection] "apple" == 8.75
  /\ F64.lit 27.98 + 0.02 < above_28
  /\ F64.round above_28 == above_28
  /\ _calculate_overall_score (sharp_metrics (F64.lit 27.98)) [] "apple"
     == F64.lit 27.8
  /\ _calculate_overall_score (sharp_metrics above_28) [] "apple" == F64.lit 27.8.
Proof.
  split; [lra|]. split; [lra|]. split_and!; by vm_compute.
Qed.

(** ** Size appropriateness *)

Section Size.

(** The selected contour is one of the list and none is larger. *)
Lemma max_by_area_greatest (best : Contour) (contours : list Contour) :
  let main := max_by_area best contours in
  main ∈ best :: contours
  /\ Forall (fun c => contourArea c <= contourArea main) (best :: contours).
Proof.
  revert best. induction contours as [|c rest IH]; intros best; simpl.
  - split; [apply list_elem_of_here|]. constructor; [lra | constructor].
  - destruct (IH (if Py.ltb (contourArea best) (contourArea c) then c else best))
      as [Hin Hall].
    apply Forall_cons in Hall as [Hhead Hrest].
    destruct (Py.ltb (contourArea best) (contourArea c)) eqn:E.
    + apply PyFacts.ltb_lt in E. split.
      * by apply list_elem_of_further.
      * constructor; [lra|]. by constructor.
    + apply PyFacts.ltb_ge in E. split.
      * apply elem_of_cons in Hin as [-> | Hin];
          [apply list_elem_of_here | by do 2 apply list_elem_of_further].
      * constructor; [done|]. constructor; [lra | done].
Qed.

(** The area reported is that of a largest contour found. *)
Lemma size_analysis_area (image : Image) (size_analysis : SizeMetrics) :
  _advanced_size_analysis image = inr size_analysis ->
  (exists c, c ∈ edge_contours image /\ contourArea c = area size_analysis)
  /\ Forall (fun c => contourArea c <= area size_analysis) (edge_contours image).
Proof.
  unfold _advanced_size_analysis.
  destruct (edge_contours image) as [|c0 rest]; [done|].
  destruct (max_by_area_greatest c0 rest) as [Hin Hall].
  destruct (boundingRect (max_by_area c0 rest)) as [[[x y] w] h].
  intros [= <-]. simpl. split; [|done]. by eexists.
Qed.

(** Every built-in standard has a positive, ordered size range. *)
Lemma size_range_ordered (product_type : string) (standards : ProductStandard) :
  product_standards !! product_type = Some standards ->
  0 < fst (size_range standards)
  /\ fst (size_range standards) <= snd (size_range standards).
Proof.
  intros H. unfold product_standards in H.
  apply elem_of_list_to_map_2 in H.
  repeat (apply elem_of_cons in H as [[= -> ->] | H];
          [simpl; lra|]).
  by apply not_elem_of_nil in H.
Qed.

End Size.

(** C6. For a product type with a standard whose size range is (min, max) and
    a measured area a, that of the largest contour found: size appropriateness
    is 100 when min <= a <= max, max(0, 100 - ((min - a)/min) * 100) when
    a < min and max(0, 100 - ((a - max)/max) * 100) when a > max. For an
    unknown product type it is 75. *)
Theorem size_appropriateness_by_range (image : Image) (product_type : string) :
  (forall (standards : ProductStandard) (min_size max_size : Q)
          (size_analysis : SizeMetrics),
      product_standards !! product_type = Some standards ->
      size_range standards = (min_size, max_size) ->
      _advanced_size_analysis image = inr size_analysis ->
      let a := area size_analysis in
      Forall (fun c => contourArea c <= a) (edge_contours image)
      /\ (min_size <= a <= max_size ->
          _analyze_size_appropriateness image product_type = 100)
      /\ (a < min_size ->
          _analyze_size_appropriateness image product_type
          = Py.max 0 (100 - ((min_size - a) / min_size * 100)))
      /\ (max_size < a ->
          _analyze_size_appropriateness image product_type
          = Py.max 0 (100 - ((a - max_size) / max_size * 100))))
  /\ (product_standards !! product_type = None ->
      _analyze_size_appropriateness image product_type = 75).
Proof.
  split.
  - intros standards min_size max_size size_analysis Hstd Hrange Hsize a.
    destruct (size_range_ordered _ _ Hstd) as [Hpos Hord].
    rewrite Hrange in Hpos, Hord. simpl in Hpos, Hord.
    split; [by apply size_analysis_area|].
    unfold _analyze_size_appropriateness. rewrite Hstd, Hsize, Hrange. fold a.
    split; [|split].
    + intros [H1 H2].
      apply PyFacts.leb_le in H1, H2. by rewrite H1, H2.
    + intros H.
      assert (E1 : Py.leb min_size a = false).
      { apply not_true_iff_false. intros E. apply PyFacts.leb_le in E. lra. }
      assert (E2 : Py.ltb a min_size = true) by by apply PyFacts.ltb_lt.
      by rewrite E1, E2.
    + intros H.
      assert (E1 : Py.leb a max_size = false).
      { apply not_true_iff_false. intros E. apply PyFacts.leb_le in E. lra. }
      assert (E2 : Py.ltb a min_size = false) by (apply PyFacts.ltb_ge; lra).
      rewrite E1, E2. by rewrite andb_false_r.
  - intros Hnone. unfold _analyze_size_appropriateness. by rewrite Hnone.
Qed.

Lemma size_appropriateness_by_range_witness :
  _analyze_size_appropriateness (with_contours white_image [round_contour]) "apple" = 100
  /\ _analyze_size_appropriateness white_image "durian" = 75.
Proof.
  split.
  - edestruct (proj1 (size_appropriateness_by_range
                        (with_contours white_image [round_contour]) "apple"))
      as (_ & Hin & _ & _); [reflexivity | reflexivity | reflexivity |].
    apply Hin. simpl. lra.
  - apply (proj2 (size_appropriateness_by_range white_image "durian")).
    reflexivity.
Defined.

(** ** Defects *)

Section Defects.

(** The counter of the dark-spot loop counts the areas above 100. *)
Lemma dark_spot_loop_count (areas : list Q) (n : nat) (total : Q) :
  fst (dark_spot_loop areas n total)
  = (n + length (List.filter (Py.ltb 100) areas))%nat.
Proof.
  revert n total. induction areas as [|a areas IH]; intros n total; simpl.
  - lia.
  - destruct (Py.ltb 100 a); rewrite IH; simpl; lia.
Qed.

Lemma dark_spots_record (image : Image) :
  _detect_dark_spots image = []
  \/ exists data,
       _detect_dark_spots image
       = [ {| defect_type := dark_spots;
              severity := expected_severity image dark_spots;
              defect_data := data |} ].
Proof.
  unfold _detect_dark_spots.
  pose proof (dark_spot_loop_count (dark_contour_areas image) 0 0) as Hn.
  destruct (dark_spot_loop _ _ _) as [n total]. simpl in Hn. subst n.
  fold (significant_spots image).
  destruct (0 <? significant_spots image)%nat; [right | by left].
  by eexists.
Qed.

Lemma color_record (image : Image) :
  _detect_color_inconsistencies image = []
  \/ exists data,
       _detect_color_inconsistencies image
       = [ {| defect_type := color_inconsistency;
              severity := expected_severity image color_inconsistency;
              defect_data := data |} ].
Proof.
  unfold _detect_color_inconsistencies.
  destruct (Py.ltb _ _); [right | by left]. by eexists.
Qed.

Lemma blemish_record (image : Image) :
  _detect_surface_blemishes image = []
  \/ exists data,
       _detect_surface_blemishes image
       = [ {| defect_type := surface_blemishes;
              severity := expected_severity image surface_blemishes;
              defect_data := data |} ].
Proof.
  unfold _detect_surface_blemishes.
  destruct (Py.ltb 5 _); [right | by left]. by eexists.
Qed.

Lemma texture_record (image : Image) :
  _detect_texture_issues image = []
  \/ exists data,
       _detect_texture_issues image
       = [ {| defect_type := texture_irregularity;
              severity := expected_severity image texture_irregularity;
              defect_data := data |} ].
Proof.
  unfold _detect_texture_issues.
  destruct (Py.ltb _ _); [right | by left]. by eexists.
Qed.

End Defects.

(** C10. For every image and product type the defect detector emits at most
    one record per defect type, so at most four records, and the severity of
    each is fixed by its type: for dark spots high when more than 5
    significant spots were counted and medium otherwise, for colour
    inconsistency medium, for surface blemishes high when the flagged
    percentage exceeds 15 and medium otherwise, for texture irregularity
    low. *)
Theorem defects_one_per_type (image : Image) (product_type : string) :
  let defects := _detect_defects image product_type in
  NoDup (map defect_type defects)
  /\ (length defects <= 4)%nat
  /\ Forall (fun d => severity d = expected_severity image (defect_type d)) defects.
Proof.
  unfold _detect_defects. simpl.
  destruct (dark_spots_record image) as [-> | [d1 ->]],
           (color_record image) as [-> | [d2 ->]],
           (blemish_record image) as [-> | [d3 ->]],
           (texture_record image) as [-> | [d4 ->]];
    simpl;
    (split; [apply (bool_decide_unpack _); reflexivity
            | split; [lia | by repeat constructor]]).
Qed.

(** ** Ranges of the metrics *)

Section Ranges.

Lemma sum_bounds (lo hi : Q) (xs : list Q) :
  Forall (fun x => lo <= x <= hi) xs ->
  lo * of_nat (length xs) <= Py.sum xs <= hi * of_nat (length xs).
Proof.
  unfold of_nat. induction 1 as [|x xs [Hlo Hhi] _ IH].
  - change (inject_Z (Z.of_nat (length (@nil Q)))) with 0.
    change (Py.sum []) with 0. lra.
  - cbn [length Py.sum fold_right].
    rewrite Nat2Z.inj_succ, <- Z.add_1_r, inject_Z_plus.
    change (fold_right Qplus 0 xs) with (Py.sum xs).
    change (inject_Z 1) with 1. nra.
Qed.

Lemma of_nat_pos (n : nat) : n <> 0%nat -> 0 < of_nat n.
Proof.
  intros H. unfold of_nat. change 0 with (inject_Z 0).
  rewrite <- Zlt_Qlt. lia.
Qed.

Lemma of_nat_nonneg (n : nat) : 0 <= of_nat n.
Proof.
  unfold of_nat. change 0 with (inject_Z 0). rewrite <- Zle_Qle. lia.
Qed.

Lemma of_nat_le (n m : nat) : (n <= m)%nat -> of_nat n <= of_nat m.
Proof. intros H. unfold of_nat. rewrite <- Zle_Qle. lia. Qed.

Lemma div_bounds (lo hi s n : Q) :
  0 < n -> lo * n <= s <= hi * n -> lo <= s / n <= hi.
Proof.
  intros Hn [H1 H2]. split.
  - by apply Qle_shift_div_l.
  - by apply Qle_shift_div_r.
Qed.

Lemma div_nonneg (a b : Q) : 0 <= a -> 0 <= b -> 0 <= a / b.
Proof.
  intros Ha Hb. destruct (Qlt_le_dec 0 b) as [Hpos|Hle].
  - apply Qle_shift_div_l; [done | lra].
  - assert (E : b == 0) by lra. rewrite E. unfold Qdiv.
    change (/ 0) with 0. lra.
Qed.

Lemma mean_bounds (lo hi : Q) (xs : list Q) :
  xs <> [] -> Forall (fun x => lo <= x <= hi) xs -> lo <= Py.mean xs <= hi.
Proof.
  intros Hne Hall. unfold Py.mean.
  apply div_bounds; [|by apply sum_bounds].
  apply of_nat_pos. by destruct xs.
Qed.

(** The mean of a non-empty list of bytes is within the byte range. *)
Lemma mean_Z_bounds (xs : list Z) :
  xs <> [] -> Forall (fun x => (0 <= x <= 255)%Z) xs ->
  0 <= mean_Z xs <= 255.
Proof.
  intros Hne Hall. unfold mean_Z, Py.mean.
  assert (Hq : Forall (fun x => 0 <= x <= 255) (map inject_Z xs)).
  { apply Forall_fmap. eapply Forall_impl; [exact Hall|].
    intros x [H0 H1]. simpl.
    change 0 with (inject_Z 0). change 255 with (inject_Z 255).
    by rewrite <- !Zle_Qle. }
  pose proof (sum_bounds 0 255 _ Hq) as Hs.
  apply div_bounds; [|exact Hs].
  apply of_nat_pos. rewrite length_map. by destruct xs.
Qed.

Lemma sum_nonneg (xs : list Q) : Forall (fun x => 0 <= x) xs -> 0 <= Py.sum xs.
Proof.
  induction 1 as [|x xs Hx _ IH]; simpl; [lra|].
  change (fold_right Qplus 0 xs) with (Py.sum xs). lra.
Qed.

Lemma count_nonzero_le (xs : list Q) : (count_nonzero xs <= length xs)%nat.
Proof. unfold count_nonzero. apply List.filter_length_le. Qed.

(** The standard deviation of a non-empty list of bytes is within the byte
    range. *)
Lemma std_Z_bounds (xs : list Z) :
  xs <> [] -> Forall (fun x => (0 <= x <= 255)%Z) xs -> 0 <= std_Z xs <= 255.
Proof.
  intros Hne Hall. unfold std_Z. cbv zeta.
  split; [apply F64Facts.sqrt_nonneg|].
  apply F64Facts.sqrt_upper; [lra | by vm_compute |].
  pose proof (mean_Z_bounds xs Hne Hall) as Hmean.
  set (mean := mean_Z xs) in *. clearbody mean.
  assert (H : 0 <= Py.mean (map (fun x => (inject_Z x - mean) * (inject_Z x - mean)) xs)
              <= 255 * 255).
  { apply mean_bounds; [by destruct xs|].
    apply Forall_fmap. eapply Forall_impl; [exact Hall|].
    intros x [H0 H1]. simpl.
    rewrite Zle_Qle in H0, H1.
    change (inject_Z 0) with 0 in H0. change (inject_Z 255) with 255 in H1.
    set (d := inject_Z x - mean).
    assert (Hd : -255 <= d <= 255) by (unfold d; lra). clearbody d.
    assert (H2 : 0 <= (255 - d) * (255 + d)) by (apply Qmult_le_0_compat; lra).
    split; nra. }
  lra.
Qed.

Lemma absdiff_bytes (xs ys : list Z) :
  Forall (fun x => (0 <= x <= 255)%Z) xs ->
  Forall (fun x => (0 <= x <= 255)%Z) ys ->
  Forall (fun x => (0 <= x <= 255)%Z) (absdiff xs ys).
Proof.
  intros Hxs. revert ys. induction Hxs as [|x xs Hx _ IH]; intros ys Hys.
  - constructor.
  - destruct Hys as [|y ys Hy Hys]; [constructor|].
    unfold absdiff. cbn [zip_with]. constructor; [lia|]. by apply IH.
Qed.

Lemma noise_level_range (image : Image) :
  Forall (fun x => (0 <= x <= 255)%Z) (gray image) ->
  Forall (fun x => (0 <= x <= 255)%Z) (gaussian_blur image) ->
  0 <= _calculate_noise_level image <= 255.
Proof.
  intros Hgray Hblur. unfold _calculate_noise_level. cbv zeta.
  pose proof (absdiff_bytes _ _ Hgray Hblur) as Hnoise.
  destruct (absdiff (gray image) (gaussian_blur image)) as [|x noise] eqn:E.
  - by vm_compute.
  - by apply mean_Z_bounds.
Qed.

Lemma focus_quality_nonneg (image : Image) : 0 <= _analyze_focus_quality image.
Proof.
  unfold _analyze_focus_quality. cbv zeta. unfold Py.mean.
  apply div_nonneg; [|apply of_nat_nonneg].
  apply sum_nonneg.
  generalize (sobel_y image). induction (sobel_x image) as [|gx gxs IH];
    intros [|gy gys]; cbn [zip_with]; try constructor.
  - apply F64Facts.sqrt_nonneg.
  - apply IH.
Qed.

Lemma sharpness_range (image : Image) :
  0 <= laplacian_var image -> 0 <= _calculate_sharpness image <= 100.
Proof.
  intros H. unfold _calculate_sharpness. split.
  - apply PyFacts.min_lower; [lra | PyFacts.qsolve].
  - apply PyFacts.min_upper.
Qed.

Lemma lighting_range (image : Image) :
  length (gray_hist image) = 256%nat ->
  Forall (fun x => 0 <= x) (gray_hist image) ->
  0 <= _analyze_lighting_quality image <= 100.
Proof.
  intros Hlen Hall. unfold _analyze_lighting_quality.
  split; [apply PyFacts.max_lower|].
  apply PyFacts.max_upper; [lra|].
  set (hist := gray_hist image) in *.
  assert (Hnz : of_nat (count_nonzero hist) <= 256).
  { change 256 with (of_nat 256). apply of_nat_le.
    rewrite <- Hlen. apply count_nonzero_le. }
  assert (Hover : 0 <= Py.sum (drop 240 hist) / Py.sum hist * 100).
  { apply Qmult_le_0_compat; [|lra].
    apply div_nonneg; apply sum_nonneg; [by apply Forall_drop | done]. }
  pose proof (PyFacts.max_lower (Py.sum (drop 240 hist) / Py.sum hist * 100)
                (Py.sum (take 15 hist) / Py.sum hist * 100)) as Hpen.
  fold (of_nat (count_nonzero hist)).
  set (penalty := Py.max _ _) in *. clearbody penalty.
  set (nz := of_nat _) in *. clearbody nz. PyFacts.qsolve.
Qed.

Lemma background_range (image : Image) :
  0 <= background_std_mean image -> 0 <= _analyze_background image <= 100.
Proof.
  intros H. unfold _analyze_background.
  destruct (_ && _); [|lra].
  split; [apply PyFacts.max_lower | apply PyFacts.max_upper; lra].
Qed.

Lemma color_accuracy_range (image : Image) (product_type : string) :
  0 <= _analyze_color_accuracy image product_type <= 100.
Proof.
  unfold _analyze_color_accuracy.
  destruct (product_standards !! product_type); [|lra].
  split; [|apply PyFacts.min_upper].
  apply PyFacts.min_lower; [lra|].
  apply Qmult_le_0_compat; [|lra]. apply Qmult_le_0_compat; [|lra].
  apply div_nonneg; apply of_nat_nonneg.
Qed.

Lemma size_appropriateness_range (image : Image) (product_type : string) :
  0 <= _analyze_size_appropriateness image product_type <= 100.
Proof.
  unfold _analyze_size_appropriateness.
  destruct (product_standards !! product_type) as [standards|] eqn:Hstd; [|lra].
  destruct (_advanced_size_analysis image) as [|size_analysis]; [lra|].
  destruct (size_range_ordered _ _ Hstd) as [Hpos Hord].
  destruct (size_range standards) as [min_size max_size].
  simpl in Hpos, Hord.
  destruct (Py.leb min_size _ && Py.leb _ max_size) eqn:E; [lra|].
  destruct (Py.ltb (area size_analysis) min_size) eqn:E2.
  - apply PyFacts.ltb_lt in E2.
    split; [apply PyFacts.max_lower|]. apply PyFacts.max_upper; [lra|].
    assert (0 <= (min_size - area size_analysis) / min_size)
      by (apply div_nonneg; lra).
    lra.
  - apply PyFacts.ltb_ge in E2.
    split; [apply PyFacts.max_lower|]. apply PyFacts.max_upper; [lra|].
    assert (Hmax : max_size <= area size_analysis).
    { apply andb_false_iff in E as [E|E].
      - apply not_true_iff_false in E. rewrite PyFacts.leb_le in E. lra.
      - apply not_true_iff_false in E. rewrite PyFacts.leb_le in E. lra. }
    assert (0 <= (area size_analysis - max_size) / max_size)
      by (apply div_nonneg; lra).
    lra.
Qed.

Lemma shape_regularity_range (image : Image) (product_type : string) :
  0 <= _analyze_shape_regularity image product_type <= 100.
Proof.
  unfold _analyze_shape_regularity.
  destruct (product_standards !! product_type) as [standards|]; [|lra].
  destruct (_advanced_size_analysis image) as [|size_analysis]; [lra|].
  split; [apply PyFacts.max_lower|]. apply PyFacts.max_upper; [lra|].
  pose proof (Qabs_nonneg (circularity size_analysis - shape_circularity standards)).
  unfold Py.abs. lra.
Qed.

End Ranges.

(** Membership in a literal list, by evaluation. *)
Ltac in_list := apply (bool_decide_unpack _); reflexivity.

(** C3, as the code has it. For every decoded image and every product type,
    each metric present in the metrics map is in its range: sharpness,
    lighting quality, background uniformity, colour accuracy, size
    appropriateness and shape regularity lie in [0,100]; brightness, contrast,
    saturation and noise level are kept on the 0-255 scale; focus quality is
    not negative. *)
Theorem metrics_in_range (image : Image) (product_type : string) :
  wf_image image ->
  forall (key : string) (v : Q),
    _comprehensive_quality_analysis image product_type !! key = Some v ->
    in_metric_range key v.
Proof.
  intros [[Hg1 Hg2] [Hh1 Hh2] Hlap Hblur [Hl1 Hl2] Hbg] key v.
  pose proof (std_Z_bounds _ Hg1 Hg2) as Hstd.
  pose proof (noise_level_range _ Hg2 Hblur) as Hnoise.
  pose proof (focus_quality_nonneg image) as Hfocus.
  assert (Hsat : 0 <= _calculate_saturation image <= 255).
  { unfold _calculate_saturation. apply mean_Z_bounds.
    - by destruct (hsv image).
    - by apply Forall_fmap. }
  pose proof (mean_Z_bounds _ Hg1 Hg2) as Hbright.
  pose proof (sharpness_range _ Hlap) as Hsharp.
  pose proof (lighting_range _ Hl1 Hl2) as Hlight.
  pose proof (background_range _ Hbg) as Hback.
  pose proof (color_accuracy_range image product_type) as Hcol.
  pose proof (size_appropriateness_range image product_type) as Hsize.
  pose proof (shape_regularity_range image product_type) as Hshape.
  unfold _comprehensive_quality_analysis, in_metric_range,
    percent_metrics, byte_metrics.
  destruct (product_standards !! product_type); intros H;
    repeat (apply lookup_insert_Some in H as [[<- <-] | [_ H]];
            [first [ left; split; [in_list | done]
                   | right; left; split; [in_list | done]
                   | right; right; by split ] |]);
    by rewrite lookup_empty in H.
Qed.

Lemma white_image_wf : wf_image white_image.
Proof.
  split; unfold white_image;
    cbn [gray hsv laplacian_var gaussian_blur gray_hist background_std_mean];
    try lra.
  - split; [done|]. by apply Forall_replicate.
  - split; [done|]. by apply Forall_replicate.
  - by apply Forall_replicate.
  - split; [reflexivity|].
    apply Forall_app. split; [by apply Forall_replicate | by repeat constructor].
Qed.

Lemma metrics_in_range_witness :
  in_metric_range "lighting_quality" (_analyze_lighting_quality white_image).
Proof.
  apply (metrics_in_range white_image "apple" white_image_wf).
  reflexivity.
Defined.

(** The claim as written fails for brightness: the white image has
    brightness 255. *)
Lemma brightness_exceeds_100 :
  exists v : Q,
    _comprehensive_quality_analysis white_image "apple" !! "brightness" = Some v
    /\ v == 255 /\ ~ (0 <= v <= 100).
Proof.
  eexists. split; [reflexivity|].
  assert (E : _calculate_brightness white_image == 255) by reflexivity.
  split; [exact E|]. rewrite E. lra.
Qed.

(** Saturation too is on the byte scale: a pure red image has 255. *)
Example saturation_of_red :
  _calculate_saturation
    {| gray := replicate 256 76%Z;
       hsv := replicate 256 (0, 255, 255)%Z;
       lab := replicate 256 (136, 208, 195)%Z;
       laplacian_var := 0; gaussian_blur := replicate 256 76%Z;
       sobel_x := replicate 256 0; sobel_y := replicate 256 0;
       gray_hist := replicate 76 0 ++ [256] ++ replicate 179 0;
       background_count := 256; background_std_mean := 0;
       edge_contours := []; dark_contour_areas := [];
       hue_std := 0; texture_energy := 1 |} == 255.
Proof. reflexivity. Qed.

(** ** Unknown product types *)

(** C8, as the code has it. For every decoded image and every product type
    without a standard: the metrics map has no colour-accuracy, size or shape
    entry (the test on the product type skips them), it has exactly the eight
    image metrics, the aggregator sums the components of sharpness,
    brightness, contrast, lighting and background (and of the detections, if
    any) and none for colour, size or shape, and the call returns its result
    without raising whenever the image libraries do not fail. Called on their
    own, the three product-specific analyzers return the generic 75. *)
Theorem unknown_product_type_metrics (image : Image) (product_type : string) :
  product_standards !! product_type = None ->
  let metrics := _comprehensive_quality_analysis image product_type in
  metrics !! "color_accuracy" = None
  /\ metrics !! "size_appropriateness" = None
  /\ metrics !! "shape_regularity" = None
  /\ dom metrics
     = list_to_set ["sharpness"; "brightness"; "contrast"; "saturation";
                    "noise_level"; "focus_quality"; "lighting_quality";
                    "background_uniformity"]%string
  /\ (forall objects : list Detection,
        map fst (score_components metrics objects)
        = ["sharpness"; "brightness"; "contrast"; "lighting"]%string
          ++ match objects with [] => [] | _ :: _ => ["detection"%string] end
          ++ ["background"%string])
  /\ _analyze_color_accuracy image product_type = 75
  /\ _analyze_size_appropriateness image product_type = 75
  /\ _analyze_shape_regularity image product_type = 75
  /\ forall (env : Env) (self : Analyzer) (image_path : string)
            (colors : ColorAnalysis),
       imread env image_path = Some image ->
       cv2_error env image = None ->
       _advanced_color_analysis env image product_type = Return colors ->
       exists result,
         analyze_image env self image_path product_type = Return result
         /\ result !! "quality_metrics" = Some (VMetrics metrics)
         /\ result !! "error" = None.
Proof.
  intros Hnone metrics.
  unfold metrics, _comprehensive_quality_analysis, _analyze_color_accuracy,
    _analyze_size_appropriateness, _analyze_shape_regularity.
  rewrite Hnone.
  split_and!; try reflexivity.
  { by intros [|d objects]. }
  intros env self image_path colors Hread Hcv Hcol.
  unfold analyze_image, analyze_image_body, on_array.
  rewrite Hread, Hcv. simpl.
  unfold _comprehensive_quality_analysis. rewrite Hnone, Hcol. simpl.
  eexists. split; [reflexivity|]. split; reflexivity.
Qed.

Lemma unknown_product_type_metrics_witness :
  let metrics := _comprehensive_quality_analysis white_image "generic" in
  metrics !! "color_accuracy" = None
  /\ map fst (score_components metrics [simulated_detection])
     = ["sharpness"; "brightness"; "contrast"; "lighting"; "detection";
        "background"]%string
  /\ _analyze_color_accuracy white_image "generic" = 75
  /\ exists result,
       analyze_image (plain_env (Some white_image)) plain_analyzer
                     "white.png" "generic" = Return result
       /\ result !! "quality_metrics" = Some (VMetrics metrics)
       /\ result !! "error" = None.
Proof.
  destruct (unknown_product_type_metrics white_image "generic" eq_refl)
    as (H1 & _ & _ & _ & Hnames & H5 & _ & _ & H8).
  split; [exact H1|]. split; [exact (Hnames [simulated_detection])|].
  split; [exact H5|].
  apply (H8 (plain_env (Some white_image)) plain_analyzer "white.png" plain_colors);
    reflexivity.
Defined.

(** The claim as written fails: analysed with the default product type
    ["generic"], the white image gets a metrics map without the three
    product-specific entries, so none of them is 75. *)
Lemma generic_type_has_no_product_metrics :
  exists result metrics,
    analyze_image (plain_env (Some white_image)) plain_analyzer
                  "white.png" "generic" = Return result
    /\ result !! "quality_metrics" = Some (VMetrics metrics)
    /\ metrics !! "color_accuracy" = None
    /\ metrics !! "size_appropriateness" = None
    /\ metrics !! "shape_regularity" = None.
Proof.
  eexists _, _. split; [reflexivity|]. split; [reflexivity|].
  split_and!; reflexivity.
Qed.

(** ** The detector adapter *)

Section Detector.

Variable names : gmap Z string.
Variable threshold : Q.

Lemma boxes_loop_confident (bs : list Box) (objects : list Detection) :
  Forall (confident threshold) objects ->
  Forall (confident threshold) (fst (boxes_loop names threshold bs objects)).
Proof.
  revert objects. induction bs as [|box bs IH]; intros objects Hall; simpl.
  - done.
  - destruct (Py.geb (box_conf box) threshold) eqn:E; [|by apply IH].
    apply PyFacts.geb_ge in E.
    destruct (names !! box_cls box); [|done].
    destruct (box_xyxy box !! 0%nat), (box_xyxy box !! 2%nat),
             (box_xyxy box !! 1%nat), (box_xyxy box !! 3%nat); try done.
    apply IH. apply Forall_app. split; [done|]. by constructor.
Qed.

Lemma results_loop_confident (results : list YoloResult) (objects : list Detection) :
  Forall (confident threshold) objects ->
  Forall (confident threshold) (fst (results_loop names threshold results objects)).
Proof.
  revert objects. induction results as [|r results IH]; intros objects Hall; simpl.
  - done.
  - destruct (boxes r) as [bs|]; [|by apply IH].
    pose proof (boxes_loop_confident bs objects Hall) as Hb.
    destruct (boxes_loop names threshold bs objects) as [objects' [e|]].
    + done.
    + by apply IH.
Qed.

End Detector.

(** A conditional append of another component does not change whether a
    name is in the list. *)
Lemma names_append_if (o : option Q) (points : Q -> Q) (key name : string)
    (components : list (string * Q)) :
  name <> key ->
  name ∈ map fst (match o with
                  | Some v => components ++ [(key, points v)]
                  | None => components
                  end)
  <-> name ∈ map fst components.
Proof.
  intros Hne. destruct o; [|done].
  rewrite map_app, elem_of_app. simpl. rewrite list_elem_of_singleton. tauto.
Qed.

(** The aggregator adds a detection component exactly for a non-empty list. *)
Lemma detection_component (metrics : gmap string Q) (objects : list Detection) :
  ("detection"%string ∈ map fst (score_components metrics objects)) <-> objects <> [].
Proof.
  unfold score_components.
  rewrite (names_append_if _ (fun v => F64.mul v (F64.lit 0.1))) by done.
  destruct objects as [|d objects].
  - rewrite (names_append_if _ (fun v => F64.mul v (F64.lit 0.1))) by done.
    rewrite (names_append_if _ (fun v => F64.mul v (F64.lit 0.1))) by done.
    rewrite (names_append_if _ (fun v => F64.mul v (F64.lit 0.2))) by done.
    rewrite (names_append_if _ (fun v => F64.mul v (F64.lit 0.1))) by done.
    rewrite (names_append_if _
      (fun v => F64.mul (Py.max 0 (F64.sub 100 (F64.mul (Py.abs (F64.sub v 65)) 1.5)))
                        (F64.lit 0.1))) by done.
    rewrite (names_append_if _
      (fun v => F64.mul (Py.max 0 (F64.sub 100 (F64.mul (Py.abs (F64.sub v 130)) 2)))
                        (F64.lit 0.1))) by done.
    rewrite (names_append_if _ (fun v => F64.mul v (F64.lit 0.1))) by done.
    simpl. split; [by intros H%not_elem_of_nil | done].
  - rewrite map_app, elem_of_app. simpl. rewrite list_elem_of_singleton.
    split; [done | by right].
Qed.

(** C2, as the code has it. When no detector could be loaded the adapter
    returns one simulated detection (class fruit, confidence 0.85) and never an
    error. With a loaded detector every detection returned has confidence at
    or above the configured threshold, and a detector call that raises gives
    the empty list instead of an error. The aggregator has a detection
    component exactly when the detection list is not empty: an empty list
    contributes no term. *)
Theorem detector_adapter (self : Analyzer) (image : Image) :
  (forall sentinel : string,
      model self = PlaceholderModel sentinel ->
      _detect_objects self image = [simulated_detection])
  /\ (forall run names,
        model self = YoloModel run names ->
        Forall (confident (confidence_threshold self)) (_detect_objects self image)
        /\ (forall e, run image = Raise e -> _detect_objects self image = [])
        /\ (run image = Return [] -> _detect_objects self image = []))
  /\ (forall (metrics : gmap string Q) (objects : list Detection),
        ("detection"%string ∈ map fst (score_components metrics objects)
         <-> objects <> [])
        /\ (objects = [] ->
            total_score metrics objects
            == weighted_sum metrics [] /\ detection_term objects = 0)).
Proof.
  split_and!.
  - intros sentinel Hm. unfold _detect_objects. by rewrite Hm.
  - intros run names Hm. unfold _detect_objects. rewrite Hm. split_and!.
    + destruct (run image) as [results|e]; [|constructor].
      apply results_loop_confident. constructor.
    + by intros e ->.
    + by intros ->.
  - intros metrics objects. split; [apply detection_component|].
    intros ->. split; [apply total_score_weighted_sum | done].
Qed.

Lemma detector_adapter_witness :
  _detect_objects plain_analyzer white_image = [simulated_detection]
  /\ Forall (confident 0.5) (_detect_objects loaded_analyzer white_image)
  /\ length (_detect_objects loaded_analyzer white_image) = 1%nat
  /\ total_score (noisy_metrics 0) [] == weighted_sum (noisy_metrics 0) [].
Proof.
  destruct (detector_adapter plain_analyzer white_image) as (H1 & _ & H3).
  destruct (detector_adapter loaded_analyzer white_image) as (_ & H2 & _).
  split; [by apply (H1 "placeholder_model"%string)|].
  split; [by eapply H2|].
  split; [reflexivity|].
  by apply (H3 (noisy_metrics 0) []).
Defined.

(** The claim as written fails: without a detector the adapter returns a
    detection it made up, and that detection stays below a threshold of 0.9. *)
Lemma placeholder_fabricates_detection :
  _detect_objects plain_analyzer white_image = [simulated_detection]
  /\ _detect_objects plain_analyzer white_image <> []
  /\ _detect_objects strict_analyzer white_image = [simulated_detection]
  /\ confidence simulated_detection < confidence_threshold strict_analyzer.
Proof.
  split_and!; [reflexivity | discriminate | reflexivity | reflexivity].
Qed.

(** ** The analysis call: failures *)

Lemma error_dict_error_only (message : string) :
  error_only {[ "error"%string := VStr message ]}.
Proof.
  split; [by eexists|]. by repeat constructor.
Qed.

(** The body raises only through the image libraries. *)
Lemma analyze_image_body_raises (env : Env) (self : Analyzer)
    (image_path product_type : string) (e : exn) :
  analyze_image_body env self image_path product_type = Raise e ->
  exists image,
    imread env image_path = Some image
    /\ (cv2_error env image = Some e
        \/ _advanced_color_analysis env image product_type = Raise e).
Proof.
  unfold analyze_image_body, on_array.
  destruct (imread env image_path) as [image|]; [|done].
  intros H. exists image. split; [done|].
  destruct (cv2_error env image) as [e'|]; simpl in H.
  - left. congruence.
  - right. destruct (_advanced_color_analysis env image product_type); [done|].
    simpl in H. congruence.
Qed.

(** C1, as the code has it. For every input that cannot be decoded the
    analysis call does not raise: it returns the dictionary holding only
    'error': 'Could not load image'. No score, grade, metrics or defects are
    in it, so no partial result is produced. *)
Theorem undecodable_returns_error (env : Env) (self : Analyzer)
    (image_path product_type : string) :
  imread env image_path = None ->
  analyze_image env self image_path product_type
  = Return {[ "error"%string := VStr "Could not load image" ]}
  /\ (forall e, analyze_image env self image_path product_type <> Raise e)
  /\ error_only {[ "error"%string := VStr "Could not load image" ]}.
Proof.
  intros Hread.
  assert (E : analyze_image env self image_path product_type
              = Return {[ "error"%string := VStr "Could not load image" ]}).
  { unfold analyze_image, analyze_image_body. by rewrite Hread. }
  split; [done|]. split; [|apply error_dict_error_only].
  intros e. by rewrite E.
Qed.

Lemma undecodable_returns_error_witness :
  analyze_image (plain_env None) plain_analyzer "empty.jpg" "apple"
  = Return {[ "error"%string := VStr "Could not load image" ]}
  /\ (forall e, analyze_image (plain_env None) plain_analyzer "empty.jpg" "apple"
                <> Raise e)
  /\ error_only {[ "error"%string := VStr "Could not load image" ]}.
Proof.
  apply (undecodable_returns_error (plain_env None) plain_analyzer
                                   "empty.jpg" "apple").
  reflexivity.
Defined.

(** The claim as written fails: a file that does not decode yields a
    returned dictionary and no ImageDecodeError. *)
Lemma undecodable_does_not_raise :
  imread (plain_env None) "empty.jpg" = None
  /\ analyze_image (plain_env None) plain_analyzer "empty.jpg" "apple"
     = Return {[ "error"%string := VStr "Could not load image" ]}
  /\ forall message : string,
       analyze_image (plain_env None) plain_analyzer "empty.jpg" "apple"
       <> Raise (Exception "ImageDecodeError" message).
Proof.
  split; [reflexivity|]. split; [reflexivity|]. discriminate.
Qed.

(** C9. For every path and product type [analyze_image] propagates no
    exception: it returns a dictionary. When the image cannot be loaded, or
    anything inside the call raises, that dictionary has an 'error' entry and
    none of overall_score, grade, quality_metrics, defects. *)
Theorem analyze_image_never_raises (env : Env) (self : Analyzer)
    (image_path product_type : string) :
  exists result,
    analyze_image env self image_path product_type = Return result
    /\ (imread env image_path = None ->
        result = {[ "error"%string := VStr "Could not load image" ]})
    /\ (forall e,
          analyze_image_body env self image_path product_type = Raise e ->
          result = {[ "error"%string := VStr (exn_message e) ]})
    /\ (forall image e,
          imread env image_path = Some image ->
          cv2_error env image = Some e
          \/ (cv2_error env image = None
              /\ _advanced_color_analysis env image product_type = Raise e) ->
          result = {[ "error"%string := VStr (exn_message e) ]})
    /\ (imread env image_path = None
        \/ (exists e, analyze_image_body env self image_path product_type = Raise e) ->
        error_only result)
    /\ (forall image colors,
          imread env image_path = Some image ->
          cv2_error env image = None ->
          _advanced_color_analysis env image product_type = Return colors ->
          result !! "error" = None
          /\ Forall (fun key => is_Some (result !! key)) result_fields).
Proof.
  unfold analyze_image, try_except.
  destruct (analyze_image_body env self image_path product_type)
    as [result|e] eqn:Hbody.
  - exists result. split; [done|].
    assert (Hnone : imread env image_path = None ->
                    result = {[ "error"%string := VStr "Could not load image" ]}).
    { intros Hread. unfold analyze_image_body in Hbody.
      rewrite Hread in Hbody. congruence. }
    split_and!; [done | done | | |].
    + intros image e Hread Hfail. exfalso.
      unfold analyze_image_body, on_array in Hbody. rewrite Hread in Hbody.
      destruct Hfail as [Hcv | [Hcv Hcol]]; rewrite Hcv in Hbody; simpl in Hbody;
        [done|]. rewrite Hcol in Hbody. done.
    + intros [Hread | [e He]]; [|done].
      rewrite (Hnone Hread). apply error_dict_error_only.
    + intros image colors Hread Hcv Hcol.
      unfold analyze_image_body, on_array in Hbody.
      rewrite Hread, Hcv in Hbody. simpl in Hbody. rewrite Hcol in Hbody.
      simpl in Hbody. injection Hbody as <-.
      split; [reflexivity|]. by repeat constructor.
  - exists {[ "error"%string := VStr (exn_message e) ]}. split; [done|].
    destruct (analyze_image_body_raises _ _ _ _ _ Hbody) as (image & Hread & Hsrc).
    split_and!.
    + intros Hnone. congruence.
    + intros e' [= ->]. done.
    + intros image' e' Hread' Hfail.
      assert (image' = image) as -> by congruence.
      unfold analyze_image_body, on_array in Hbody. rewrite Hread in Hbody.
      destruct Hfail as [Hcv | [Hcv Hcol]]; rewrite Hcv in Hbody; simpl in Hbody.
      * congruence.
      * rewrite Hcol in Hbody. simpl in Hbody. congruence.
    + intros _. apply error_dict_error_only.
    + intros image' colors Hread' Hcv Hcol. exfalso.
      assert (image' = image) as -> by congruence.
      destruct Hsrc as [Hsrc | Hsrc]; congruence.
Qed.

Lemma analyze_image_never_raises_witness :
  exists result,
    analyze_image failing_env plain_analyzer "photo.jpg" "apple" = Return result
    /\ result = {[ "error"%string := VStr "Assertion failed" ]}
    /\ error_only result.
Proof.
  destruct (analyze_image_never_raises failing_env plain_analyzer "photo.jpg" "apple")
    as (result & Hret & _ & Hraise & _ & Hfail & _).
  exists result. split; [exact Hret|]. split.
  - apply (Hraise (Exception "cv2.error" "Assertion failed")). reflexivity.
  - apply Hfail. right. eexists. reflexivity.
Defined.

(** ** Worked examples *)

Example grade_of_85 : _get_quality_grade plain_analyzer 85 = "A"%string.
Proof. reflexivity. Qed.

Example grade_of_69_5 : _get_quality_grade plain_analyzer 69.5 = "C"%string.
Proof. reflexivity. Qed.

(** A custom table listed in ascending order is read in descending order. *)
Example grade_custom_table :
  _get_quality_grade
    {| model := PlaceholderModel "placeholder_model"; confidence_threshold := 0.5;
       QUALITY_GRADES := Some [ ("low"%string, {| min_score := 0; grade_name := "" |});
                                ("top"%string, {| min_score := 90; grade_name := "" |});
                                ("mid"%string, {| min_score := 40; grade_name := "" |}) ] |}
    55 = "mid"%string.
Proof. reflexivity. Qed.

(** Rows with the same minimum keep the order of the table. *)
Example grade_tied_rows :
  _get_quality_grade
    {| model := PlaceholderModel "placeholder_model"; confidence_threshold := 0.5;
       QUALITY_GRADES := Some [ ("C"%string, {| min_score := 0; grade_name := "" |});
                                ("P"%string, {| min_score := 50; grade_name := "" |});
                                ("Q"%string, {| min_score := 50; grade_name := "" |}) ] |}
    60 = "P"%string.
Proof. reflexivity. Qed.

Example score_of_noisy_metrics :
  _calculate_overall_score (noisy_metrics 24) [simulated_detection] "apple" == 6.75.
Proof. reflexivity. Qed.

(** The sum is taken in binary64. On these metrics the components add up to
    50.5 and the penalty is 0.505 in exact arithmetic, a total of 49.995
    that would round to 50.00 and grade C; the floats give a total just
    below it, so the score is 49.99 and the grade D. *)
Example score_below_a_tie :
  let metrics : gmap string Q :=
    list_to_map [ ("sharpness"%string, F64.lit 59.95);
                  ("lighting_quality"%string, F64.lit 85.53);
                  ("color_accuracy"%string, F64.lit 98.35);
                  ("size_appropriateness"%string, F64.lit 92.6);
                  ("background_uniformity"%string, F64.lit 70.22);
                  ("noise_level"%string, F64.lit 21.01) ] in
  let score := _calculate_overall_score metrics [] "apple" in
  score == F64.lit 49.99
  /\ score < 49.995
  /\ _get_quality_grade plain_analyzer score = "D"%string.
Proof. split_and!; by vm_compute. Qed.

Example size_below_range :
  _analyze_size_appropriateness
    (with_contours white_image
       [ {| contourArea := 2500; arcLength := 200; boundingRect := (0, 0, 50, 50)%Z;
            minEnclosingCircle := (25, 25, 36); hullArea := 2500;
            m00 := 2500; m10 := 62500; m01 := 62500 |} ]) "apple" == 50.
Proof. reflexivity. Qed.

Example size_far_above_range :
  _analyze_size_appropriateness
    (with_contours white_image
       [ round_contour;
         {| contourArea := 120000; arcLength := 1400; boundingRect := (0, 0, 400, 300)%Z;
            minEnclosingCircle := (200, 150, 250); hullArea := 120000;
            m00 := 120000; m10 := 24000000; m01 := 18000000 |} ]) "apple" == 0.
Proof. reflexivity. Qed.

Example no_contour_size : _analyze_size_appropriateness white_image "apple" = 50.
Proof. reflexivity. Qed.

Example white_image_defects :
  map defect_type (_detect_defects white_image "apple") = [].
Proof. reflexivity. Qed.

(** * Further properties of the module *)

(** ** More on grading and the score *)

(** X1. Grading is monotone for every table: when two scores are graded and
    the lower one meets some row, the grade of the higher score has a
    minimum at least that of the grade of the lower score. *)
Theorem grade_monotone (self : Analyzer) (s1 s2 : Q) :
  s1 <= s2 ->
  Exists (met s1) (grades_of self) ->
  exists c1 c2,
    (_get_quality_grade self s1, c1) ∈ grades_of self
    /\ (_get_quality_grade self s2, c2) ∈ grades_of self
    /\ min_score c1 <= s1
    /\ min_score c2 <= s2
    /\ min_score c1 <= min_score c2.
Proof.
  intros Hle Hex1. unfold _get_quality_grade.
  set (rows := grades_of self) in *.
  assert (Hex1' : Exists (met s1) (sorted_desc rows)) by by rewrite sorted_desc_perm.
  assert (Hex2' : Exists (met s2) (sorted_desc rows)).
  { eapply Exists_impl; [exact Hex1'|]. unfold met. intros row Hrow. lra. }
  destruct (first_grade_descending s1 _ (sorted_desc_descending rows) Hex1')
    as (c1 & Hin1 & Hmet1 & _).
  destruct (first_grade_descending s2 _ (sorted_desc_descending rows) Hex2')
    as (c2 & Hin2 & Hmet2 & Hall2).
  exists c1, c2.
  rewrite Forall_forall in Hall2.
  assert (Hc : min_score c1 <= min_score c2).
  { apply (Hall2 _ Hin1). unfold met, threshold. simpl. lra. }
  set (g1 := first_grade s1 _) in *. set (g2 := first_grade s2 _) in *.
  clearbody g1 g2. rewrite sorted_desc_perm in Hin1, Hin2. done.
Qed.

Lemma grade_monotone_witness :
  exists c1 c2,
    (_get_quality_grade plain_analyzer 55, c1) ∈ grades_of plain_analyzer
    /\ (_get_quality_grade plain_analyzer 90, c2) ∈ grades_of plain_analyzer
    /\ min_score c1 <= 55
    /\ min_score c2 <= 90
    /\ min_score c1 <= min_score c2.
Proof.
  apply (grade_monotone plain_analyzer 55 90); [lra|].
  apply Exists_cons_tl, Exists_cons_tl, Exists_cons_hd.
  unfold met, threshold. simpl. lra.
Defined.

Section ScoreBounds.

Implicit Types (metrics : gmap string Q) (objects : list Detection).

Lemma noise_penalty_nonneg metrics : 0 <= noise_penalty metrics.
Proof.
  unfold noise_penalty. destruct (metrics !! "noise_level") as [n|]; [|lra].
  destruct (Py.ltb 20 n) eqn:E; [|lra]. apply PyFacts.ltb_lt in E.
  apply F64Facts.round_nonneg.
  assert (0 <= F64.mul (F64.sub n 20) 0.5); [|lra].
  apply F64Facts.round_nonneg.
  assert (0 <= F64.sub n 20); [|lra].
  apply F64Facts.round_nonneg. lra.
Qed.

(** There is a penalty exactly when the noise level read with its default
    is above 20. *)
Lemma noise_penalty_pos metrics :
  0 < noise_penalty metrics <-> Py.ltb 20 (get0 metrics "noise_level") = true.
Proof.
  unfold noise_penalty, get0.
  destruct (metrics !! "noise_level") as [n|].
  - change (default 0 (Some n)) with n.
    destruct (Py.ltb 20 n) eqn:E; [|split; [lra | done]].
    split; [done|]. intros _. apply PyFacts.ltb_lt in E.
    apply F64Facts.round_sign.
    assert (0 < F64.mul (F64.sub n 20) 0.5); [|lra].
    apply F64Facts.round_sign.
    assert (0 < F64.sub n 20); [|lra].
    apply F64Facts.round_sign. lra.
  - change (default 0 None) with 0. change (Py.ltb 20 0) with false.
    split; [lra | done].
Qed.

(** A weight is a float that is not negative. *)
Lemma weighted_mono (weight v v' : Q) :
  0 <= weight -> v <= v' -> weighted weight v <= weighted weight v'.
Proof.
  intros Hw Hv. unfold weighted. apply F64Facts.mul_mono; [|done].
  by apply F64Facts.lit_nonneg.
Qed.

(** A tenth of a score out of 100 is at most ten points. *)
Lemma weighted_tenth_upper (v : Q) : v <= 100 -> weighted 0.1 v <= 10.
Proof.
  intros Hv. apply Qle_trans with (weighted 0.1 100); [|by vm_compute].
  apply weighted_mono; [lra | done].
Qed.

Lemma normalised_range (optimum factor v : Q) :
  0 <= factor -> 0 <= normalised optimum factor v <= 100.
Proof.
  intros Hf. unfold normalised. split; [apply PyFacts.max_lower|].
  apply PyFacts.max_upper; [lra|].
  apply Qle_trans with (F64.sub 100 0); [|by vm_compute].
  apply F64Facts.sub_mono; [lra|].
  apply F64Facts.round_nonneg.
  pose proof (Qabs_nonneg (F64.sub v optimum)). unfold Py.abs. nra.
Qed.

(** The mean of confidences up to 1 can pass 1 by its rounding errors only,
    so the detection term stays within a millionth of ten points. *)
Lemma detection_term_upper objects :
  Forall (fun d => confidence d <= 1) objects ->
  detection_term objects <= 10.000001.
Proof.
  intros Hall. unfold detection_term.
  destruct objects as [|d objects]; [lra|].
  set (ds := d :: objects) in *.
  assert (Hm : F64.mean (map confidence ds) <= 1 * (1 + slack)).
  { apply F64Facts.mean_upper; [lra|]. by apply Forall_fmap. }
  apply Qle_trans with (F64.mul (F64.mul (1 * (1 + slack)) 100) (F64.lit 0.1));
    [|by vm_compute].
  apply F64Facts.mul_mono; [by vm_compute|].
  apply F64Facts.mul_mono; [lra | done].
Qed.

Lemma clamp_upper (x bound : Q) :
  0 <= bound -> x <= bound -> Py.max 0 (Py.min 100 x) <= bound.
Proof.
  intros Hb Hx. apply PyFacts.max_upper; [done|].
  destruct (PyFacts.min_spec 100 x) as [[? ->]|[? ->]]; lra.
Qed.

Lemma present_insert metrics (key key' : string) (v : Q) (points : Q -> Q) :
  present (<[key := v]> metrics) key' points
  = if decide (key = key') then points v else present metrics key' points.
Proof.
  unfold present. rewrite lookup_insert. by destruct (decide (key = key')).
Qed.

(** The score moves with the weighted sum when the penalty stays. *)
Lemma score_mono_in_sum metrics metrics' objects product_type :
  noise_penalty metrics = noise_penalty metrics' ->
  weighted_sum metrics objects <= weighted_sum metrics' objects ->
  _calculate_overall_score metrics objects product_type
  <= _calculate_overall_score metrics' objects product_type.
Proof.
  intros Hp Hs. unfold _calculate_overall_score, final_score. cbv zeta.
  apply F64Facts.round2_le, final_score_mono_in_raw.
  rewrite !total_score_weighted_sum, Hp.
  apply F64Facts.sub_mono; [done | lra].
Qed.

End ScoreBounds.

(** X2. An image analysed under a product type without a standard cannot
    score above 60, and with the built-in table its grade is C or D: the
    product-specific components, worth 40 points, are absent. The image is
    well formed and no detection is more confident than 1. *)
Theorem unknown_type_score_capped (self : Analyzer) (image : Image)
    (product_type : string) (objects : list Detection) :
  wf_image image ->
  product_standards !! product_type = None ->
  Forall (fun d => confidence d <= 1) objects ->
  QUALITY_GRADES self = None ->
  let metrics := _comprehensive_quality_analysis image product_type in
  let score := _calculate_overall_score metrics objects product_type in
  score <= 60 /\ _get_quality_grade self score ∈ low_letters.
Proof.
  intros [[Hg1 Hg2] [Hh1 Hh2] Hlap Hblur [Hl1 Hl2] Hbg]
         Hnone Hconf Hgrades metrics score.
  pose proof (sharpness_range _ Hlap) as Hsharp.
  pose proof (lighting_range _ Hl1 Hl2) as Hlight.
  pose proof (background_range _ Hbg) as Hback.
  pose proof (detection_term_upper _ Hconf) as Hdet.
  pose proof (noise_penalty_nonneg metrics) as Hpen.
  pose proof (normalised_range 130 2 (_calculate_brightness image) ltac:(lra)) as Hb.
  pose proof (normalised_range 65 1.5 (_calculate_contrast image) ltac:(lra)) as Hc.
  assert (Hlook : forall key, metrics !! key
            = (<["background_uniformity" := _analyze_background image]>
              (<["lighting_quality" := _analyze_lighting_quality image]>
              (<["focus_quality" := _analyze_focus_quality image]>
              (<["noise_level" := _calculate_noise_level image]>
              (<["saturation" := _calculate_saturation image]>
              (<["contrast" := _calculate_contrast image]>
              (<["brightness" := _calculate_brightness image]>
              (<["sharpness" := _calculate_sharpness image]>
                 (∅ : gmap string Q))))))))) !! key).
  { intros key. unfold metrics, _comprehensive_quality_analysis.
    by rewrite Hnone. }
  assert (Hsum : weighted_sum metrics objects <= 60.00001).
  { unfold weighted_sum, present. rewrite !Hlook.
    repeat (rewrite lookup_insert_eq || (rewrite lookup_insert_ne by done)).
    rewrite !lookup_empty.
    apply Qle_trans with (F64.sum [10; 10; 10; 10; 0; 0; 0; 10.000001; 10]);
      [|by vm_compute].
    apply F64Facts.sum_mono.
    repeat constructor; try lra; apply weighted_tenth_upper; lra. }
  assert (Hscore : score <= 60).
  { unfold score, _calculate_overall_score, final_score. cbv zeta.
    rewrite total_score_weighted_sum.
    apply Qle_trans with (F64.round2 60.00002); [|by vm_compute].
    apply F64Facts.round2_le, clamp_upper; [lra|].
    apply Qle_trans with (F64.sub 60.00001 0); [|by vm_compute].
    apply F64Facts.sub_mono; lra. }
  split; [done|]. clearbody score. clear - Hscore Hgrades.
  unfold _get_quality_grade, grades_of. rewrite Hgrades.
  change (sorted_desc default_grades) with default_grades.
  unfold default_grades, low_letters. cbn [first_grade min_score].
  assert (E1 : Py.geb score 85 = false).
  { apply not_true_iff_false. intros E. apply PyFacts.geb_ge in E. lra. }
  assert (E2 : Py.geb score 70 = false).
  { apply not_true_iff_false. intros E. apply PyFacts.geb_ge in E. lra. }
  rewrite E1, E2. destruct (Py.geb score 50), (Py.geb score 0); in_list.
Qed.

Lemma unknown_type_score_capped_witness :
  let metrics := _comprehensive_quality_analysis white_image "generic" in
  let score := _calculate_overall_score metrics [simulated_detection] "generic" in
  score <= 60 /\ _get_quality_grade plain_analyzer score ∈ low_letters.
Proof.
  apply (unknown_type_score_capped plain_analyzer white_image "generic"
           [simulated_detection] white_image_wf); [reflexivity | | reflexivity].
  constructor; [|constructor]. simpl. lra.
Defined.

(** X3. With everything else fixed, raising sharpness, lighting quality,
    colour accuracy, size appropriateness, shape regularity or background
    uniformity never lowers the overall score. *)
Theorem score_monotone_in_metric (metrics : gmap string Q)
    (objects : list Detection) (product_type key : string) (v v' : Q) :
  key ∈ linear_metrics ->
  v <= v' ->
  _calculate_overall_score (<[key := v]> metrics) objects product_type
  <= _calculate_overall_score (<[key := v']> metrics) objects product_type.
Proof.
  intros Hkey Hv.
  assert (Hp : forall x, noise_penalty (<[key := x]> metrics) = noise_penalty metrics).
  { intros x. unfold noise_penalty. rewrite lookup_insert_ne; [done|].
    intros ->. revert Hkey. unfold linear_metrics. by intros H%(bool_decide_pack _). }
  apply score_mono_in_sum; [by rewrite !Hp|].
  unfold weighted_sum. apply F64Facts.sum_mono. rewrite !present_insert.
  unfold linear_metrics in Hkey.
  repeat (apply elem_of_cons in Hkey as [-> | Hkey];
          [repeat constructor; repeat (case_decide; try done);
           try apply Qle_refl; apply weighted_mono; [lra | done] |]).
  by apply not_elem_of_nil in Hkey.
Qed.

Lemma score_monotone_in_metric_witness :
  _calculate_overall_score (<["color_accuracy" := 40]> (noisy_metrics 0)) [] "apple"
  <= _calculate_overall_score (<["color_accuracy" := 90]> (noisy_metrics 0)) [] "apple".
Proof.
  apply (score_monotone_in_metric (noisy_metrics 0) [] "apple" "color_accuracy" 40 90);
    [in_list | lra].
Defined.

(** ** More on the metrics *)

Section MoreMetrics.

Lemma filter_id_map {A} (f : A -> bool) (l : list A) :
  length (List.filter id (map f l)) = length (List.filter f l).
Proof.
  induction l as [|x l IH]; [done|].
  cbn [map List.filter]. unfold id at 1.
  destruct (f x); cbn [length]; by rewrite IH.
Qed.

Lemma of_nat_inj_le (n m : nat) : of_nat n <= of_nat m <-> (n <= m)%nat.
Proof. unfold of_nat. rewrite <- Zle_Qle. lia. Qed.

Lemma of_nat_mult2 (n : nat) : of_nat (2 * n) == 2 * of_nat n.
Proof.
  unfold of_nat. rewrite Nat2Z.inj_mul, inject_Z_mult. reflexivity.
Qed.

Lemma div_le_iff (a b c : Q) : 0 < c -> (a <= b / c <-> a * c <= b).
Proof.
  intros Hc. split; [|by apply Qle_shift_div_l].
  intros H. assert (E : b / c * c == b) by (field; lra).
  rewrite <- E. apply Qmult_le_compat_r; lra.
Qed.

Lemma sum_split (n : nat) (xs : list Q) :
  Py.sum xs == Py.sum (take n xs) + Py.sum (drop n xs).
Proof. rewrite <- sum_app. by rewrite take_drop. Qed.

Lemma sum_zero (xs : list Q) : Forall (fun x => x == 0) xs -> Py.sum xs == 0.
Proof.
  induction 1 as [|x xs Hx _ IH]; simpl; [reflexivity|].
  change (fold_right Qplus 0 xs) with (Py.sum xs). lra.
Qed.

Lemma count_nonzero_app (xs ys : list Q) :
  count_nonzero (xs ++ ys) = (count_nonzero xs + count_nonzero ys)%nat.
Proof. unfold count_nonzero. by rewrite List.filter_app, length_app. Qed.

Lemma count_nonzero_zero (xs : list Q) :
  Forall (fun x => x == 0) xs -> count_nonzero xs = 0%nat.
Proof.
  unfold count_nonzero. induction 1 as [|x xs Hx _ IH]; simpl; [done|].
  apply Qeq_bool_iff in Hx. by rewrite Hx.
Qed.

(** Lighting when all the mass sits in buckets that count as badly exposed
    and that are at most a tenth of the histogram. *)
Lemma lighting_zero (image : Image) :
  length (gray_hist image) = 256%nat ->
  0 < Py.sum (gray_hist image) ->
  (count_nonzero (gray_hist image) <= 25)%nat ->
  Py.sum (drop 240 (gray_hist image)) == Py.sum (gray_hist image)
  \/ Py.sum (take 15 (gray_hist image)) == Py.sum (gray_hist image) ->
  _analyze_lighting_quality image == 0.
Proof.
  intros Hlen Hpos Hnz Hall. unfold _analyze_lighting_quality.
  set (hist := gray_hist image) in *.
  set (over := Py.sum (drop 240 hist) / Py.sum hist * 100).
  set (under := Py.sum (take 15 hist) / Py.sum hist * 100).
  assert (Hpen : 100 <= Py.max over under).
  { destruct Hall as [E | E].
    - assert (over == 100) as Ho.
      { unfold over. rewrite E. field. lra. }
      pose proof (PyFacts.max_lower over under). lra.
    - assert (under == 100) as Hu.
      { unfold under. rewrite E. field. lra. }
      destruct (PyFacts.max_spec over under) as [[? ->]|[? ->]]; lra. }
  apply of_nat_inj_le in Hnz. fold (of_nat (count_nonzero hist)).
  set (nz := of_nat (count_nonzero hist)) in *. clearbody nz.
  set (penalty := Py.max over under) in *. clearbody penalty.
  assert (Hneg : nz / 256 * 100 - penalty <= 0).
  { change (of_nat 25) with 25 in Hnz. PyFacts.qsolve. }
  destruct (PyFacts.max_spec 0 (nz / 256 * 100 - penalty)) as [[? ->]|[? ->]]; lra.
Qed.

End MoreMetrics.

(** X4. For a product type with a standard and a non-empty image, colour
    accuracy is twice the percentage of pixels inside the ideal range, capped
    at 100: it is 100 exactly when at least half of the pixels are inside,
    and 0 exactly when none is. *)
Theorem color_accuracy_half (image : Image) (product_type : string)
    (standards : ProductStandard) :
  product_standards !! product_type = Some standards ->
  hsv image <> [] ->
  let inside := ideal_count image standards in
  let total := length (hsv image) in
  _analyze_color_accuracy image product_type
  == Py.min 100 (200 * of_nat inside / of_nat total)
  /\ (_analyze_color_accuracy image product_type == 100
      <-> (total <= 2 * inside)%nat)
  /\ (_analyze_color_accuracy image product_type == 0 <-> inside = 0%nat).
Proof.
  intros Hstd Hne inside total.
  assert (Hpos : 0 < of_nat total).
  { apply of_nat_pos. unfold total. by destruct (hsv image). }
  assert (E : _analyze_color_accuracy image product_type
              == Py.min 100 (200 * of_nat inside / of_nat total)).
  { unfold _analyze_color_accuracy. rewrite Hstd.
    rewrite filter_id_map, length_map. fold (ideal_count image standards).
    fold inside total. fold (of_nat inside) (of_nat total).
    apply min_proper; [reflexivity|]. field. lra. }
  split; [exact E|]. rewrite E.
  pose proof (of_nat_nonneg inside) as Hin.
  assert (Hq : 0 <= 200 * of_nat inside / of_nat total).
  { apply div_nonneg; lra. }
  split.
  - rewrite <- of_nat_inj_le, of_nat_mult2. split.
    + intros H.
      destruct (PyFacts.min_spec 100 (200 * of_nat inside / of_nat total))
        as [[Hlt Hm]|[Hge Hm]]; rewrite Hm in H; [lra|].
      apply div_le_iff in Hge; [|done]. lra.
    + intros H.
      assert (Hge : 100 <= 200 * of_nat inside / of_nat total).
      { apply Qle_shift_div_l; [done | lra]. }
      destruct (PyFacts.min_spec 100 (200 * of_nat inside / of_nat total))
        as [[Hlt ->]|[_ ->]]; lra.
  - split.
    + intros H.
      destruct (PyFacts.min_spec 100 (200 * of_nat inside / of_nat total))
        as [[Hlt Hm]|[Hge Hm]]; rewrite Hm in H; [|lra].
      assert (Hz : 200 * of_nat inside == 0).
      { rewrite <- (Qmult_div_r (200 * of_nat inside) (of_nat total)) by lra.
        unfold Qdiv in H |- *. rewrite H. ring. }
      assert (Hle : of_nat inside <= of_nat 0) by (change (of_nat 0) with 0; lra).
      apply of_nat_inj_le in Hle. lia.
    + intros ->. change (of_nat 0) with 0.
      assert (Hz : 200 * 0 / of_nat total == 0) by (field; lra).
      rewrite Hz. reflexivity.
Qed.

Lemma color_accuracy_half_witness :
  _analyze_color_accuracy white_image "apple" == 0
  <-> ideal_count white_image
        {| ideal_color_range := ((0, 100, 100)%Z, (10, 255, 255)%Z);
           size_range := (5000, 50000);
           shape_circularity := 7 # 10; defect_tolerance := 1 # 10 |} = 0%nat.
Proof.
  eapply (color_accuracy_half white_image "apple"); [reflexivity | discriminate].
Defined.

(** X5. An image whose pixels all fall in the sixteen brightest buckets of
    the histogram, or all in the fifteen darkest, has lighting quality 0. *)
Theorem lighting_zero_when_badly_exposed (image : Image) :
  length (gray_hist image) = 256%nat ->
  Forall (fun x => 0 <= x) (gray_hist image) ->
  0 < Py.sum (gray_hist image) ->
  Forall (fun x => x == 0) (take 240 (gray_hist image))
  \/ Forall (fun x => x == 0) (drop 15 (gray_hist image)) ->
  _analyze_lighting_quality image == 0.
Proof.
  intros Hlen Hall Hpos Hexp.
  apply (lighting_zero image); [done | done | |].
  - destruct Hexp as [Hz | Hz].
    + rewrite <- (take_drop 240 (gray_hist image)), count_nonzero_app.
      rewrite (count_nonzero_zero _ Hz).
      pose proof (count_nonzero_le (drop 240 (gray_hist image))) as Hc.
      rewrite length_drop, Hlen in Hc. lia.
    + rewrite <- (take_drop 15 (gray_hist image)), count_nonzero_app.
      rewrite (count_nonzero_zero _ Hz).
      pose proof (count_nonzero_le (take 15 (gray_hist image))) as Hc.
      rewrite length_take, Hlen in Hc. lia.
  - destruct Hexp as [Hz | Hz].
    + left. rewrite (sum_split 240 (gray_hist image)) at 1.
      rewrite (sum_zero _ Hz). lra.
    + right. rewrite (sum_split 15 (gray_hist image)) at 1.
      rewrite (sum_zero _ Hz). lra.
Qed.

Lemma lighting_zero_when_badly_exposed_witness :
  _analyze_lighting_quality white_image == 0.
Proof.
  apply (lighting_zero_when_badly_exposed white_image).
  - reflexivity.
  - apply Forall_app. split; [by apply Forall_replicate | by repeat constructor].
  - reflexivity.
  - left. unfold white_image. cbn [gray_hist].
    rewrite take_app_le by (rewrite length_replicate; lia).
    rewrite take_replicate. by apply Forall_replicate.
Defined.

(** ** More on shape and size *)

Section Shape.

(** The contour [max] selects: the first of those of largest area. *)
Lemma max_by_area_first (best : Contour) (contours : list Contour) :
  exists before after,
    best :: contours = before ++ max_by_area best contours :: after
    /\ Forall (fun c => contourArea c < contourArea (max_by_area best contours))
              before
    /\ Forall (fun c => contourArea c <= contourArea (max_by_area best contours))
              after.
Proof.
  revert best. induction contours as [|c rest IH]; intros best.
  - exists [], []. by repeat constructor.
  - cbn [max_by_area].
    destruct (Py.ltb (contourArea best) (contourArea c)) eqn:E.
    + apply PyFacts.ltb_lt in E.
      destruct (IH c) as (before & after & Heq & Hb & Ha).
      exists (best :: before), after. split; [simpl; f_equal; exact Heq|].
      split; [|done]. constructor; [|done].
      destruct before as [|c' before'].
      * injection Heq as <- _. done.
      * injection Heq as <- _. apply Forall_cons in Hb as [Hc _]. lra.
    + apply PyFacts.ltb_ge in E.
      destruct (IH best) as (before & after & Heq & Hb & Ha).
      destruct before as [|b' before'].
      * injection Heq as Hm <-. exists [], (c :: rest).
        split; [by rewrite <- Hm|]. split; [constructor|].
        rewrite <- Hm in Ha |- *. by constructor.
      * injection Heq as <- Hrest. exists (best :: c :: before'), after.
        split; [simpl; do 2 f_equal; exact Hrest|]. split; [|done].
        apply Forall_cons in Hb as [Hbest Hb].
        constructor; [done|]. constructor; [lra | done].
Qed.

End Shape.

(** X6. The size analysis reports 'No objects detected' exactly when edge
    detection finds no contour. Otherwise it measures the first contour of
    largest area: earlier contours are strictly smaller, later ones are not
    larger, and the circularity is 4 pi area / perimeter^2, or 0 for a
    contour without perimeter. *)
Theorem size_analysis_of_first_largest (image : Image) :
  (_advanced_size_analysis image = inl "No objects detected"%string
   <-> edge_contours image = [])
  /\ forall size_analysis : SizeMetrics,
       _advanced_size_analysis image = inr size_analysis ->
       exists before main after,
         edge_contours image = before ++ main :: after
         /\ Forall (fun c => contourArea c < contourArea main) before
         /\ Forall (fun c => contourArea c <= contourArea main) after
         /\ area size_analysis = contourArea main
         /\ perimeter size_analysis = arcLength main
         /\ (0 < arcLength main ->
             circularity size_analysis
             = 4 * np_pi * contourArea main / (arcLength main * arcLength main))
         /\ (arcLength main <= 0 -> circularity size_analysis = 0).
Proof.
  unfold _advanced_size_analysis.
  destruct (edge_contours image) as [|c0 rest].
  - split; [done|]. intros size_analysis [=].
  - destruct (max_by_area_first c0 rest) as (before & after & Heq & Hb & Ha).
    set (main := max_by_area c0 rest) in *.
    destruct (boundingRect main) as [[[x y] w] h].
    split; [split; discriminate|].
    intros size_analysis [= <-]. exists before, main, after.
    split_and!; try done; cbn [circularity].
    + intros Hp. apply PyFacts.ltb_lt in Hp. by rewrite Hp.
    + intros Hp. apply PyFacts.ltb_ge in Hp. by rewrite Hp.
Qed.

Lemma size_analysis_of_first_largest_witness :
  exists before main after,
    edge_contours apple_image = before ++ main :: after
    /\ Forall (fun c => contourArea c < contourArea main) before
    /\ Forall (fun c => contourArea c <= contourArea main) after
    /\ contourArea main = 6000.
Proof.
  destruct (proj2 (size_analysis_of_first_largest apple_image) _ eq_refl)
    as (before & main & after & Heq & Hb & Ha & Harea & _).
  exists before, main, after. by split_and!.
Defined.

(** X7. For a product type with a standard and an image with a contour,
    shape regularity is 100 minus a hundred times the distance between the
    measured and the expected circularity, floored at 0: it is 100 exactly
    when the two agree and 0 exactly when they differ by 1 or more. Without
    a contour it is 50. *)
Theorem shape_regularity_by_deviation (image : Image) (product_type : string)
    (standards : ProductStandard) :
  product_standards !! product_type = Some standards ->
  (forall size_analysis : SizeMetrics,
      _advanced_size_analysis image = inr size_analysis ->
      let deviation :=
        Qabs (circularity size_analysis - shape_circularity standards) in
      _analyze_shape_regularity image product_type
      = Py.max 0 (100 - deviation * 100)
      /\ (_analyze_shape_regularity image product_type == 100
          <-> circularity size_analysis == shape_circularity standards)
      /\ (_analyze_shape_regularity image product_type == 0 <-> 1 <= deviation))
  /\ (edge_contours image = [] ->
      _analyze_shape_regularity image product_type = 50).
Proof.
  intros Hstd. split.
  - intros size_analysis Hsize deviation.
    assert (E : _analyze_shape_regularity image product_type
                = Py.max 0 (100 - deviation * 100)).
    { unfold _analyze_shape_regularity. by rewrite Hstd, Hsize. }
    split; [exact E|]. rewrite E.
    pose proof (Qabs_nonneg (circularity size_analysis - shape_circularity standards))
      as Hnn. fold deviation in Hnn.
    assert (Hz : deviation == 0
                 <-> circularity size_analysis == shape_circularity standards).
    { unfold deviation. split.
      - intros H.
        pose proof (Qle_Qabs (circularity size_analysis - shape_circularity standards)).
        pose proof (Qle_Qabs (- (circularity size_analysis - shape_circularity standards))).
        rewrite Qabs_opp in *. lra.
      - intros H.
        assert (E0 : circularity size_analysis - shape_circularity standards == 0)
          by lra.
        rewrite E0. reflexivity. }
    rewrite <- Hz. clearbody deviation.
    destruct (PyFacts.max_spec 0 (100 - deviation * 100)) as [[? ->]|[? ->]];
      split; split; intros; lra.
  - intros Hnil. unfold _analyze_shape_regularity, _advanced_size_analysis.
    by rewrite Hstd, Hnil.
Qed.

Lemma shape_regularity_by_deviation_witness :
  _analyze_shape_regularity white_image "apple" = 50.
Proof.
  eapply (proj2 (shape_regularity_by_deviation white_image "apple" _ eq_refl)).
  reflexivity.
Defined.

(** ** More on defects, freshness and recommendations *)

Section DarkSpots.

(** The loop adds up the areas above 100. *)
Lemma dark_spot_loop_total (areas : list Q) (n : nat) (total : Q) :
  snd (dark_spot_loop areas n total)
  == total + Py.sum (List.filter (Py.ltb 100) areas).
Proof.
  revert n total. induction areas as [|a areas IH]; intros n total; simpl.
  - lra.
  - destruct (Py.ltb 100 a); rewrite IH; simpl; lra.
Qed.

End DarkSpots.

(** X8. The dark-spot detector reports nothing exactly when no dark contour
    has an area above 100. Otherwise it reports one record whose count is
    the number of such contours and whose total area is the sum of their
    areas; smaller contours are ignored. *)
Theorem dark_spots_count_and_area (image : Image) :
  let big := List.filter (Py.ltb 100) (dark_contour_areas image) in
  (_detect_dark_spots image = [] <-> big = [])
  /\ (big <> [] ->
      exists total_area,
        _detect_dark_spots image
        = [ {| defect_type := dark_spots;
               severity := if (5 <? length big)%nat then high else medium;
               defect_data := [("count"%string, of_nat (length big));
                               ("total_area"%string, total_area)] |} ]
        /\ total_area == Py.sum big).
Proof.
  intros big. unfold _detect_dark_spots.
  pose proof (dark_spot_loop_count (dark_contour_areas image) 0 0) as Hn.
  pose proof (dark_spot_loop_total (dark_contour_areas image) 0 0) as Ht.
  destruct (dark_spot_loop _ _ _) as [n total]. simpl in Hn, Ht.
  fold big in Hn, Ht. subst n.
  destruct big as [|b big'] eqn:Hbig.
  - split; [done|]. by intros [].
  - cbn [length]. split; [split; discriminate|].
    intros _. exists total. split; [reflexivity | lra].
Qed.

Lemma dark_spots_count_and_area_witness :
  let big := List.filter (Py.ltb 100) (dark_contour_areas spotted_image) in
  exists total_area,
    _detect_dark_spots spotted_image
    = [ {| defect_type := dark_spots;
           severity := if (5 <? length big)%nat then high else medium;
           defect_data := [("count"%string, of_nat (length big));
                           ("total_area"%string, total_area)] |} ]
    /\ total_area == Py.sum big.
Proof.
  apply (proj2 (dark_spots_count_and_area spotted_image)). discriminate.
Defined.

(** X9. The freshness indicators of a non-empty image always hold the five
    entries; the browning percentage and the freshness score lie in
    [0,100], whatever the other indicators are. *)
Theorem freshness_in_range (image : Image) (product_type : string) :
  hsv image <> [] ->
  let indicators := _analyze_freshness image product_type in
  dom indicators
  = list_to_set ["color_vibrancy"; "brightness"; "color_uniformity";
                 "browning_percentage"; "freshness_score"]%string
  /\ (exists v, indicators !! "freshness_score" = Some v /\ 0 <= v <= 100)
  /\ (exists b, indicators !! "browning_percentage" = Some b /\ 0 <= b <= 100)
  /\ indicators !! "color_uniformity" = Some (100 - hue_std image).
Proof.
  intros Hne indicators. unfold indicators, _analyze_freshness.
  split_and!.
  - reflexivity.
  - eexists. split; [reflexivity|].
    split; [|apply PyFacts.min_upper].
    apply PyFacts.min_lower; [lra | apply PyFacts.max_lower].
  - eexists. split; [reflexivity|].
    rewrite filter_id_map, length_map.
    set (n := length (hsv image)).
    set (k := length (List.filter brown (hsv image))).
    assert (Hk : (k <= n)%nat) by apply List.filter_length_le.
    assert (Hn : 0 < of_nat n) by (apply of_nat_pos; unfold n; by destruct (hsv image)).
    apply of_nat_inj_le in Hk. pose proof (of_nat_nonneg k) as Hk0.
    assert (Hq : 0 <= of_nat k / of_nat n <= 1).
    { apply div_bounds; [done|]. lra. }
    lra.
  - reflexivity.
Qed.

Lemma freshness_in_range_witness :
  exists v, _analyze_freshness white_image "apple" !! "freshness_score" = Some v
            /\ 0 <= v <= 100.
Proof.
  apply (freshness_in_range white_image "apple"). discriminate.
Defined.

(** X10. Every recommendation list ends with the three generic tips, after
    at most ten pieces of advice. The advice to reduce ISO is given exactly
    when the score carries a noise penalty. When the metrics have no colour
    accuracy, as for every product type without a standard, the advice on
    colour and white balance is always given. *)
Theorem recommendations_shape (metrics : gmap string Q) (product_type : string) :
  let recommendations := _generate_recommendations metrics product_type in
  (exists advice, recommendations = advice ++ generic_tips
                  /\ (length advice <= 10)%nat)
  /\ ("Reduce ISO settings to minimize noise"%string ∈ recommendations
      <-> 0 < noise_penalty metrics)
  /\ (metrics !! "color_accuracy" = None ->
      "Check white balance settings"%string ∈ recommendations).
Proof.
  intros recommendations. unfold recommendations, _generate_recommendations, get0.
  split_and!.
  - destruct (Py.ltb _ 50), (Py.ltb _ 60), (Py.ltb _ 70), (Py.ltb _ 70), (Py.ltb 20 _);
      eexists; (split; [reflexivity | simpl; lia]).
  - rewrite noise_penalty_pos. unfold get0.
    destruct (Py.ltb 20 (default 0 (metrics !! "noise_level"))) eqn:E.
    + split; [done | intros _].
      destruct (Py.ltb _ 50), (Py.ltb _ 60), (Py.ltb _ 70), (Py.ltb _ 70); in_list.
    + split; [|done].
      intros H. exfalso. revert H.
      destruct (Py.ltb _ 50), (Py.ltb _ 60), (Py.ltb _ 70), (Py.ltb _ 70);
        by intros H%(bool_decide_pack _).
  - intros ->. simpl. change (Py.ltb 0 70) with true.
    destruct (Py.ltb _ 50), (Py.ltb _ 60), (Py.ltb _ 70), (Py.ltb 20 _); in_list.
Qed.

Lemma recommendations_shape_witness :
  "Check white balance settings"%string
  ∈ _generate_recommendations
      (_comprehensive_quality_analysis white_image "generic") "generic".
Proof.
  apply (recommendations_shape
           (_comprehensive_quality_analysis white_image "generic") "generic").
  reflexivity.
Defined.

(** ** More on the detector adapter *)

Section DetectorLoop.

Variable names : gmap Z string.
Variable threshold : Q.

Lemma kept_app (bs bs' : list Box) :
  kept names threshold (bs ++ bs') = kept names threshold bs ++ kept names threshold bs'.
Proof. unfold kept. by rewrite List.filter_app, omap_app. Qed.

Lemma kept_cons_pass (box : Box) (bs : list Box) (d : Detection) :
  Py.geb (box_conf box) threshold = true ->
  detection_of names box = Some d ->
  kept names threshold (box :: bs) = d :: kept names threshold bs.
Proof.
  intros Hc Hd. unfold kept. cbn [List.filter]. rewrite Hc.
  cbn [omap list_omap]. by rewrite Hd.
Qed.

Lemma kept_cons_fail (box : Box) (bs : list Box) :
  Py.geb (box_conf box) threshold = true ->
  detection_of names box = None ->
  kept names threshold (box :: bs) = kept names threshold bs.
Proof.
  intros Hc Hd. unfold kept. cbn [List.filter]. rewrite Hc.
  cbn [omap list_omap]. by rewrite Hd.
Qed.

Lemma kept_cons_skip (box : Box) (bs : list Box) :
  Py.geb (box_conf box) threshold = false ->
  kept names threshold (box :: bs) = kept names threshold bs.
Proof. intros Hc. unfold kept. cbn [List.filter]. by rewrite Hc. Qed.

(** One turn of the loop over boxes, by what becomes of the box. *)
Lemma boxes_loop_cons (box : Box) (bs : list Box) (objects : list Detection) :
  (Py.geb (box_conf box) threshold = false ->
   boxes_loop names threshold (box :: bs) objects
   = boxes_loop names threshold bs objects)
  /\ (forall d, Py.geb (box_conf box) threshold = true ->
                detection_of names box = Some d ->
                boxes_loop names threshold (box :: bs) objects
                = boxes_loop names threshold bs (objects ++ [d]))
  /\ (Py.geb (box_conf box) threshold = true ->
      detection_of names box = None ->
      exists e, boxes_loop names threshold (box :: bs) objects = (objects, Some e)).
Proof.
  cbn [boxes_loop]. unfold detection_of. split_and!.
  - by intros ->.
  - intros d ->.
    destruct (names !! box_cls box); [|done].
    destruct (box_xyxy box !! 0%nat), (box_xyxy box !! 2%nat),
             (box_xyxy box !! 1%nat), (box_xyxy box !! 3%nat); try done.
    by intros [= <-].
  - intros ->.
    destruct (names !! box_cls box); [|by eexists].
    destruct (box_xyxy box !! 0%nat), (box_xyxy box !! 2%nat),
             (box_xyxy box !! 1%nat), (box_xyxy box !! 3%nat);
      try done; by eexists.
Qed.

(** The loop over boxes appends the detections of the boxes up to the first
    one it cannot build a detection from; all of them when nothing stops it. *)
Lemma boxes_loop_kept (bs : list Box) (objects : list Detection) :
  exists ds,
    fst (boxes_loop names threshold bs objects) = objects ++ ds
    /\ ds `prefix_of` kept names threshold bs
    /\ (snd (boxes_loop names threshold bs objects) = None ->
        ds = kept names threshold bs)
    /\ (Forall (buildable names threshold) bs ->
        snd (boxes_loop names threshold bs objects) = None).
Proof.
  revert objects. induction bs as [|box bs IH]; intros objects.
  - exists []. simpl. rewrite app_nil_r. by split_and!.
  - destruct (boxes_loop_cons box bs objects) as (Hskip & Hpass & Hfail).
    destruct (Py.geb (box_conf box) threshold) eqn:Hc.
    + destruct (detection_of names box) as [d|] eqn:Hd.
      * rewrite (Hpass d eq_refl eq_refl).
        destruct (IH (objects ++ [d])) as (ds & Hfst & Hpre & Hnone & Hwf).
        exists (d :: ds). rewrite (kept_cons_pass box bs d Hc Hd). split_and!.
        -- by rewrite Hfst, <- app_assoc.
        -- by apply prefix_cons.
        -- intros H. by rewrite (Hnone H).
        -- intros Hall. apply Hwf. by apply Forall_cons in Hall as [_ ?].
      * destruct (Hfail eq_refl eq_refl) as [e ->].
        exists []. simpl. rewrite app_nil_r. split_and!; try done.
        -- apply prefix_nil.
        -- intros Hall. apply Forall_cons in Hall as [Hb _].
           destruct (Hb Hc) as [d Hd']. congruence.
    + rewrite (Hskip eq_refl).
      destruct (IH objects) as (ds & Hfst & Hpre & Hnone & Hwf).
      exists ds. rewrite (kept_cons_skip box bs Hc). split_and!; try done.
      intros Hall. apply Hwf. by apply Forall_cons in Hall as [_ ?].
Qed.

Lemma results_loop_kept (results : list YoloResult) (objects : list Detection) :
  exists ds,
    fst (results_loop names threshold results objects) = objects ++ ds
    /\ ds `prefix_of` kept names threshold (all_boxes results)
    /\ (Forall (buildable names threshold) (all_boxes results) ->
        ds = kept names threshold (all_boxes results)).
Proof.
  revert objects. induction results as [|r results IH]; intros objects.
  - exists []. simpl. rewrite app_nil_r. by split_and!.
  - cbn [results_loop]. unfold all_boxes. cbn [map concat].
    fold (all_boxes results).
    destruct (boxes r) as [bs|]; cbn [default].
    + destruct (boxes_loop_kept bs objects) as (ds & Hfst & Hpre & Hnone & Hwf).
      rewrite kept_app.
      destruct (boxes_loop names threshold bs objects) as [objects' [e|]] eqn:Hloop;
        cbn [fst snd] in *.
      * exists ds. split_and!; [done | by apply prefix_app_r |].
        intros Hall. apply Forall_app in Hall as [Hall _].
        by specialize (Hwf Hall).
      * specialize (Hnone eq_refl). subst ds objects'.
        destruct (IH (objects ++ kept names threshold bs)) as (ds' & Hfst' & Hpre' & Hall').
        exists (kept names threshold bs ++ ds'). split_and!.
        -- by rewrite Hfst', <- app_assoc.
        -- by apply prefix_app.
        -- intros Hall. apply Forall_app in Hall as [_ Hall].
           by rewrite (Hall' Hall).
    + destruct (IH objects) as (ds & Hfst & Hpre & Hall).
      exists ds. by split_and!.
Qed.

End DetectorLoop.

(** X11. With a loaded detector that returns its results, the adapter lists,
    in order, the boxes whose confidence reaches the threshold, each with the
    class name of its class id and the midpoint of its box as centre. It
    lists everything when every such box has a known class and four
    coordinates; otherwise it stops at the first box that has not and keeps
    what it listed before. *)
Theorem detections_are_kept_boxes (self : Analyzer) (image : Image)
    (run : Image -> outcome (list YoloResult)) (names : gmap Z string)
    (results : list YoloResult) :
  model self = YoloModel run names ->
  run image = Return results ->
  let expected := kept names (confidence_threshold self) (all_boxes results) in
  _detect_objects self image `prefix_of` expected
  /\ (Forall (buildable names (confidence_threshold self)) (all_boxes results) ->
      _detect_objects self image = expected)
  /\ Forall (fun d => exists box,
                 box ∈ all_boxes results
                 /\ confidence_threshold self <= box_conf box
                 /\ detection_of names box = Some d)
            expected.
Proof.
  intros Hmodel Hrun expected. unfold _detect_objects. rewrite Hmodel, Hrun.
  destruct (results_loop_kept names (confidence_threshold self) results [])
    as (ds & Hfst & Hpre & Hall).
  rewrite Hfst. cbn [app]. split_and!; [done | done |].
  unfold expected, kept. apply Forall_forall. intros d Hd.
  apply list_elem_of_omap in Hd as (box & Hbox & Hdet).
  apply list_elem_of_In, List.filter_In in Hbox as [Hin Hc].
  exists box. split_and!; [by apply list_elem_of_In | by apply PyFacts.geb_ge | done].
Qed.

Lemma detections_are_kept_boxes_witness :
  _detect_objects loaded_analyzer white_image
  = [ {| det_class := "apple"; confidence := 0.9;
         bbox := [10; 20; 110; 220];
         center := [(10 + 110) / 2; (20 + 220) / 2] |} ].
Proof.
  eapply (proj1 (proj2 (detections_are_kept_boxes loaded_analyzer white_image
                          _ _ _ eq_refl eq_refl))).
  repeat constructor; intros _; by eexists.
Defined.

(** ** The service functions *)

Section Services.

Lemma analyze_image_total (env : Env) (self : Analyzer)
    (image_path product_type : string) :
  exists result, analyze_image env self image_path product_type = Return result.
Proof.
  unfold analyze_image, try_except.
  destruct (analyze_image_body env self image_path product_type); by eexists.
Qed.

(** What [analyze_image] returns: the dictionary of an error, or a result
    whose score is a number in [0,100], whose grade is a string and whose
    defects are those detected. *)
Lemma analyze_image_shape (env : Env) (self : Analyzer)
    (image_path product_type : string) (result : gmap string pyval) :
  analyze_image env self image_path product_type = Return result ->
  (exists message, result = {[ "error"%string := VStr message ]})
  \/ (exists (image : Image) (score : Q) (grade : string),
        imread env image_path = Some image
        /\ 0 <= score <= 100
        /\ result !! "overall_score" = Some (VFloat score)
        /\ result !! "grade" = Some (VStr grade)
        /\ result !! "defects" = Some (VDefects (_detect_defects image product_type))
        /\ result !! "error" = None
        /\ result !! "product_context" = None
        /\ quality_analysis_fields result
           = Return (with_overall_score default_fields (VFloat score))).
Proof.
  unfold analyze_image, analyze_image_body, try_except, on_array.
  destruct (imread env image_path) as [image|]; [|intros [= <-]; left; by eexists].
  destruct (cv2_error env image) as [e|]; simpl;
    [intros [= <-]; left; by eexists|].
  destruct (_advanced_color_analysis env image product_type) as [colors|e]; simpl;
    [|intros [= <-]; left; by eexists].
  intros [= <-]. right. eexists image, _, _.
  split; [done|]. split; [apply overall_score_range|].
  split_and!; reflexivity.
Qed.

End Services.

(** X12. The upload view hands the service the path of the stored image, a
    string, and the service asks it for a file name: whatever the image, the
    analysis is recorded as completed with overall score 0.0, grade D and no
    defect, every other field at its default, and nothing is stored. *)
Theorem upload_records_defaults (site : Site) (storage : gmap string string)
    (image_path : string) :
  upload_analysis site storage image_path = Return default_fields
  /\ analyze_product_image site storage (PathString image_path) "generic" None
     = ({[ "error"%string := VStr "'str' object has no attribute 'name'" ]}, storage).
Proof. split; reflexivity. Qed.

(** X13. Whatever the service is given, the view reads none of its result
    but the overall score: the result has no 'quality_grade',
    'defects_detected' or per-aspect score entry, so the grade recorded is D,
    the defect count 0 and the other fields their defaults. *)
Theorem view_reads_only_score (site : Site) (storage : gmap string string)
    (image_file : ImageFile) (product_type : string) (product : option Product) :
  exists score : pyval,
    quality_analysis_fields
      (fst (analyze_product_image site storage image_file product_type product))
    = Return (with_overall_score default_fields score).
Proof.
  unfold analyze_product_image, analyze_product_image_body.
  destruct image_file as [path|name content]; [by eexists|].
  destruct (storage_path site _) as [full_path|e]; [|by eexists].
  destruct (analyze_image_total (site_env site) (YOLOQualityAnalyzer (runtime site))
              full_path product_type) as [result Hresult].
  rewrite Hresult.
  destruct (analyze_image_shape _ _ _ _ _ Hresult)
    as [[message ->] | (image & score & grade & _ & _ & Hs & _ & _ & _ & _ & Hfields)].
  - destruct product; by eexists.
  - destruct product as [p|]; cbn [fst]; [|by eexists].
    exists (VFloat score). revert Hfields.
    unfold quality_analysis_fields, get_or.
    rewrite !lookup_insert_ne by done. done.
Qed.

(** X14. For an uploaded file stored under a fresh name, the service returns
    what [analyze_image] returns for the stored file, with the product
    context added when a product is given (also to the dictionary of a failed
    analysis), and removes the stored file again. When the storage cannot
    give a local path the dictionary of that error is returned and the stored
    file stays. *)
Theorem uploaded_file_analysis (site : Site) (storage : gmap string string)
    (name content product_type : string) (product : option Product) :
  let temp_path :=
    available_name site (dom storage)
      ("temp/analysis_" +:+ stamp site +:+ "_" +:+ name) in
  temp_path ∉ dom storage ->
  (forall full_path,
      storage_path site temp_path = Return full_path ->
      exists analysis_result,
        analyze_image (site_env site) (YOLOQualityAnalyzer (runtime site))
                      full_path product_type = Return analysis_result
        /\ analyze_product_image site storage (UploadedFile name content)
                                 product_type product
           = (match product with
              | Some p => <["product_context" := product_context p]> analysis_result
              | None => analysis_result
              end, storage)
        /\ (imread (site_env site) full_path = None ->
            analysis_result = {[ "error"%string := VStr "Could not load image" ]}))
  /\ (forall e,
        storage_path site temp_path = Raise e ->
        analyze_product_image site storage (UploadedFile name content)
                              product_type product
        = ({[ "error"%string := VStr (exn_message e) ]},
           <[temp_path := content]> storage)).
Proof.
  intros temp_path Hfresh. apply not_elem_of_dom in Hfresh.
  unfold analyze_product_image, analyze_product_image_body. fold temp_path.
  split.
  - intros full_path ->.
    destruct (analyze_image_total (site_env site) (YOLOQualityAnalyzer (runtime site))
                full_path product_type) as [result Hresult].
    exists result. rewrite Hresult. split; [done|].
    rewrite delete_insert_id by done. split.
    + by destruct product.
    + intros Hnone. unfold analyze_image, analyze_image_body in Hresult.
      rewrite Hnone in Hresult. simpl in Hresult. congruence.
  - by intros e ->.
Qed.

Lemma uploaded_file_analysis_witness :
  analyze_product_image (plain_site None) ∅ (UploadedFile "a.jpg" "not an image")
                        "apple" (Some bare_product)
  = (<["product_context" := product_context bare_product]>
       {[ "error"%string := VStr "Could not load image" ]}, ∅).
Proof.
  destruct (proj1 (uploaded_file_analysis (plain_site None) ∅ "a.jpg" "not an image"
                     "apple" (Some bare_product) ltac:(set_solver))
              _ eq_refl) as (result & _ & Hcall & Hfail).
  rewrite Hcall. by rewrite (Hfail eq_refl).
Defined.

Section Batch.

Lemma detect_defects_nodup (image : Image) (product_type : string) :
  NoDup (map defect_type (_detect_defects image product_type)).
Proof.
  unfold _detect_defects. simpl.
  destruct (dark_spots_record image) as [-> | [d1 ->]],
           (color_record image) as [-> | [d2 ->]],
           (blemish_record image) as [-> | [d3 ->]],
           (texture_record image) as [-> | [d4 ->]];
    simpl; apply (bool_decide_unpack _); reflexivity.
Qed.

Lemma analyze_image_entry_ok (env : Env) (self : Analyzer)
    (path product_type : string) (result : gmap string pyval) (i n : nat) :
  analyze_image env self path product_type = Return result ->
  entry_ok {| image_path := path; analysis := result;
              batch_index := i; total_images := n |}.
Proof.
  intros Hresult. unfold entry_ok. cbn [analysis].
  destruct (analyze_image_shape _ _ _ _ _ Hresult)
    as [[message ->] | (image & score & grade & _ & Hr & Hs & Hg & Hd & _)].
  - by left.
  - right. exists score, grade, (_detect_defects image product_type).
    do 4 (split; [done|]). apply detect_defects_nodup.
Qed.

End Batch.

(** X15. The batch analysis returns one entry per path, in order: entry i
    carries its path, the index i + 1, the number of paths, and exactly what
    [analyze_image] returns for that path with the one analyzer built for
    the batch. No path makes the batch fail. *)
Theorem batch_entries (site : Site) (image_paths : list string)
    (product_type : string) :
  let results := batch_analyze_images site image_paths product_type in
  length results = length image_paths
  /\ (forall (i : nat) (path : string),
        image_paths !! i = Some path ->
        exists result,
          analyze_image (site_env site) (YOLOQualityAnalyzer (runtime site))
                        path product_type = Return result
          /\ results !! i
             = Some {| image_path := path; analysis := result;
                       batch_index := i + 1;
                       total_images := length image_paths |})
  /\ Forall entry_ok results.
Proof.
  intros results. unfold results, batch_analyze_images. split_and!.
  - apply length_imap.
  - intros i path Hpath.
    destruct (analyze_image_total (site_env site) (YOLOQualityAnalyzer (runtime site))
                path product_type) as [result Hresult].
    exists result. split; [done|].
    rewrite list_lookup_imap, Hpath. simpl. by rewrite Hresult.
  - apply Forall_forall. intros entry Hentry.
    apply elem_of_lookup_imap in Hentry as (i & path & -> & Hpath).
    destruct (analyze_image_total (site_env site) (YOLOQualityAnalyzer (runtime site))
                path product_type) as [result Hresult].
    rewrite Hresult. by eapply analyze_image_entry_ok.
Qed.

(** ** The insights *)

Section SortedBy.

Context {A : Type} (key : A -> Q).

Lemma insert_by_desc_perm (x : A) (l : list A) : insert_by_desc key x l ≡ₚ x :: l.
Proof.
  induction l as [|y l IH]; simpl; [done|].
  destruct (Py.ltb _ _); [|done].
  rewrite IH. apply Permutation_swap.
Qed.

Lemma sorted_by_desc_perm (l : list A) : sorted_by_desc key l ≡ₚ l.
Proof.
  induction l as [|x l IH]; simpl; [done|].
  rewrite insert_by_desc_perm. by rewrite IH.
Qed.

Lemma insert_by_desc_descending (x : A) (l : list A) :
  descending_by key l -> descending_by key (insert_by_desc key x l).
Proof.
  unfold descending_by. induction 1 as [|y l Hs IH Hy]; simpl.
  - repeat constructor.
  - destruct (Py.ltb _ _) eqn:E.
    + apply PyFacts.ltb_lt in E. constructor; [done|].
      rewrite insert_by_desc_perm. constructor; [lra | done].
    + apply PyFacts.ltb_ge in E. constructor; [by constructor|].
      constructor; [done|].
      eapply Forall_impl; [exact Hy|]. intros z Hz. simpl in Hz. lra.
Qed.

Lemma sorted_by_desc_descending (l : list A) :
  descending_by key (sorted_by_desc key l).
Proof.
  induction l as [|x l IH]; simpl; [constructor|].
  by apply insert_by_desc_descending.
Qed.

End SortedBy.

Section Tally.

Lemma count_up_keys (k : DefectType) (d : list (DefectType * nat)) :
  map fst (count_up k d)
  = if bool_decide (k ∈ map fst d) then map fst d else map fst d ++ [k].
Proof.
  induction d as [|[k' n] d IH]; [done|].
  cbn [count_up map fst]. destruct (decide (k = k')) as [->|Hne].
  - rewrite bool_decide_eq_true_2; [done | apply list_elem_of_here].
  - cbn [map fst]. rewrite IH.
    destruct (bool_decide (k ∈ map fst d)) eqn:E.
    + apply bool_decide_eq_true in E.
      rewrite bool_decide_eq_true_2; [done | by apply list_elem_of_further].
    + apply bool_decide_eq_false in E.
      rewrite bool_decide_eq_false_2; [done|].
      intros [? | ?]%elem_of_cons; done.
Qed.

Lemma count_up_nodup (k : DefectType) (d : list (DefectType * nat)) :
  NoDup (map fst d) -> NoDup (map fst (count_up k d)).
Proof.
  intros Hd. rewrite count_up_keys. case_bool_decide; [done|].
  apply NoDup_app. split_and!; [done | | apply NoDup_singleton].
  intros x Hx. rewrite list_elem_of_singleton. by intros ->.
Qed.

Lemma fold_count_up_nodup (defects : list DefectRecord) (d : list (DefectType * nat)) :
  NoDup (map fst d) ->
  NoDup (map fst (fold_left (fun d defect => count_up (defect_type defect) d)
                            defects d)).
Proof.
  revert d. induction defects as [|r defects IH]; intros d Hd; [done|].
  simpl. by apply IH, count_up_nodup.
Qed.

Lemma total_count_insert_fresh (m : gmap string nat) (g : string) (n : nat) :
  m !! g = None -> total_count (<[g := n]> m) = (n + total_count m)%nat.
Proof.
  intros Hnone. unfold total_count.
  rewrite map_fold_insert_L; [done | | done]. intros. lia.
Qed.

Lemma total_count_incr (m : gmap string nat) (g : string) :
  total_count (<[g := (default 0%nat (m !! g) + 1)%nat]> m)
  = (total_count m + 1)%nat.
Proof.
  destruct (m !! g) as [n|] eqn:Hg; simpl.
  - rewrite <- (insert_delete_id m g n Hg) at 2.
    rewrite <- insert_delete_eq.
    rewrite !total_count_insert_fresh by apply lookup_delete_eq. lia.
  - rewrite total_count_insert_fresh by done. lia.
Qed.

Lemma list_min_spec (x : Q) (xs : list Q) :
  list_min x xs ∈ x :: xs /\ Forall (fun y => list_min x xs <= y) (x :: xs).
Proof.
  unfold list_min. revert x. induction xs as [|y xs IH]; intros x; simpl.
  - split; [apply list_elem_of_here|]. constructor; [lra | constructor].
  - destruct (IH (if Py.ltb y x then y else x)) as [Hin Hall].
    apply Forall_cons in Hall as [Hhead Hall].
    destruct (Py.ltb y x) eqn:E.
    + apply PyFacts.ltb_lt in E. split.
      * by apply list_elem_of_further.
      * constructor; [lra|]. by constructor.
    + apply PyFacts.ltb_ge in E. split.
      * apply elem_of_cons in Hin as [-> | Hin];
          [apply list_elem_of_here | by do 2 apply list_elem_of_further].
      * constructor; [done|]. constructor; [lra | done].
Qed.

Lemma list_max_spec (x : Q) (xs : list Q) :
  list_max x xs ∈ x :: xs /\ Forall (fun y => y <= list_max x xs) (x :: xs).
Proof.
  unfold list_max. revert x. induction xs as [|y xs IH]; intros x; simpl.
  - split; [apply list_elem_of_here|]. constructor; [lra | constructor].
  - destruct (IH (if Py.ltb x y then y else x)) as [Hin Hall].
    apply Forall_cons in Hall as [Hhead Hall].
    destruct (Py.ltb x y) eqn:E.
    + apply PyFacts.ltb_lt in E. split.
      * by apply list_elem_of_further.
      * constructor; [lra|]. by constructor.
    + apply PyFacts.ltb_ge in E. split.
      * apply elem_of_cons in Hin as [-> | Hin];
          [apply list_elem_of_here | by do 2 apply list_elem_of_further].
      * constructor; [done|]. constructor; [lra | done].
Qed.

Lemma entry_ok_readable (entry : BatchEntry) : entry_ok entry -> readable_entry entry.
Proof.
  intros [Hnone | (score & grade & defects & Hscore & Hr & Hg & Hd & _)];
    [by left | right].
  split; [by exists score|]. split; right; by eexists.
Qed.

Lemma tally_result_inv (t : Tally) (entry : BatchEntry) (n : nat) :
  readable_entry entry -> tally_inv t n ->
  exists t', tally_result t entry = Some t'
             /\ tally_inv t' (n + if scored entry then 1 else 0).
Proof.
  intros Hok (Hs & Hlen & Hcount & Hnd). unfold tally_result, scored.
  destruct Hok as [Hnone | ((score & Hscore & Hr) & Hg & Hd)].
  - rewrite Hnone. exists t. split; [done|].
    rewrite bool_decide_eq_false_2 by (by intros [? ?]).
    rewrite Nat.add_0_r. by split_and!.
  - rewrite Hscore.
    destruct Hg as [Hg | [grade Hg]], Hd as [Hd | [defects Hd]]; rewrite Hg, Hd;
      (eexists; split; [reflexivity|];
       rewrite bool_decide_eq_true_2 by (by eexists);
       unfold tally_inv; cbn [scores grades defect_types]; split_and!;
       [ apply Forall_app; split; [done|]; by constructor
       | rewrite length_app; simpl; lia
       | rewrite total_count_incr; lia
       | by apply fold_count_up_nodup ]).
Qed.

Lemma tally_loop_inv (results : list BatchEntry) (t : Tally) (n : nat) :
  Forall readable_entry results -> tally_inv t n ->
  exists t', tally_loop t results = Some t'
             /\ tally_inv t' (n + length (List.filter scored results)).
Proof.
  intros Hall. revert t n. induction Hall as [|entry results Hok _ IH]; intros t n Hinv.
  - exists t. simpl. by rewrite Nat.add_0_r.
  - destruct (tally_result_inv t entry n Hok Hinv) as (t1 & Ht1 & Hinv1).
    destruct (IH _ _ Hinv1) as (t' & Ht' & Hinv').
    exists t'. cbn [tally_loop List.filter]. rewrite Ht1. split; [done|].
    destruct (scored entry); cbn [length].
    + by replace (n + S (length (List.filter scored results)))%nat
        with (n + 1 + length (List.filter scored results))%nat by lia.
    + by rewrite Nat.add_0_r in Hinv'.
Qed.

Lemma tally_inv_empty :
  tally_inv {| scores := []; grades := ∅; defect_types := [] |} 0.
Proof. unfold tally_inv. simpl. split_and!; [constructor | done | done | constructor]. Qed.

End Tally.

Section Insights.

(** The facts of the insights on readable entries. *)
Lemma insights_facts (np_std : list Q -> Q) (results : list BatchEntry) :
  Forall readable_entry results ->
  exists insights,
    get_quality_insights np_std results = Some insights
    /\ (insights = NoInsights <-> results = [])
    /\ (insights = InsightsError "No valid analysis results"
        <-> results <> [] /\ List.filter scored results = [])
    /\ forall report,
         insights = InsightsReport report ->
         report_total_images report = length results
         /\ total_count (grade_distribution report)
            = length (List.filter scored results)
         /\ 0 <= report_min_score report
         /\ report_min_score report <= report_max_score report
         /\ report_max_score report <= 100
         /\ report_min_score report - 0.0051 <= average_score report
            <= report_max_score report + 0.0051
         /\ 0 <= average_score report <= 100
         /\ descending_by (fun item => of_nat (snd item)) (common_defects report)
         /\ NoDup (map fst (common_defects report))
         /\ quality_trend report ∈ ["improving"; "stable"]%string
         /\ (length (report_recommendations report) <= 3)%nat.
Proof.
  intros Hall. unfold get_quality_insights.
  destruct results as [|entry results'] eqn:Hres.
  - exists NoInsights. split; [done|]. split; [done|].
    split; [split; [discriminate | by intros [? _]] | discriminate].
  - rewrite <- Hres in *.
    destruct (tally_loop_inv results _ 0 Hall tally_inv_empty)
      as (t & -> & Hs & Hlen & Hcount & Hnd).
    rewrite Nat.add_0_l in Hlen, Hcount.
    assert (Hne : results <> []) by (rewrite Hres; discriminate).
    destruct (scores t) as [|first others] eqn:Hscores.
    + eexists. split; [reflexivity|]. split; [split; [discriminate | done]|].
      split; [|discriminate]. split; [intros _ | done].
      split; [done|]. simpl in Hlen. by apply length_zero_iff_nil.
    + eexists. split; [reflexivity|]. split; [split; [discriminate | done]|].
      split.
      { split; [discriminate|]. intros [_ Hf]. rewrite Hf in Hlen. done. }
      intros report [= <-].
      cbn [report_total_images grade_distribution report_min_score
           report_max_score average_score common_defects quality_trend
           report_recommendations].
      destruct (list_min_spec first others) as [Hmin_in Hmin].
      destruct (list_max_spec first others) as [Hmax_in Hmax].
      rewrite Forall_forall in Hs.
      pose proof (Hs _ Hmin_in) as Hmin_r. pose proof (Hs _ Hmax_in) as Hmax_r.
      rewrite Forall_forall in Hmin. pose proof (Hmin _ Hmax_in) as Hminmax.
      assert (Hlow : list_min first others * (1 - slack)
                     <= F64.mean (first :: others)).
      { apply F64Facts.mean_lower; [lra | done |]. by apply Forall_forall. }
      assert (Hhigh : F64.mean (first :: others)
                      <= list_max first others * (1 + slack)).
      { apply F64Facts.mean_upper; [lra | done]. }
      assert (Hnear : F64.mean (first :: others) - 0.00500001
                      <= F64.round2 (F64.mean (first :: others))
                      <= F64.mean (first :: others) + 0.00500001).
      { apply F64Facts.round2_near. unfold slack in Hlow, Hhigh. nra. }
      assert (Hin : 0 <= F64.round2 (F64.mean (first :: others)) <= 100).
      { split.
        - apply Qle_trans with (F64.round2 0); [by vm_compute|].
          apply F64Facts.round2_le. unfold slack in Hlow. nra.
        - apply Qle_trans with (F64.round2 (100 * (1 + slack))); [|by vm_compute].
          apply F64Facts.round2_le. unfold slack in Hhigh |- *. nra. }
      unfold slack in Hlow, Hhigh.
      split_and!; try done; try lra; try nra.
      * apply sorted_by_desc_descending.
      * by rewrite sorted_by_desc_perm.
      * destruct (_ && _); in_list.
      * destruct (Py.ltb _ 70), (_ && _); simpl; lia.
Qed.

Lemma filter_none {A} (f : A -> bool) (l : list A) :
  Forall (fun x => f x = false) l -> List.filter f l = [].
Proof.
  induction 1 as [|x l Hx _ IH]; simpl; [done|]. by rewrite Hx.
Qed.

End Insights.

(** X16. On entries that have no score, or a numeric score in [0,100] with
    or without a grade (a string) and defects (a list of records),
    [get_quality_insights] gives: nothing for an empty list; the error 'No
    valid analysis results' when no entry has a score; otherwise a report
    whose image total counts every entry, scored or not, whose grade counts
    add up to the number of scored entries (an entry without grade counting
    as D), whose minimum and maximum are ordered and within [0,100], whose
    average, a binary64 mean rounded to two decimals, is within [0,100] and
    within 0.0051 of the span from minimum to maximum, whose defect counts
    are listed once per type in descending order, and whose trend is
    'improving' or 'stable'. *)
Theorem insights_report (np_std : list Q -> Q) (results : list BatchEntry) :
  Forall readable_entry results ->
  exists insights,
    get_quality_insights np_std results = Some insights
    /\ (insights = NoInsights <-> results = [])
    /\ (insights = InsightsError "No valid analysis results"
        <-> results <> [] /\ List.filter scored results = [])
    /\ forall report,
         insights = InsightsReport report ->
         report_total_images report = length results
         /\ total_count (grade_distribution report)
            = length (List.filter scored results)
         /\ 0 <= report_min_score report
         /\ report_min_score report <= report_max_score report
         /\ report_max_score report <= 100
         /\ report_min_score report - 0.0051 <= average_score report
            <= report_max_score report + 0.0051
         /\ 0 <= average_score report <= 100
         /\ descending_by (fun item => of_nat (snd item)) (common_defects report)
         /\ NoDup (map fst (common_defects report))
         /\ quality_trend report ∈ ["improving"; "stable"]%string
         /\ (length (report_recommendations report) <= 3)%nat.
Proof. apply insights_facts. Qed.


Lemma insights_report_witness :
  exists insights,
    get_quality_insights (fun _ => 0) [failed_entry; scored_entry; bare_entry]
    = Some insights
    /\ forall report,
         insights = InsightsReport report ->
         report_total_images report = 3%nat
         /\ total_count (grade_distribution report) = 2%nat.
Proof.
  destruct (insights_report (fun _ => 0) [failed_entry; scored_entry; bare_entry])
    as (insights & Hget & _ & _ & Hreport).
  - constructor; [by left|]. constructor; [|constructor; [|constructor]].
    + right. split; [eexists; split; [reflexivity | lra]|].
      split; right; eexists; reflexivity.
    + right. split; [eexists; split; [reflexivity | lra]|].
      split; by left.
  - exists insights. split; [done|]. intros report Hr.
    destruct (Hreport report Hr) as (H1 & H2 & _). by split.
Defined.


(** X17. The insights over a batch are always defined. They are empty exactly
    when no path is given; they are the error 'No valid analysis results' when
    paths are given and none of them decodes; and a report counts every path
    in its image total, failed analyses included. *)
Theorem batch_insights (np_std : list Q -> Q) (site : Site)
    (image_paths : list string) (product_type : string) :
  let results := batch_analyze_images site image_paths product_type in
  exists insights,
    get_quality_insights np_std results = Some insights
    /\ (insights = NoInsights <-> image_paths = [])
    /\ (image_paths <> [] ->
        Forall (fun path => imread (site_env site) path = None) image_paths ->
        insights = InsightsError "No valid analysis results")
    /\ forall report,
         insights = InsightsReport report ->
         report_total_images report = length image_paths
         /\ (total_count (grade_distribution report) <= length image_paths)%nat
         /\ 0 <= average_score report <= 100.
Proof.
  intros results.
  assert (Hok : Forall readable_entry results).
  { apply Forall_forall. intros entry Hentry. apply entry_ok_readable.
    apply elem_of_lookup_imap in Hentry as (i & path & -> & Hpath).
    destruct (analyze_image_total (site_env site) (YOLOQualityAnalyzer (runtime site))
                path product_type) as [result Hresult].
    rewrite Hresult. by eapply analyze_image_entry_ok. }
  assert (Hlen : length results = length image_paths) by apply length_imap.
  destruct (insights_facts np_std results Hok)
    as (insights & Hget & Hempty & Herror & Hreport).
  exists insights. split; [done|]. split_and!.
  - rewrite Hempty. rewrite <- !length_zero_iff_nil. by rewrite Hlen.
  - intros Hne Hfail. apply Herror. split.
    + rewrite <- length_zero_iff_nil, Hlen, length_zero_iff_nil. done.
    + apply filter_none, Forall_forall. intros entry Hentry.
      apply elem_of_lookup_imap in Hentry as (i & path & -> & Hpath).
      rewrite Forall_forall in Hfail.
      assert (Hread : imread (site_env site) path = None).
      { apply Hfail. by eapply list_elem_of_lookup_2. }
      unfold analyze_image, analyze_image_body. rewrite Hread. reflexivity.
  - intros report Hr.
    destruct (Hreport report Hr) as (Htotal & Hcount & _ & _ & _ & _ & Havg & _).
    split_and!; [congruence | | apply Havg | apply Havg].
    rewrite Hcount, <- Hlen. apply List.filter_length_le.
Qed.

Lemma batch_insights_witness :
  exists insights,
    get_quality_insights (fun _ => 0)
      (batch_analyze_images (plain_site None) ["a.jpg"; "b.jpg"] "apple")
    = Some insights
    /\ insights = InsightsError "No valid analysis results".
Proof.
  destruct (batch_insights (fun _ => 0) (plain_site None) ["a.jpg"; "b.jpg"]%string
              "apple") as (insights & Hget & _ & Hfail & _).
  exists insights. split; [done|]. apply Hfail; [discriminate|].
  by repeat constructor.
Defined.

(** ** The dominant colours *)

Section Dominant.

Lemma sum_perm (xs ys : list Q) : xs ≡ₚ ys -> Py.sum xs == Py.sum ys.
Proof.
  induction 1; simpl; lra.
Qed.

(** The labels from [j] up to [m], split off at [j]. *)
Lemma count_split (labels : list nat) (j m : nat) :
  (j < m)%nat ->
  (length (List.filter (Nat.eqb j) labels)
   + length (List.filter (fun l => (S j <=? l)%nat && (l <? m)%nat) labels))%nat
  = length (List.filter (fun l => (j <=? l)%nat && (l <? m)%nat) labels).
Proof.
  intros Hjm. induction labels as [|l labels IH]; [done|].
  cbn [List.filter].
  destruct (Nat.eqb_spec j l) as [->|Hne].
  - replace (S l <=? l)%nat with false by (symmetry; apply Nat.leb_gt; lia).
    replace (l <=? l)%nat with true by (symmetry; apply Nat.leb_le; lia).
    replace (l <? m)%nat with true by (symmetry; apply Nat.ltb_lt; lia).
    cbn [andb length]. lia.
  - destruct (S j <=? l)%nat eqn:E1, (j <=? l)%nat eqn:E2, (l <? m)%nat;
      cbn [andb length]; try lia.
    + apply Nat.leb_le in E1. apply Nat.leb_gt in E2. lia.
    + apply Nat.leb_gt in E1. apply Nat.leb_le in E2. lia.
Qed.

Lemma of_nat_plus (n m : nat) : of_nat (n + m) == of_nat n + of_nat m.
Proof. unfold of_nat. by rewrite Nat2Z.inj_add, inject_Z_plus. Qed.

(** The percentages of the clusters from [j] on add up to the share of the
    labels from [j] on. *)
Lemma percentages_sum (labels : list nat) (total : Q) (centers : list pixel) (j : nat) :
  Py.sum (map snd
            (imap (fun i (color : pixel) =>
                     (color,
                      of_nat (length (List.filter (Nat.eqb (j + i)) labels))
                      / total * 100))
                  centers))
  == of_nat (length (List.filter
                       (fun l => (j <=? l)%nat && (l <? j + length centers)%nat)
                       labels))
     / total * 100.
Proof.
  revert j. induction centers as [|c centers IH]; intros j.
  - cbn [imap map length]. rewrite Nat.add_0_r.
    assert (E : List.filter (fun l => (j <=? l)%nat && (l <? j)%nat) labels = []).
    { apply filter_none, Forall_forall. intros l _.
      destruct (j <=? l)%nat eqn:E1, (l <? j)%nat eqn:E2; try done.
      apply Nat.leb_le in E1. apply Nat.ltb_lt in E2. lia. }
    rewrite E. cbn [length]. change (of_nat 0) with 0. change (Py.sum []) with 0.
    unfold Qdiv. rewrite !Qmult_0_l. reflexivity.
  - rewrite imap_cons. cbn [map snd length Py.sum fold_right].
    change (fold_right Qplus 0 ?l) with (Py.sum l).
    rewrite Nat.add_0_r.
    rewrite (imap_ext _ (fun i (color : pixel) =>
               (color, of_nat (length (List.filter (Nat.eqb (S j + i)) labels))
                       / total * 100))).
    2: { intros i x _. simpl. by rewrite Nat.add_succ_r. }
    rewrite IH.
    rewrite <- (count_split labels j (j + S (length centers))) by lia.
    replace (S j + length centers)%nat with (j + S (length centers))%nat by lia.
    rewrite of_nat_plus. unfold Qdiv. ring.
Qed.

Lemma count_all (labels : list nat) (k : nat) :
  Forall (fun l => (l < k)%nat) labels ->
  List.filter (fun l => (0 <=? l)%nat && (l <? k)%nat) labels = labels.
Proof.
  induction 1 as [|l labels Hl _ IH]; [done|].
  cbn [List.filter]. rewrite IH.
  replace (l <? k)%nat with true by (symmetry; apply Nat.ltb_lt; lia).
  done.
Qed.

End Dominant.

(** X18. The dominant colours are the cluster centres, each once, listed by
    descending share of the pixels; when every pixel carries the label of one
    of the centres the shares add up to 100. When the clustering raises, the
    list is empty. *)
Theorem dominant_colors_sorted
    (kmeans : Image -> nat -> outcome (list nat * list pixel))
    (image : Image) (k : nat) :
  (forall e, kmeans image k = Raise e ->
             _extract_dominant_colors kmeans image k = [])
  /\ forall labels centers,
       kmeans image k = Return (labels, centers) ->
       let dominant := _extract_dominant_colors kmeans image k in
       descending_by snd dominant
       /\ map fst dominant ≡ₚ centers
       /\ (labels <> [] ->
           Forall (fun l => (l < length centers)%nat) labels ->
           Py.sum (map snd dominant) == 100).
Proof.
  unfold _extract_dominant_colors. split; [by intros e ->|].
  intros labels centers ->. cbn zeta. split_and!.
  - apply sorted_by_desc_descending.
  - rewrite sorted_by_desc_perm.
    assert (E : forall (f : nat -> pixel -> Q) (cs : list pixel),
               map fst (imap (fun i color => (color, f i color)) cs) = cs).
    { intros f cs. revert f. induction cs as [|c cs IH]; intros f; [done|].
      rewrite imap_cons. cbn [map fst]. f_equal. apply (IH (fun i => f (S i))). }
    by rewrite (E (fun i _ => of_nat (length (List.filter (Nat.eqb i) labels))
                             / of_nat (length labels) * 100)).
  - intros Hne Hall.
    rewrite (sum_perm _ _ (Permutation_map snd (sorted_by_desc_perm snd _))).
    pose proof (percentages_sum labels (of_nat (length labels)) centers 0) as Hsum.
    cbn [Nat.add] in Hsum. rewrite Hsum.
    rewrite (count_all labels (length centers) Hall).
    assert (Hpos : 0 < of_nat (length labels)).
    { apply of_nat_pos. by destruct labels. }
    field. lra.
Qed.

Lemma dominant_colors_sorted_witness :
  let dominant := _extract_dominant_colors two_clusters white_image 3 in
  descending_by snd dominant
  /\ map fst dominant ≡ₚ [(250, 250, 250)%Z; (20, 30, 200)%Z]
  /\ Py.sum (map snd dominant) == 100.
Proof.
  destruct (proj2 (dominant_colors_sorted two_clusters white_image 3) _ _ eq_refl)
    as (H1 & H2 & H3).
  split; [exact H1|]. split; [exact H2|].
  apply H3; [discriminate|]. repeat constructor.
Defined.

(** ** The optimum of brightness and contrast *)

Section Optimum.

Implicit Types (metrics : gmap string Q) (objects : list Detection).

Lemma in_append_if {A} (o : option Q) (f : Q -> A) (x : A) (l : list A) :
  x ∈ l -> x ∈ match o with Some v => l ++ [f v] | None => l end.
Proof. intros H. destruct o; [|done]. apply elem_of_app. by left. Qed.

(** The component the aggregator appends for a brightness and for a
    contrast that are present. *)
Lemma brightness_component metrics objects (b : Q) :
  metrics !! "brightness" = Some b ->
  ("brightness"%string, weighted 0.1 (normalised 130 2 b))
  ∈ score_components metrics objects.
Proof.
  intros H. unfold score_components. rewrite H.
  apply (in_append_if _ (fun v => ("background"%string, F64.mul v (F64.lit 0.1)))).
  assert (D : forall (l : list (string * Q)) x,
             x ∈ l ->
             x ∈ match objects with
                 | [] => l
                 | _ :: _ =>
                     l ++ [("detection"%string,
                            F64.mul (F64.mul (F64.mean (map confidence objects)) 100)
                                    (F64.lit 0.1))]
                 end).
  { intros l x Hx. destruct objects; [done|]. apply elem_of_app. by left. }
  apply D.
  apply (in_append_if _ (fun v => ("shape"%string, F64.mul v (F64.lit 0.1)))).
  apply (in_append_if _ (fun v => ("size"%string, F64.mul v (F64.lit 0.1)))).
  apply (in_append_if _ (fun v => ("color_accuracy"%string, F64.mul v (F64.lit 0.2)))).
  apply (in_append_if _ (fun v => ("lighting"%string, F64.mul v (F64.lit 0.1)))).
  apply (in_append_if _
    (fun v => ("contrast"%string,
               F64.mul (Py.max 0 (F64.sub 100 (F64.mul (Py.abs (F64.sub v 65)) 1.5)))
                       (F64.lit 0.1)))).
  apply elem_of_app. right. apply list_elem_of_here.
Qed.

Lemma contrast_component metrics objects (c : Q) :
  metrics !! "contrast" = Some c ->
  ("contrast"%string, weighted 0.1 (normalised 65 1.5 c))
  ∈ score_components metrics objects.
Proof.
  intros H. unfold score_components. rewrite H.
  apply (in_append_if _ (fun v => ("background"%string, F64.mul v (F64.lit 0.1)))).
  assert (D : forall (l : list (string * Q)) x,
             x ∈ l ->
             x ∈ match objects with
                 | [] => l
                 | _ :: _ =>
                     l ++ [("detection"%string,
                            F64.mul (F64.mul (F64.mean (map confidence objects)) 100)
                                    (F64.lit 0.1))]
                 end).
  { intros l x Hx. destruct objects; [done|]. apply elem_of_app. by left. }
  apply D.
  apply (in_append_if _ (fun v => ("shape"%string, F64.mul v (F64.lit 0.1)))).
  apply (in_append_if _ (fun v => ("size"%string, F64.mul v (F64.lit 0.1)))).
  apply (in_append_if _ (fun v => ("color_accuracy"%string, F64.mul v (F64.lit 0.2)))).
  apply (in_append_if _ (fun v => ("lighting"%string, F64.mul v (F64.lit 0.1)))).
  apply elem_of_app. right. apply list_elem_of_here.
Qed.

(** Rounding keeps a value at least as far from 0 as a float it exceeds. *)
Lemma abs_round_lower (d x : Q) :
  F64.round d == d -> d <= Qabs x -> d <= Qabs (F64.round x).
Proof.
  intros Hd Hx. destruct (Qlt_le_dec x 0) as [L|L].
  - rewrite Qabs_neg in Hx by lra.
    pose proof (F64Facts.round_mono _ _ Hx) as H.
    rewrite F64Facts.round_opp, Hd in H.
    pose proof (F64Facts.round_nonpos x ltac:(lra)).
    rewrite Qabs_neg by done. done.
  - rewrite Qabs_pos in Hx by done.
    pose proof (F64Facts.round_mono _ _ Hx) as H. rewrite Hd in H.
    pose proof (F64Facts.round_nonneg x L).
    rewrite Qabs_pos by done. done.
Qed.

(** A metric far enough from its optimum is normalised to 0. *)
Lemma normalised_far (optimum factor d v : Q) :
  0 <= factor -> F64.round d == d -> 100 <= F64.mul d factor ->
  d <= Qabs (v - optimum) ->
  normalised optimum factor v = 0.
Proof.
  intros Hf Hd Hfar Hv. unfold normalised, Py.max.
  assert (H : F64.sub 100 (F64.mul (Py.abs (F64.sub v optimum)) factor) <= 0).
  { apply Qle_trans with (F64.sub 100 100); [|by vm_compute].
    apply F64Facts.sub_mono; [lra|].
    apply Qle_trans with (F64.mul d factor); [done|].
    apply F64Facts.mul_mono; [done|]. by apply abs_round_lower. }
  apply PyFacts.ltb_ge in H. by rewrite H.
Qed.

End Optimum.

(** X19. With everything else fixed, no brightness scores higher than 130
    and no contrast higher than 65: there the component the aggregator adds
    is worth its full ten points. A brightness 50 or more away from 130, and
    a contrast 67 or more away from 65, add a component worth nothing. *)
Theorem score_peaks_at_optimum (metrics : gmap string Q)
    (objects : list Detection) (product_type : string) (v : Q) :
  _calculate_overall_score (<["brightness" := v]> metrics) objects product_type
  <= _calculate_overall_score (<["brightness" := 130]> metrics) objects product_type
  /\ _calculate_overall_score (<["contrast" := v]> metrics) objects product_type
     <= _calculate_overall_score (<["contrast" := 65]> metrics) objects product_type
  /\ (exists points,
        ("brightness"%string, points)
        ∈ score_components (<["brightness" := 130]> metrics) objects
        /\ points == 10)
  /\ (exists points,
        ("contrast"%string, points)
        ∈ score_components (<["contrast" := 65]> metrics) objects
        /\ points == 10)
  /\ (50 <= Qabs (v - 130) ->
      exists points,
        ("brightness"%string, points)
        ∈ score_components (<["brightness" := v]> metrics) objects
        /\ points == 0)
  /\ (67 <= Qabs (v - 65) ->
      exists points,
        ("contrast"%string, points)
        ∈ score_components (<["contrast" := v]> metrics) objects
        /\ points == 0).
Proof.
  assert (Hp : forall key x, key <> "noise_level"%string ->
             noise_penalty (<[key := x]> metrics) = noise_penalty metrics).
  { intros key x Hne. unfold noise_penalty. by rewrite lookup_insert_ne. }
  pose proof (normalised_range 130 2 v ltac:(lra)) as [_ Hb].
  pose proof (normalised_range 65 1.5 v ltac:(lra)) as [_ Hc].
  split_and!.
  - apply score_mono_in_sum; [by rewrite !Hp|].
    unfold weighted_sum. apply F64Facts.sum_mono. rewrite !present_insert.
    repeat constructor; repeat (case_decide; try done); try apply Qle_refl.
    apply Qle_trans with (weighted 0.1 100); [|by vm_compute].
    apply weighted_mono; [lra | done].
  - apply score_mono_in_sum; [by rewrite !Hp|].
    unfold weighted_sum. apply F64Facts.sum_mono. rewrite !present_insert.
    repeat constructor; repeat (case_decide; try done); try apply Qle_refl.
    apply Qle_trans with (weighted 0.1 100); [|by vm_compute].
    apply weighted_mono; [lra | done].
  - eexists. split; [apply brightness_component, lookup_insert_eq|]. by vm_compute.
  - eexists. split; [apply contrast_component, lookup_insert_eq|]. by vm_compute.
  - intros Hfar. eexists.
    split; [apply brightness_component, lookup_insert_eq|].
    rewrite (normalised_far 130 2 50 v); [by vm_compute | lra | by vm_compute
                                          | by vm_compute | done].
  - intros Hfar. eexists.
    split; [apply contrast_component, lookup_insert_eq|].
    rewrite (normalised_far 65 1.5 67 v); [by vm_compute | lra | by vm_compute
                                           | by vm_compute | done].
Qed.

Lemma score_peaks_at_optimum_witness :
  exists points,
    ("brightness"%string, points)
    ∈ score_components (<["brightness" := 255]> (noisy_metrics 0)) []
    /\ points == 0.
Proof.
  destruct (score_peaks_at_optimum (noisy_metrics 0) [] "apple" 255)
    as (_ & _ & _ & _ & H & _).
  apply H. by vm_compute.
Defined.
